(** * Trilobot commander: command server, video relay and controller link

    A shallow embedding of [examples/commander]: the TCP command server
    ([command_tcp_server.py]), the UDP video streamer
    ([video_udp_streamer.py]) and the controller client
    ([trilobot_client.py]).

    Python objects become records, methods become functions in a small
    state-and-exception monad over the process state, threads become
    program counters stepped by a scheduler, and everything that comes
    from outside the repository (the [json] codec, the hardware behind
    [tbot], the network, OpenCV) is an explicit input. *)

From Stdlib Require Import ZArith String Ascii List Bool Lia Floats.SpecFloat.
From stdpp Require Import base option strings list.

Set Warnings "-register-all".
Set Default Proof Using "Type*".
Open Scope string_scope.
Open Scope list_scope.
Open Scope Z_scope.

(** ** Python values *)

(** The exception classes the three modules can meet.  An exception is
    identified with its class; messages are not modelled. *)
Inductive exn : Type :=
| JSONDecodeError | UnicodeDecodeError | ValueError | TypeError | KeyError
| AttributeError | OverflowError | RecursionError | RuntimeError
| ConnectionResetError | ConnectionAbortedError | ConnectionRefusedError
| BrokenPipeError | SocketTimeout | OSError | Cv2Error | Exception.

(** [isinstance e c]: the subclass relation of the Python exception
    hierarchy, restricted to the classes above. *)
Definition isinstance (e c : exn) : bool :=
  match c, e with
  | Exception, _ => true
  | ValueError, (ValueError | JSONDecodeError | UnicodeDecodeError) => true
  | RuntimeError, (RuntimeError | RecursionError) => true
  | OSError, (OSError | ConnectionResetError | ConnectionAbortedError
             | ConnectionRefusedError | BrokenPipeError | SocketTimeout) => true
  | JSONDecodeError, JSONDecodeError => true
  | UnicodeDecodeError, UnicodeDecodeError => true
  | TypeError, TypeError => true
  | KeyError, KeyError => true
  | AttributeError, AttributeError => true
  | OverflowError, OverflowError => true
  | RecursionError, RecursionError => true
  | ConnectionResetError, ConnectionResetError => true
  | ConnectionAbortedError, ConnectionAbortedError => true
  | ConnectionRefusedError, ConnectionRefusedError => true
  | BrokenPipeError, BrokenPipeError => true
  | SocketTimeout, SocketTimeout => true
  | Cv2Error, Cv2Error => true
  | _, _ => false
  end.

(** The outcome of evaluating a Python expression. *)
Inductive pyresult (A : Type) : Type :=
| OK (a : A)
| Raise (e : exn).
Arguments OK {A} a.
Arguments Raise {A} e.

(** [bytes] and [str].  A [str] is held as its UTF-8 encoding, so that
    [s.encode('utf-8')] is the identity. *)
Abbreviation bytes := string (only parsing).
Abbreviation pystr := string (only parsing).

(** A Python [float] is an IEEE 754 binary64 number. *)
Abbreviation float := spec_float (only parsing).
Definition prec : Z := 53.
Definition emax : Z := 1024.

(** The float literals of the source: [0.0] and [1.0]. *)
Definition float_0_0 : float := S754_zero false.
Definition float_1_0 : float := S754_finite false 4503599627370496 (-52).

(** What [json.loads] returns and [json.dumps] takes: [dict], [list],
    [str], [int], [float], [bool] and [None].  A [dict] keeps its
    insertion order. *)
Inductive json : Type :=
| JNull
| JBool (b : bool)
| JInt (n : Z)
| JFloat (f : float)
| JStr (s : pystr)
| JArr (l : list json)
| JObj (kvs : list (pystr * json)).

(** [d.get(key, default)] on a [dict]. *)
Fixpoint dict_get (kvs : list (pystr * json)) (key : pystr) (default : json) : json :=
  match kvs with
  | [] => default
  | (k, v) :: rest => if String.eqb k key then v else dict_get rest key default
  end.

(** [d[key] = v]: an existing key keeps its place. *)
Fixpoint dict_set (kvs : list (pystr * json)) (key : pystr) (v : json)
  : list (pystr * json) :=
  match kvs with
  | [] => [(key, v)]
  | (k, v0) :: rest =>
      if String.eqb k key then (k, v) :: rest else (k, v0) :: dict_set rest key v
  end.

(** [float(n)] for an [int]: round to nearest even, [OverflowError]
    beyond the binary64 range. *)
Definition float_of_int (n : Z) : pyresult float :=
  match binary_normalize prec emax n 0 false with
  | S754_infinity _ => Raise OverflowError
  | f => OK f
  end.

(** [int(f)] for a [float]: truncation toward zero. *)
Definition int_of_float (f : float) : pyresult Z :=
  match f with
  | S754_zero _ => OK 0
  | S754_nan => Raise ValueError
  | S754_infinity _ => Raise OverflowError
  | S754_finite s m e =>
      let a := if 0 <=? e then Z.pos m * 2 ^ e else Z.pos m / 2 ^ (- e) in
      OK (if s then - a else a)
  end.

(** [str.lower()].  ASCII capitals are folded, and so is the Kelvin
    sign U+212A, the one character outside ASCII whose lower case is an
    ASCII letter; the other cased characters stay outside ASCII under
    Python's folding and are left as they are, which no comparison with
    the ASCII action names can tell apart. *)
Definition lower_ascii (c : ascii) : ascii :=
  let n := N_of_ascii c in
  if ((65 <=? n) && (n <=? 90))%N then ascii_of_N (n + 32) else c.

Fixpoint lower (s : pystr) : pystr :=
  match s with
  | String "226" (String "132" (String "170" rest)) => String "k" (lower rest)
  | String c rest => String (lower_ascii c) (lower rest)
  | EmptyString => EmptyString
  end.

(** [str.strip()]: the white space of [str.isspace], as UTF-8. *)
Definition space_prefixes : list pystr :=
  map string_of_list_ascii
    [ ["009"]; ["010"]; ["011"]; ["012"]; ["013"]; ["028"]; ["029"]; ["030"];
      ["031"]; ["032"]; ["194"; "133"]; ["194"; "160"]; ["225"; "154"; "128"];
      ["226"; "128"; "128"]; ["226"; "128"; "129"]; ["226"; "128"; "130"];
      ["226"; "128"; "131"]; ["226"; "128"; "132"]; ["226"; "128"; "133"];
      ["226"; "128"; "134"]; ["226"; "128"; "135"]; ["226"; "128"; "136"];
      ["226"; "128"; "137"]; ["226"; "128"; "138"]; ["226"; "128"; "168"];
      ["226"; "128"; "169"]; ["226"; "128"; "175"]; ["226"; "129"; "159"];
      ["227"; "128"; "128"] ]%char.

Fixpoint drop_prefix (p s : string) : option string :=
  match p, s with
  | EmptyString, _ => Some s
  | String a p', String b s' => if Ascii.eqb a b then drop_prefix p' s' else None
  | String _ _, EmptyString => None
  end.

Fixpoint drop_space (ps : list pystr) (s : string) : option string :=
  match ps with
  | [] => None
  | p :: ps' =>
      match drop_prefix p s with
      | Some r => Some r
      | None => drop_space ps' s
      end
  end.

Fixpoint lstrip_fuel (ps : list pystr) (fuel : nat) (s : string) : string :=
  match fuel with
  | O => s
  | S fuel' =>
      match drop_space ps s with
      | Some r => lstrip_fuel ps fuel' r
      | None => s
      end
  end.

Definition string_rev (s : string) : string :=
  string_of_list_ascii (rev (list_ascii_of_string s)).

Definition lstrip (s : pystr) : pystr :=
  lstrip_fuel space_prefixes (String.length s) s.

Definition rstrip (s : pystr) : pystr :=
  string_rev (lstrip_fuel (map string_rev space_prefixes) (String.length s) (string_rev s)).

Definition strip (s : pystr) : pystr := rstrip (lstrip s).

(** The quotation mark, and the line feed that ends every message. *)
Definition dq : string := String "034" EmptyString.
Definition nl : string := String "010" EmptyString.

(** [b'...'] literals are written with a single quote for each
    quotation mark of the source. *)
Fixpoint quoted (s : string) : string :=
  match s with
  | EmptyString => EmptyString
  | String c rest => String (if Ascii.eqb c "'" then "034"%char else c) (quoted rest)
  end.

(** The [json] module and the string forms of [float()] and [int()]
    belong to the Python runtime, not to the repository: they are
    taken as an interface.  [PyJson] further down is an executable
    instance. *)
Class PyRuntime : Type := {
  json_loads : pystr -> pyresult json;
  json_dumps : json -> pyresult pystr;
  float_of_str : pystr -> pyresult float;
  int_of_str : pystr -> pyresult Z;
}.

(** The builtin [float(x)]. *)
Definition py_float `{PyRuntime} (x : json) : pyresult float :=
  match x with
  | JFloat f => OK f
  | JInt n => float_of_int n
  | JBool b => OK (if b then float_1_0 else float_0_0)
  | JStr s => float_of_str s
  | JNull | JArr _ | JObj _ => Raise TypeError
  end.

(** The builtin [int(x)]. *)
Definition py_int `{PyRuntime} (x : json) : pyresult Z :=
  match x with
  | JInt n => OK n
  | JBool b => OK (if b then 1 else 0)
  | JFloat f => int_of_float f
  | JStr s => int_of_str s
  | JNull | JArr _ | JObj _ => Raise TypeError
  end.

(** The method call [x.get(key, default)]: only a [dict] has it. *)
Definition py_get (x : json) (key : pystr) (default : json) : pyresult json :=
  match x with
  | JObj kvs => OK (dict_get kvs key default)
  | _ => Raise AttributeError
  end.

(** The method call [x.lower()]: only a [str] has it. *)
Definition py_lower (x : json) : pyresult pystr :=
  match x with
  | JStr s => OK (lower s)
  | _ => Raise AttributeError
  end.

(** ** Effects *)

(** The [logging] levels, and the root logger's threshold
    ([LOG_LEVEL = logging.INFO] in the three modules). *)
Inductive level : Type := DEBUG | INFO | WARNING | ERROR | CRITICAL.

Definition level_no (l : level) : Z :=
  match l with
  | DEBUG => 10 | INFO => 20 | WARNING => 30 | ERROR => 40 | CRITICAL => 50
  end.

Definition LOG_LEVEL : level := INFO.

(** What a method leaves behind besides its state change: the records it
    logs (the message is the format string of the source, not
    interpolated) and the bounded waits it performs, with their timeout
    in milliseconds. *)
Inductive effect : Type :=
| Logged (lvl : level) (msg : string)
| Waited (what : string) (timeout_ms : Z).

(** A method over an object of type [S]: it returns or raises, updates
    the object, and emits effects.  State changes and effects made
    before a [raise] stay. *)
Definition M (S A : Type) : Type := S -> pyresult A * S * list effect.

Definition ret {S A} (a : A) : M S A := fun s => (OK a, s, []).

Definition raise {S A} (e : exn) : M S A := fun s => (Raise e, s, []).

Definition bind {S A B} (m : M S A) (k : A -> M S B) : M S B :=
  fun s =>
    match m s with
    | (OK a, s1, t1) => let '(r, s2, t2) := k a s1 in (r, s2, t1 ++ t2)
    | (Raise e, s1, t1) => (Raise e, s1, t1)
    end.

Declare Scope py_scope.
Delimit Scope py_scope with py.
Notation "x <- m ;; k" := (bind m (fun x => k))
  (at level 100, m at next level, right associativity) : py_scope.
Notation "m ;; k" := (bind m (fun _ => k))
  (at level 100, right associativity) : py_scope.
Open Scope py_scope.

Definition gets {S A} (f : S -> A) : M S A := fun s => (OK (f s), s, []).

Definition modify {S} (f : S -> S) : M S unit := fun s => (OK tt, f s, []).

Definition lift {S A} (r : pyresult A) : M S A := fun s => (r, s, []).

Definition emit {S} (e : effect) : M S unit := fun s => (OK tt, s, [e]).

(** [logging.<level>(msg)]: records below the threshold are dropped. *)
Definition logging {S} (lvl : level) (msg : string) : M S unit :=
  if level_no LOG_LEVEL <=? level_no lvl then emit (Logged lvl msg) else ret tt.

(** Run a method of a component object held in a field. *)
Definition zoom {S T A} (get : S -> T) (set : T -> S -> S) (m : M T A) : M S A :=
  fun s => let '(r, t, tr) := m (get s) in (r, set t s, tr).

(** [try: body / except classes: handler ...]: the first clause with a
    matching class handles the exception. *)
Fixpoint find_handler {S A} (e : exn) (hs : list (list exn * (exn -> M S A)))
  : option (M S A) :=
  match hs with
  | [] => None
  | (cs, h) :: hs' =>
      if existsb (isinstance e) cs then Some (h e) else find_handler e hs'
  end.

Definition try_except {S A} (body : M S A) (hs : list (list exn * (exn -> M S A)))
  : M S A :=
  fun s =>
    match body s with
    | (OK a, s1, t1) => (OK a, s1, t1)
    | (Raise e, s1, t1) =>
        match find_handler e hs with
        | Some h => let '(r, s2, t2) := h s1 in (r, s2, t1 ++ t2)
        | None => (Raise e, s1, t1)
        end
    end.

(** [try: body / finally: fin]. *)
Definition try_finally {S A} (body : M S A) (fin : M S unit) : M S A :=
  fun s =>
    let '(r, s1, t1) := body s in
    match fin s1 with
    | (OK _, s2, t2) => (r, s2, t1 ++ t2)
    | (Raise e, s2, t2) => (Raise e, s2, t1 ++ t2)
    end.

(** Projections of a run. *)
Definition result_of {A S} (x : pyresult A * S * list effect) : pyresult A := fst (fst x).
Definition state_of {A S} (x : pyresult A * S * list effect) : S := snd (fst x).
Definition trace_of {A S} (x : pyresult A * S * list effect) : list effect := snd x.

(** The records of a trace at a given level. *)
Definition logged_at (lvl : level) (tr : list effect) : list string :=
  flat_map (fun e => match e with
                     | Logged l m => if Z.eqb (level_no l) (level_no lvl) then [m] else []
                     | Waited _ _ => []
                     end) tr.

(** The sum of the timeouts of the bounded waits of a trace. *)
Definition wait_budget (tr : list effect) : Z :=
  fold_right (fun e acc => match e with
                           | Waited _ ms => ms + acc
                           | Logged _ _ => acc
                           end) 0 tr.
Arguments wait_budget : simpl never.

(** Truthiness of an optional [str], [bytes] or [int] ([None], the empty
    string and zero are false). *)
Definition truthy_str (o : option string) : bool :=
  match o with
  | Some s => negb (String.eqb s "")
  | None => false
  end.

Definition truthy_int (o : option Z) : bool :=
  match o with
  | Some n => negb (n =? 0)
  | None => false
  end.

(** [len(b)]. *)
Definition len (b : bytes) : Z := Z.of_nat (String.length b).

(** An address [(host, port)]. *)
Definition address : Type := pystr * Z.

(** ** The actuator capability: [tbot] *)

Module Trilobot.

(** The methods of [Trilobot] the dispatcher calls, with their
    arguments. *)
Inductive call : Type :=
| forward (speed : float)
| backward (speed : float)
| turn_left (speed : float)
| turn_right (speed : float)
| set_motor_speeds (l r : float)
| stop
| coast
| set_button_led (led : Z) (value : float)
| fill_underlighting (r g b : Z)
| read_distance.

(** The hardware object: the calls made so far, and how the hardware
    answers the next call given those (it may raise). *)
Record t : Type := mk {
  calls : list call;
  respond : list call -> call -> pyresult json;
}.

Definition invoke (c : call) : M t json :=
  fun tb => (respond tb (calls tb) c, mk (calls tb ++ [c]) (respond tb), []).

End Trilobot.

(** [MockTrilobot]: every method returns [None], and [read_distance]
    returns [99.9]. *)
Definition float_99_9 : float :=
  Eval vm_compute in SFdiv prec emax (S754_finite false 999 0) (S754_finite false 10 0).

Definition MockTrilobot : Trilobot.t :=
  Trilobot.mk [] (fun _ c => OK (match c with
                               | Trilobot.read_distance => JFloat float_99_9
                               | _ => JNull
                               end)).

(** ** [video_udp_streamer.py] *)

Definition MAX_UDP_PACKET_SIZE : Z := 65507.

Module StreamingOutput.

(** [frame] is the held frame; [waiting] are the threads blocked in
    [condition.wait()], [notified] those a notification has released
    and that have not resumed yet. *)
Record t : Type := mk {
  frame : option bytes;
  waiting : list nat;
  notified : list nat;
}.

Definition init : t := mk None [] [].

Definition notify_all : M t unit :=
  modify (fun o => mk (frame o) [] (notified o ++ waiting o)).

(** [condition.wait()], entered by thread [me]. *)
Definition wait (me : nat) : M t unit :=
  modify (fun o => mk (frame o) (waiting o ++ [me]) (notified o)).

(** Thread [me] resumes from [wait()]. *)
Definition resume (me : nat) : M t unit :=
  modify (fun o => mk (frame o) (waiting o) (List.filter (fun x => negb (Nat.eqb x me)) (notified o))).

Definition write (buf : bytes) : M t unit :=
  modify (fun o => mk (Some buf) (waiting o) (notified o)) ;;
  notify_all.

End StreamingOutput.

Module VideoStreamer.

(** Where a [_stream_worker] thread stands. *)
Inductive pc : Type :=
| W_entry                          (* started, before its first statement *)
| W_head                           (* at [while self.running] *)
| W_waiting                        (* inside [condition.wait()] *)
| W_frame (frame : option bytes)   (* left the [with] block holding [frame] *)
| W_leaving                        (* after the loop *)
| W_dead.                          (* returned *)

Record t : Type := mk {
  recording : bool;                         (* [picam2] is recording *)
  output : StreamingOutput.t;
  udp_sent : list (bytes * (pystr * Z));    (* datagrams given to [udp_socket.sendto] *)
  target_ip : option pystr;
  target_port : option Z;
  running : bool;
  _stream_thread : option nat;
  threads : list pc;                        (* every thread [start] created *)
  observed : list (option bytes);           (* what the workers read from [output.frame] *)
}.

Definition init : t :=
  mk false StreamingOutput.init [] None None false None [] [].

Definition set_recording (b : bool) (v : t) : t :=
  mk b (output v) (udp_sent v) (target_ip v) (target_port v) (running v)
     (_stream_thread v) (threads v) (observed v).
Definition set_output (o : StreamingOutput.t) (v : t) : t :=
  mk (recording v) o (udp_sent v) (target_ip v) (target_port v) (running v)
     (_stream_thread v) (threads v) (observed v).
Definition set_udp_sent (l : list (bytes * (pystr * Z))) (v : t) : t :=
  mk (recording v) (output v) l (target_ip v) (target_port v) (running v)
     (_stream_thread v) (threads v) (observed v).
Definition set_target_ip (ip : option pystr) (v : t) : t :=
  mk (recording v) (output v) (udp_sent v) ip (target_port v) (running v)
     (_stream_thread v) (threads v) (observed v).
Definition set_target_port (p : option Z) (v : t) : t :=
  mk (recording v) (output v) (udp_sent v) (target_ip v) p (running v)
     (_stream_thread v) (threads v) (observed v).
Definition set_running (b : bool) (v : t) : t :=
  mk (recording v) (output v) (udp_sent v) (target_ip v) (target_port v) b
     (_stream_thread v) (threads v) (observed v).
Definition set__stream_thread (th : option nat) (v : t) : t :=
  mk (recording v) (output v) (udp_sent v) (target_ip v) (target_port v) (running v)
     th (threads v) (observed v).
Definition set_threads (l : list pc) (v : t) : t :=
  mk (recording v) (output v) (udp_sent v) (target_ip v) (target_port v) (running v)
     (_stream_thread v) l (observed v).
Definition set_observed (l : list (option bytes)) (v : t) : t :=
  mk (recording v) (output v) (udp_sent v) (target_ip v) (target_port v) (running v)
     (_stream_thread v) (threads v) l.

Definition goto (me : nat) (p : pc) : M t unit :=
  modify (fun v => set_threads (<[me := p]> (threads v)) v).

(** [thread.is_alive()]. *)
Definition is_alive (tid : nat) (v : t) : bool :=
  match threads v !! tid with
  | Some W_dead | None => false
  | Some _ => true
  end.

(** One step of the thread [me] running [_stream_worker]; [send] is
    what [udp_socket.sendto] does if this step reaches it ([None]: it
    returns).  A thread blocked in [wait()] and not notified, or a
    dead one, does not move. *)
Definition _stream_worker (me : nat) (send : option exn) : M t unit :=
  th <- gets (fun v => threads v !! me) ;;
  match th with
  | Some W_entry =>
      logging INFO "Starting video recording and streaming worker..." ;;
      modify (set_recording true) ;;
      goto me W_head
  | Some W_head =>
      r <- gets running ;;
      if r then
        zoom output set_output (StreamingOutput.wait me) ;;
        goto me W_waiting
      else goto me W_leaving
  | Some W_waiting =>
      woken <- gets (fun v => existsb (Nat.eqb me) (StreamingOutput.notified (output v))) ;;
      if woken then
        zoom output set_output (StreamingOutput.resume me) ;;
        r <- gets running ;;
        if negb r then goto me W_leaving
        else
          frame <- gets (fun v => StreamingOutput.frame (output v)) ;;
          modify (fun v => set_observed (observed v ++ [frame]) v) ;;
          goto me (W_frame frame)
      else ret tt
  | Some (W_frame frame) =>
      ip <- gets target_ip ;;
      port <- gets target_port ;;
      if truthy_str frame && truthy_str ip && truthy_int port then
        let f := default "" frame in
        if MAX_UDP_PACKET_SIZE <? len f then
          logging WARNING
            "Frame size ({len(frame)}) exceeds max UDP size ({MAX_UDP_PACKET_SIZE}). Skipping." ;;
          goto me W_head
        else
          match send with
          | None =>
              modify (fun v =>
                set_udp_sent (udp_sent v ++ [(f, (default "" ip, default 0 port))]) v)
          | Some e =>
              if isinstance e OSError
              then logging ERROR "UDP send error: {e}"
              else logging ERROR "Unexpected error sending UDP frame: {e}"
          end ;;
          goto me W_head
      else goto me W_head
  | Some W_leaving =>
      logging INFO "Stopping video recording..." ;;
      modify (set_recording false) ;;
      logging INFO "Streaming worker finished." ;;
      goto me W_dead
  | Some W_dead | None => ret tt
  end.

(** What the other threads do while a caller is blocked: the encoder
    publishes a frame, or a worker takes a step. *)
Inductive event : Type :=
| Produce (buf : bytes)
| Step (tid : nat) (send : option exn).

Definition run_event (e : event) : M t unit :=
  match e with
  | Produce buf => zoom output set_output (StreamingOutput.write buf)
  | Step tid send => _stream_worker tid send
  end.

Fixpoint run_events (es : list event) : M t unit :=
  match es with
  | [] => ret tt
  | e :: es' => run_event e ;; run_events es'
  end.

(** [start(target_ip, target_port)]. *)
Definition start (target_ip : option pystr) (target_port : option Z) : M t unit :=
  r <- gets running ;;
  if r then logging WARNING "Streamer is already running."
  else if negb (truthy_str target_ip) || negb (truthy_int target_port) then
    logging ERROR "Target IP and Port must be set to start streaming."
  else
    modify (set_target_ip target_ip) ;;
    port <- lift (match target_port with
                  | Some p => OK p
                  | None => Raise TypeError
                  end) ;;
    modify (set_target_port (Some port)) ;;
    modify (set_running true) ;;
    tid <- gets (fun v => length (threads v)) ;;
    modify (set__stream_thread (Some tid)) ;;
    modify (fun v => set_threads (threads v ++ [W_entry]) v) ;;
    logging INFO "Video streaming started, sending to {self.target_ip}:{self.target_port}".

(** [stop()]; [during_join] is what the other threads do while
    [join(timeout=5)] waits. *)
Definition stop (during_join : list event) : M t unit :=
  r <- gets running ;;
  if negb r then logging WARNING "Streamer is not running."
  else
    logging INFO "Stopping video streamer..." ;;
    modify (set_running false) ;;
    zoom output set_output StreamingOutput.notify_all ;;
    th <- gets _stream_thread ;;
    match th with
    | Some tid =>
        emit (Waited "self._stream_thread.join" 5000) ;;
        run_events during_join ;;
        alive <- gets (is_alive tid) ;;
        if alive then logging WARNING "Streaming thread did not stop gracefully."
        else ret tt
    | None => ret tt
    end ;;
    modify (set_target_ip None) ;;
    modify (set_target_port None) ;;
    logging INFO "Video streamer stopped.".

End VideoStreamer.

(** ** [command_tcp_server.py] *)

Infix "==" := String.eqb (at level 70, no associativity) : py_scope.

(** What the session's line reader yields next. *)
Inductive read_event : Type :=
| Line (l : pystr)
| ReadError (e : exn)
| EOF.

Module CommandServer.

(** A connected socket returned by [accept()]: what the server wrote
    on it, whether the server closed it, and whether the peer can
    still be written to. *)
Record Conn : Type := mkConn {
  peer : address;
  sent : bytes;
  closed : bool;
  link_up : bool;
}.

(** The listening socket [self.tcp_socket]. *)
Record ListenSocket : Type := mkListen {
  listening : bool;
  sock_closed : bool;
  backlog : list nat;          (* connections completed and not yet accepted *)
}.

(** Where a [_handle_client] thread stands. *)
Inductive hpc : Type :=
| H_entry            (* started: the session is accepted *)
| H_reading          (* in the [for line in client_file] loop: the session is active *)
| H_finally_stop     (* at [self.video_streamer.stop()] *)
| H_finally_close    (* at [conn.close()] *)
| H_finally_clear    (* at [self._client_handler_thread = None] *)
| H_exiting          (* after the [finally] block *)
| H_dead.            (* returned *)

Record Handler : Type := mkHandler {
  h_conn : nat;
  h_addr : address;
  h_pc : hpc;
}.

(** Where the [_listen_worker] thread stands. *)
Inductive lpc : Type :=
| L_entry                (* started, before [bind] *)
| L_head                 (* at [while self.running] *)
| L_accepting            (* blocked inside [accept()] *)
| L_accepted (conn : nat) (* [accept()] has a connection to return *)
| L_dead.                (* returned *)

Record t : Type := mk {
  tbot : Trilobot.t;
  video_streamer : VideoStreamer.t;
  host : pystr;
  tcp_port : Z;
  udp_port : Z;
  tcp_socket : ListenSocket;
  running : bool;
  _listen_thread : option lpc;
  _client_handler_thread : option nat;
  handlers : list Handler;     (* every handler thread created so far *)
  sockets : list Conn;         (* every connection accepted so far *)
}.

Definition init (tbot : Trilobot.t) (video_streamer : VideoStreamer.t)
    (host : pystr) (tcp_port udp_port : Z) : t :=
  mk tbot video_streamer host tcp_port udp_port (mkListen false false [])
     false None None [] [].

Definition set_tbot (x : Trilobot.t) (s : t) : t :=
  mk x (video_streamer s) (host s) (tcp_port s) (udp_port s) (tcp_socket s)
     (running s) (_listen_thread s) (_client_handler_thread s) (handlers s) (sockets s).
Definition set_video_streamer (x : VideoStreamer.t) (s : t) : t :=
  mk (tbot s) x (host s) (tcp_port s) (udp_port s) (tcp_socket s)
     (running s) (_listen_thread s) (_client_handler_thread s) (handlers s) (sockets s).
Definition set_tcp_socket (x : ListenSocket) (s : t) : t :=
  mk (tbot s) (video_streamer s) (host s) (tcp_port s) (udp_port s) x
     (running s) (_listen_thread s) (_client_handler_thread s) (handlers s) (sockets s).
Definition set_running (x : bool) (s : t) : t :=
  mk (tbot s) (video_streamer s) (host s) (tcp_port s) (udp_port s) (tcp_socket s)
     x (_listen_thread s) (_client_handler_thread s) (handlers s) (sockets s).
Definition set__listen_thread (x : option lpc) (s : t) : t :=
  mk (tbot s) (video_streamer s) (host s) (tcp_port s) (udp_port s) (tcp_socket s)
     (running s) x (_client_handler_thread s) (handlers s) (sockets s).
Definition set__client_handler_thread (x : option nat) (s : t) : t :=
  mk (tbot s) (video_streamer s) (host s) (tcp_port s) (udp_port s) (tcp_socket s)
     (running s) (_listen_thread s) x (handlers s) (sockets s).
Definition set_handlers (x : list Handler) (s : t) : t :=
  mk (tbot s) (video_streamer s) (host s) (tcp_port s) (udp_port s) (tcp_socket s)
     (running s) (_listen_thread s) (_client_handler_thread s) x (sockets s).
Definition set_sockets (x : list Conn) (s : t) : t :=
  mk (tbot s) (video_streamer s) (host s) (tcp_port s) (udp_port s) (tcp_socket s)
     (running s) (_listen_thread s) (_client_handler_thread s) (handlers s) x.

(** [conn.sendall(data)]. *)
Definition sendall (conn : nat) (data : bytes) : M t unit :=
  c <- gets (fun s => sockets s !! conn) ;;
  match c with
  | Some k =>
      if closed k then raise OSError
      else if link_up k then
        modify (fun s =>
          set_sockets (<[conn := mkConn (peer k) (sent k ++ data) (closed k) (link_up k)]>
                         (sockets s)) s)
      else raise BrokenPipeError
  | None => raise OSError
  end.

(** [conn.close()]. *)
Definition close (conn : nat) : M t unit :=
  modify (fun s =>
    match sockets s !! conn with
    | Some k => set_sockets (<[conn := mkConn (peer k) (sent k) true (link_up k)]> (sockets s)) s
    | None => s
    end).

(** A method call on [self.tbot]. *)
Definition call_tbot (c : Trilobot.call) : M t json :=
  zoom tbot set_tbot (Trilobot.invoke c).

Section WithRuntime.
Context `{PyRuntime}.

(** [_parse_command(command_data, conn)].  The [if]/[elif] chain
    yields [Some b] where the source returns [b] from inside it, and
    [None] where control falls through to the final [return True]. *)
Definition _parse_command (command_data : pystr) (conn : nat) : M t bool :=
  try_except
    (command <- lift (json_loads command_data) ;;
     a <- lift (py_get command "action" (JStr "")) ;;
     action <- lift (py_lower a) ;;
     logging DEBUG "Received command: {command}" ;;
     if action == "" then
       logging WARNING "Received command without 'action'." ;;
       ret true
     else
       returned <-
         (if action == "forward" then
            v <- lift (py_get command "speed" (JFloat float_1_0)) ;;
            speed <- lift (py_float v) ;;
            logging INFO "Got forward command" ;;
            call_tbot (Trilobot.forward speed) ;;
            ret None
          else if action == "backward" then
            v <- lift (py_get command "speed" (JFloat float_1_0)) ;;
            speed <- lift (py_float v) ;;
            call_tbot (Trilobot.backward speed) ;;
            ret None
          else if action == "turn_left" then
            v <- lift (py_get command "speed" (JFloat float_1_0)) ;;
            speed <- lift (py_float v) ;;
            call_tbot (Trilobot.turn_left speed) ;;
            ret None
          else if action == "turn_right" then
            v <- lift (py_get command "speed" (JFloat float_1_0)) ;;
            speed <- lift (py_float v) ;;
            call_tbot (Trilobot.turn_right speed) ;;
            ret None
          else if action == "set_speeds" then
            vl <- lift (py_get command "left" (JFloat float_0_0)) ;;
            left <- lift (py_float vl) ;;
            vr <- lift (py_get command "right" (JFloat float_0_0)) ;;
            right <- lift (py_float vr) ;;
            call_tbot (Trilobot.set_motor_speeds left right) ;;
            ret None
          else if action == "stop" then
            call_tbot Trilobot.stop ;;
            ret None
          else if action == "coast" then
            call_tbot Trilobot.coast ;;
            ret None
          else if action == "set_led" then
            vi <- lift (py_get command "led" JNull) ;;
            led_id <- lift (py_int vi) ;;
            vv <- lift (py_get command "value" JNull) ;;
            value <- lift (py_float vv) ;;
            call_tbot (Trilobot.set_button_led led_id value) ;;
            ret None
          else if action == "fill_underlighting" then
            vr <- lift (py_get command "r" (JInt 0)) ;;
            r <- lift (py_int vr) ;;
            vg <- lift (py_get command "g" (JInt 0)) ;;
            g <- lift (py_int vg) ;;
            vb <- lift (py_get command "b" (JInt 0)) ;;
            b <- lift (py_int vb) ;;
            call_tbot (Trilobot.fill_underlighting r g b) ;;
            ret None
          else if action == "read_distance" then
            distance <- call_tbot Trilobot.read_distance ;;
            response <- lift (json_dumps
                                (JObj [("status", JStr "distance"); ("value", distance)])) ;;
            sendall conn (response +:+ nl) ;;
            ret None
          else if action == "ping" then
            sendall conn (quoted "{'status': 'pong'}" +:+ nl) ;;
            ret None
          else if action == "exit" then
            logging INFO "Client requested exit." ;;
            ret (Some false)
          else
            logging WARNING "Unknown action received: {action}" ;;
            ret None) ;;
       match returned with
       | Some b => ret b
       | None => ret true
       end)
    [ ([JSONDecodeError], fun _ =>
         logging ERROR "Failed to decode JSON: {command_data}" ;;
         ret true);
      ([ValueError; TypeError; KeyError], fun _ =>
         logging ERROR "Error processing command {command_data}: {e}" ;;
         ret true);
      ([Exception], fun _ =>
         logging CRITICAL "Unexpected error handling command {command_data}: {e}" ;;
         ret false) ].

(** The body of the read loop for one line. *)
Definition read_line (l : pystr) (conn : nat) : M t bool :=
  let line := strip l in
  if line == "" then ret true
  else _parse_command line conn.

(** [for line in client_file: ...], on what the reader yields. *)
Fixpoint read_loop (input : list read_event) (conn : nat) : M t unit :=
  match input with
  | [] | EOF :: _ => ret tt
  | ReadError e :: _ => raise e
  | Line l :: rest =>
      go_on <- read_line l conn ;;
      if go_on then read_loop rest conn else ret tt
  end.

(** The statements of [_handle_client] around the loop. *)
Definition session_enter (addr : address) : M t unit :=
  logging INFO "Client connected: {client_ip}:{client_port}" ;;
  port <- gets udp_port ;;
  zoom video_streamer set_video_streamer
    (VideoStreamer.start (Some (fst addr)) (Some port)).

Definition session_except : list (list exn * (exn -> M t unit)) :=
  [ ([ConnectionResetError], fun _ =>
       logging WARNING "Client {client_ip}:{client_port} reset the connection.");
    ([Exception], fun _ =>
       logging ERROR "Error handling client {client_ip}:{client_port}: {e}") ].

Definition finally_stop (during_join : list VideoStreamer.event) : M t unit :=
  logging INFO "Client disconnected: {client_ip}:{client_port}" ;;
  zoom video_streamer set_video_streamer (VideoStreamer.stop during_join).

Definition finally_clear : M t unit :=
  modify (set__client_handler_thread None).

(** [_handle_client(conn, addr)], run from start to end on what the
    reader yields; [during_join] is what the video threads do while
    [video_streamer.stop()] joins. *)
Definition _handle_client (conn : nat) (addr : address)
    (input : list read_event) (during_join : list VideoStreamer.event) : M t unit :=
  session_enter addr ;;
  try_finally
    (try_except (read_loop input conn) session_except)
    (finally_stop during_join ;;
     close conn ;;
     finally_clear).

(** [thread.is_alive()] for a handler thread. *)
Definition is_alive (tid : nat) (s : t) : bool :=
  match handlers s !! tid with
  | Some h => match h_pc h with H_dead => false | _ => true end
  | None => false
  end.

Definition goto (me : nat) (p : hpc) : M t unit :=
  modify (fun s =>
    match handlers s !! me with
    | Some h => set_handlers (<[me := mkHandler (h_conn h) (h_addr h) p]> (handlers s)) s
    | None => s
    end).

(** One step of the handler thread [me]: [r] is what the reader
    yields if the thread is in its loop, [during_join] what the video
    threads do if it is at [video_streamer.stop()].  An exception that
    escapes the function ends the thread. *)
Definition handler_step (me : nat) (r : read_event)
    (during_join : list VideoStreamer.event) : M t unit :=
  th <- gets (fun s => handlers s !! me) ;;
  match th with
  | Some (mkHandler conn addr H_entry) =>
      try_except (session_enter addr ;; goto me H_reading)
        [([Exception], fun _ => goto me H_dead)]
  | Some (mkHandler conn addr H_reading) =>
      go_on <- try_except
                 (match r with
                  | Line l => read_line l conn
                  | ReadError e => raise e
                  | EOF => ret false
                  end)
                 (map (fun '(cs, h) => (cs, fun e => h e ;; ret false)) session_except) ;;
      if (go_on : bool) then ret tt else goto me H_finally_stop
  | Some (mkHandler conn addr H_finally_stop) =>
      try_except (finally_stop during_join ;; goto me H_finally_close)
        [([Exception], fun _ => goto me H_dead)]
  | Some (mkHandler conn addr H_finally_close) =>
      close conn ;; goto me H_finally_clear
  | Some (mkHandler conn addr H_finally_clear) =>
      finally_clear ;; goto me H_exiting
  | Some (mkHandler conn addr H_exiting) => goto me H_dead
  | Some (mkHandler _ _ H_dead) | None => ret tt
  end.

Definition set_listener (p : lpc) : M t unit :=
  modify (set__listen_thread (Some p)).

(** A peer connects to [(host, tcp_port)].  The connection completes
    if the socket is listening; it is handed to a listen thread blocked
    in [accept()], or queued.  Returns whether it completed. *)
Definition peer_connect (a : address) (link : bool) : M t bool :=
  sk <- gets tcp_socket ;;
  if listening sk && negb (sock_closed sk) then
    c <- gets (fun s => length (sockets s)) ;;
    modify (fun s => set_sockets (sockets s ++ [mkConn a "" false link]) s) ;;
    l <- gets _listen_thread ;;
    match l with
    | Some L_accepting => set_listener (L_accepted c)
    | _ => modify (set_tcp_socket (mkListen (listening sk) (sock_closed sk) (backlog sk ++ [c])))
    end ;;
    ret true
  else ret false.

(** How an iteration of the accept loop ends. *)
Inductive loop_exit : Type := Continue | Break.

(** The accept loop's body once [accept()] has returned [conn]: the
    statements after line 166, with the [except] clauses of the loop.
    The condition [self._client_handler_thread and
    self._client_handler_thread.is_alive()] is evaluated in one step:
    a handler thread clearing the slot between its two reads is not
    modelled. *)
Definition accepted (conn : nat) : M t loop_exit :=
  try_except
    (r <- gets running ;;
     if negb r then
       close conn ;;
       ret Break
     else
       busy <- gets (fun s =>
                 match _client_handler_thread s with
                 | Some th => is_alive th s
                 | None => false
                 end) ;;
       (if busy then
          logging WARNING "Another client {addr} tried to connect. Rejecting." ;;
          sendall conn (quoted "{'error': 'Server busy'}" +:+ nl) ;;
          close conn
        else
          addr <- gets (fun s => match sockets s !! conn with
                                 | Some k => peer k
                                 | None => ("", 0)
                                 end) ;;
          tid <- gets (fun s => length (handlers s)) ;;
          modify (set__client_handler_thread (Some tid)) ;;
          modify (fun s => set_handlers (handlers s ++ [mkHandler conn addr H_entry]) s)) ;;
       ret Continue)
    [ ([OSError], fun _ =>
         r <- gets running ;;
         (if r then logging ERROR "Socket error: {e}"
          else logging INFO "Socket closed for shutdown.") ;;
         ret Break);
      ([Exception], fun _ =>
         logging CRITICAL "Unexpected error in listen worker: {e}" ;;
         emit (Waited "time.sleep" 1000) ;;
         ret Continue) ].

Definition leave_loop : M t unit :=
  logging INFO "Listen worker stopped." ;;
  set_listener L_dead.

(** One step of the thread running [_listen_worker].  Blocked in
    [accept()] with nothing to return, or dead, it does not move. *)
Definition _listen_worker : M t unit :=
  l <- gets _listen_thread ;;
  match l with
  | Some L_entry =>
      sk <- gets tcp_socket ;;
      if sock_closed sk then set_listener L_dead
      else
        modify (set_tcp_socket (mkListen true false (backlog sk))) ;;
        logging INFO "TCP Server listening on {self.host}:{self.tcp_port}" ;;
        set_listener L_head
  | Some L_head =>
      r <- gets running ;;
      if negb r then leave_loop
      else
        logging DEBUG "Waiting for a client connection..." ;;
        sk <- gets tcp_socket ;;
        if sock_closed sk then
          r <- gets running ;;
          (if r then logging ERROR "Socket error: {e}"
           else logging INFO "Socket closed for shutdown.") ;;
          leave_loop
        else
          match backlog sk with
          | c :: rest =>
              modify (set_tcp_socket (mkListen (listening sk) (sock_closed sk) rest)) ;;
              set_listener (L_accepted c)
          | [] => set_listener L_accepting
          end
  | Some (L_accepted conn) =>
      e <- accepted conn ;;
      match e with
      | Continue => set_listener L_head
      | Break => leave_loop
      end
  | Some L_accepting | Some L_dead | None => ret tt
  end.

(** [start()]. *)
Definition start : M t unit :=
  r <- gets running ;;
  if r then logging WARNING "Server is already running."
  else
    modify (set_running true) ;;
    set_listener L_entry.

(** The connection [stop()] makes to its own port to unblock
    [accept()]; the socket is closed as soon as it is connected. *)
Definition wake_up : M t unit :=
  emit (Waited "s.connect" 500) ;;
  h <- gets host ;;
  ok <- peer_connect (if h == "0.0.0.0" then "127.0.0.1" else h, 0) false ;;
  if (ok : bool) then ret tt else raise OSError.

(** [stop()] as the calling thread runs it, statement by statement.
    The other threads run between two statements, and the listen
    thread reads [running] again when [accept()] returns (line 168),
    so the order of the statements shows.  [spc] names the statement
    that comes next; the guard, the log record and
    [self.running = False] are one step, since the guard and the
    record touch nothing another thread changes. *)
Inductive spc : Type :=
| S_entry            (* lines 212-217 *)
| S_stop_video       (* line 218 *)
| S_wake_up          (* lines 221-226 *)
| S_close            (* line 228 *)
| S_join_listener    (* lines 230-231 *)
| S_join_handler     (* lines 233-236 *)
| S_returned.

(** One statement of [stop()]; [during_join] is what the video threads
    do while [video_streamer.stop()] joins.  The two joins at the end
    wait and change nothing. *)
Definition stop_step (during_join : list VideoStreamer.event) (pc : spc) : M t spc :=
  match pc with
  | S_entry =>
      r <- gets running ;;
      if negb r then
        logging WARNING "Server is not running." ;;
        ret S_returned
      else
        logging INFO "Stopping TCP Server..." ;;
        modify (set_running false) ;;
        ret S_stop_video
  | S_stop_video =>
      zoom video_streamer set_video_streamer (VideoStreamer.stop during_join) ;;
      ret S_wake_up
  | S_wake_up =>
      try_except wake_up [([Exception], fun _ => ret tt)] ;;
      ret S_close
  | S_close =>
      modify (set_tcp_socket (mkListen false true [])) ;;
      ret S_join_listener
  | S_join_listener =>
      lt <- gets _listen_thread ;;
      (if lt is Some _ then emit (Waited "self._listen_thread.join" 2000) else ret tt) ;;
      ret S_join_handler
  | S_join_handler =>
      ht <- gets _client_handler_thread ;;
      (if ht is Some _ then emit (Waited "self._client_handler_thread.join" 2000) else ret tt) ;;
      logging INFO "TCP Server stopped." ;;
      ret S_returned
  | S_returned => ret S_returned
  end.

(** [stop()]: its statements one after the other, with no other
    thread running in between. *)
Definition stop (during_join : list VideoStreamer.event) : M t unit :=
  pc <- stop_step during_join S_entry ;;
  pc <- stop_step during_join pc ;;
  pc <- stop_step during_join pc ;;
  pc <- stop_step during_join pc ;;
  pc <- stop_step during_join pc ;;
  stop_step during_join pc ;;
  ret tt.

(** What can happen next in the server process: a call of the main
    thread, a peer connecting or going away, or a step of one of the
    threads. *)
Inductive event : Type :=
| Call_start
| Call_stop (during_join : list VideoStreamer.event)
| Connect (a : address) (link : bool)
| Hangup (conn : nat)
| Listen
| Handle (tid : nat) (r : read_event) (during_join : list VideoStreamer.event)
| Video (e : VideoStreamer.event).

(** The peer of [conn] has gone away and the server's socket knows
    it: from now on [sendall] raises.  The write that TCP still
    accepts right after a peer's close is not modelled. *)
Definition hangup (conn : nat) : M t unit :=
  modify (fun s =>
    match sockets s !! conn with
    | Some k => set_sockets (<[conn := mkConn (peer k) (sent k) (closed k) false]> (sockets s)) s
    | None => s
    end).

Definition step (e : event) : M t unit :=
  match e with
  | Call_start => start
  | Call_stop during_join => stop during_join
  | Connect a link => peer_connect a link ;; ret tt
  | Hangup conn => hangup conn
  | Listen => _listen_worker
  | Handle tid r during_join => handler_step tid r during_join
  | Video e => zoom video_streamer set_video_streamer (VideoStreamer.run_event e)
  end.

(** A run of the process; a step that raises ends nothing but
    itself. *)
Fixpoint run (es : list event) (s : t) : t :=
  match es with
  | [] => s
  | e :: es' => run es' (state_of (step e s))
  end.

(** What happens while [stop()] runs: its next statement, or a step
    of the rest of the process. *)
Inductive stop_event : Type :=
| Statement
| Meanwhile (e : event).

(** A run of [stop()] among the other threads, from the statement
    [pc]: the statement the caller has reached, the state of the
    server, and the records and waits of [stop()] itself.  A statement
    that raises ends the call. *)
Fixpoint stop_among (during_join : list VideoStreamer.event) (es : list stop_event)
    (pc : spc) : M t spc :=
  match es with
  | [] => ret pc
  | Statement :: es' =>
      pc' <- stop_step during_join pc ;;
      stop_among during_join es' pc'
  | Meanwhile e :: es' =>
      modify (fun s => state_of (step e s)) ;;
      stop_among during_join es' pc
  end.

(** The sessions that are active: the handler threads in their read
    loop. *)
Definition active_sessions (s : t) : list Handler :=
  List.filter (fun h => match h_pc h with H_reading => true | _ => false end) (handlers s).

End WithRuntime.

End CommandServer.

(** ** [trilobot_client.py] *)

Module RobotClient.

Record t : Type := mk {
  robot_ip : pystr;
  tcp_port : Z;
  udp_port : Z;
  tcp_socket : option bytes;      (* the open socket, with what was written to it *)
  udp_socket : option unit;
  is_connected : bool;
  _running : bool;
  _video_frame : option bytes;
}.

Definition init (robot_ip : pystr) (tcp_port udp_port : Z) : t :=
  mk robot_ip tcp_port udp_port None None false false None.

Definition set_tcp_socket (x : option bytes) (c : t) : t :=
  mk (robot_ip c) (tcp_port c) (udp_port c) x (udp_socket c) (is_connected c)
     (_running c) (_video_frame c).
Definition set_udp_socket (x : option unit) (c : t) : t :=
  mk (robot_ip c) (tcp_port c) (udp_port c) (tcp_socket c) x (is_connected c)
     (_running c) (_video_frame c).
Definition set_is_connected (x : bool) (c : t) : t :=
  mk (robot_ip c) (tcp_port c) (udp_port c) (tcp_socket c) (udp_socket c) x
     (_running c) (_video_frame c).
Definition set__running (x : bool) (c : t) : t :=
  mk (robot_ip c) (tcp_port c) (udp_port c) (tcp_socket c) (udp_socket c) (is_connected c)
     x (_video_frame c).
Definition set__video_frame (x : option bytes) (c : t) : t :=
  mk (robot_ip c) (tcp_port c) (udp_port c) (tcp_socket c) (udp_socket c) (is_connected c)
     (_running c) x.

(** [_cleanup_sockets()]. *)
Definition _cleanup_sockets : M t unit :=
  modify (set_tcp_socket None) ;;
  modify (set_udp_socket None) ;;
  modify (set_is_connected false).

(** [connect()]; [tcp] and [udp] are what connecting the TCP socket
    and binding the UDP socket do ([None]: they succeed). *)
Definition connect (tcp udp : option exn) : M t bool :=
  c <- gets is_connected ;;
  if c then logging WARNING "Already connected." ;; ret true
  else
    logging INFO "Attempting to connect to {self.robot_ip}..." ;;
    try_except
      (modify (set_tcp_socket (Some "")) ;;
       emit (Waited "self.tcp_socket.connect" 5000) ;;
       (if tcp is Some e then raise e else ret tt) ;;
       logging INFO "TCP Connected." ;;
       modify (set_udp_socket (Some tt)) ;;
       (if udp is Some e then raise e else ret tt) ;;
       logging INFO "UDP Listening on port {self.udp_port}." ;;
       modify (set_is_connected true) ;;
       modify (set__running true) ;;
       ret true)
      [ ([SocketTimeout], fun _ =>
           logging ERROR "Connection timed out ({TCP_TIMEOUT}s). Is robot running and IP {self.robot_ip} correct?" ;;
           _cleanup_sockets ;; ret false);
        ([ConnectionRefusedError], fun _ =>
           logging ERROR "Connection refused. Is the robot's CommandServer running on port {self.tcp_port}?" ;;
           _cleanup_sockets ;; ret false);
        ([Exception], fun _ =>
           logging ERROR "Failed to connect: {e}" ;;
           _cleanup_sockets ;; ret false) ].

(** One iteration of the loop of [_udp_listen_worker]; [r] is what
    [udp_socket.recvfrom] does.  [true] when the loop goes on. *)
Definition _udp_listen_worker (r : pyresult (bytes * address)) : M t bool :=
  run <- gets _running ;;
  if negb run then ret false
  else
    try_except
      (x <- lift r ;;
       ip <- gets robot_ip ;;
       (if fst (snd x) == ip then modify (set__video_frame (Some (fst x))) else ret tt) ;;
       ret true)
      [ ([SocketTimeout], fun _ => ret true);
        ([Exception], fun _ =>
           run' <- gets _running ;;
           (if run' then logging ERROR "UDP receive error: {e}" else ret tt) ;;
           ret false) ].

(** [disconnect()]; [send] is what writing the farewell [exit]
    command does. *)
Definition disconnect `{PyRuntime} (send : option exn) : M t unit :=
  run <- gets _running ;;
  if negb run then ret tt
  else
    logging INFO "Disconnecting..." ;;
    modify (set__running false) ;;
    sock <- gets tcp_socket ;;
    (match sock with
     | Some written =>
         connected <- gets is_connected ;;
         (if connected then
            match send, json_dumps (JObj [("action", JStr "exit")]) with
            | None, OK json_str =>
                modify (set_tcp_socket (Some (written +:+ json_str +:+ nl)))
            | Some BrokenPipeError, OK _ =>
                logging ERROR "Connection broken. Attempting to disconnect."
            | _, _ => logging ERROR "Failed to send command: {e}"
            end
          else logging ERROR "Not connected. Cannot send command.") ;;
         emit (Waited "time.sleep" 100) ;;
         modify (set_tcp_socket None)
     | None => ret tt
     end) ;;
    modify (set_udp_socket None) ;;
    modify (set_is_connected false) ;;
    logging INFO "Disconnected.".

Section WithDecoder.
(** OpenCV is outside the repository: [imdecode] stands for
    [cv2.imdecode(np.frombuffer(data, np.uint8), cv2.IMREAD_COLOR)],
    which returns an image, returns [None] for data it cannot decode,
    or raises. *)
Context {Image : Type} (imdecode : bytes -> pyresult (option Image)).

(** [get_latest_frame()]. *)
Definition get_latest_frame : M t (option Image) :=
  frame_data <- gets _video_frame ;;
  if truthy_str frame_data then
    try_except
      (frame <- lift (imdecode (default "" frame_data)) ;;
       ret frame)
      [ ([Exception], fun _ =>
           logging WARNING "Failed to decode JPEG frame: {e}" ;;
           ret None) ]
  else ret None.

End WithDecoder.

(** What can happen next in the controller process. *)
Inductive event : Type :=
| Call_connect (tcp udp : option exn)
| Call_disconnect (send : option exn)
| Recv (r : pyresult (bytes * address)).

Definition step `{PyRuntime} (e : event) : M t unit :=
  match e with
  | Call_connect tcp udp => connect tcp udp ;; ret tt
  | Call_disconnect send => disconnect send
  | Recv r => _udp_listen_worker r ;; ret tt
  end.

Fixpoint run `{PyRuntime} (es : list event) (c : t) : t :=
  match es with
  | [] => c
  | e :: es' => run es' (state_of (step e c))
  end.

End RobotClient.

(** ** An executable Python runtime

    [json.loads], [json.dumps], [float(str)] and [int(str)] as CPython
    behaves on UTF-8 text, so that the server can be run on the lines a
    client sends.  Nesting deep enough to exhaust the interpreter's
    stack is not modelled. *)

Module PyJson.

Definition code (c : ascii) : Z := Z.of_N (N_of_ascii c).
Definition chr (n : Z) : ascii := ascii_of_N (Z.to_N n).
Definition is_digit (c : ascii) : bool := (48 <=? code c) && (code c <=? 57).
Definition digit (c : ascii) : Z := code c - 48.

(** The white space of the JSON grammar. *)
Definition is_ws (c : ascii) : bool :=
  let n := code c in (n =? 32) || (n =? 9) || (n =? 10) || (n =? 13).

Fixpoint skip_ws (s : string) : string :=
  match s with
  | String c rest => if is_ws c then skip_ws rest else s
  | EmptyString => s
  end.

(** Leading decimal digits: their value, how many, and the rest. *)
Fixpoint take_digits (s : string) (acc : Z) (n : Z) : Z * Z * string :=
  match s with
  | String c rest =>
      if is_digit c then take_digits rest (10 * acc + digit c) (n + 1) else (acc, n, s)
  | EmptyString => (acc, n, s)
  end.

(** The binary64 number nearest to [d * 10 ^ e], for [d >= 0]. *)
Definition float_of_decimal (neg : bool) (d e : Z) : float :=
  if d =? 0 then S754_zero neg
  else if 310 <? e then S754_infinity neg
  else if (Z.log2 d + 1) / 3 + 1 + e <? -330 then S754_zero neg
  else if 0 <=? e then binary_normalize prec emax ((if neg then -1 else 1) * (d * 10 ^ e)) 0 neg
  else SFdiv prec emax (S754_finite neg (Z.to_pos d) 0)
                       (S754_finite false (Z.to_pos (10 ^ (- e))) 0).

(** The fraction, a point and digits: the digits folded into [acc],
    and how many. *)
Definition take_fraction (s : string) (acc : Z) : option (Z * Z * string) :=
  match s with
  | String "." (String c rest) =>
      if is_digit c then Some (take_digits (String c rest) acc 0) else None
  | _ => None
  end.

(** The exponent: [e] or [E], an optional sign, digits. *)
Definition take_exponent (s : string) : option (Z * string) :=
  match s with
  | String c rest =>
      if (code c =? 101) || (code c =? 69) then
        let '(neg, rest') :=
          match rest with
          | String "-" r => (true, r)
          | String "+" r => (false, r)
          | _ => (false, rest)
          end in
        let '(v, n, rest'') := take_digits rest' 0 0 in
        if n =? 0 then None else Some (if neg then - v else v, rest'')
      else None
  | EmptyString => None
  end.

(** The number pattern of [json.scanner]: an optional minus sign, an
    integer part without leading zeros, an optional fraction and an
    optional exponent. *)
Definition scan_number (s : string) : option (json * string) :=
  let '(neg, s1) := match s with
                    | String "-" r => (true, r)
                    | _ => (false, s)
                    end in
  match s1 with
  | String c rest =>
      if is_digit c then
        let '(i, _, s2) :=
          if code c =? 48 then (0, 1, rest) else take_digits s1 0 0 in
        let '(d, nfrac, s3, has_frac) :=
          match take_fraction s2 i with
          | Some (d, n, r) => (d, n, r, true)
          | None => (i, 0, s2, false)
          end in
        let '(e, s4, has_exp) :=
          match take_exponent s3 with
          | Some (e, r) => (e, r, true)
          | None => (0, s3, false)
          end in
        if has_frac || has_exp
        then Some (JFloat (float_of_decimal neg d (e - nfrac)), s4)
        else Some (JInt (if neg then - i else i), s4)
      else None
  | EmptyString => None
  end.

(** UTF-8 encoding of a code point. *)
Definition utf8 (n : Z) : string :=
  if n <? 128 then String (chr n) ""
  else if n <? 2048 then
    String (chr (192 + n / 64)) (String (chr (128 + n mod 64)) "")
  else if n <? 65536 then
    String (chr (224 + n / 4096))
      (String (chr (128 + (n / 64) mod 64)) (String (chr (128 + n mod 64)) ""))
  else
    String (chr (240 + n / 262144))
      (String (chr (128 + (n / 4096) mod 64))
         (String (chr (128 + (n / 64) mod 64)) (String (chr (128 + n mod 64)) ""))).

Definition hex (c : ascii) : option Z :=
  let n := code c in
  if (48 <=? n) && (n <=? 57) then Some (n - 48)
  else if (97 <=? n) && (n <=? 102) then Some (n - 87)
  else if (65 <=? n) && (n <=? 70) then Some (n - 55)
  else None.

(** Four hexadecimal digits. *)
Definition hex4 (s : string) : option (Z * string) :=
  match s with
  | String a (String b (String c (String d rest))) =>
      match hex a, hex b, hex c, hex d with
      | Some x, Some y, Some z, Some w => Some (4096 * x + 256 * y + 16 * z + w, rest)
      | _, _, _, _ => None
      end
  | _ => None
  end.

(** The body of a string after its opening quotation mark
    ([py_scanstring], strict). *)
Fixpoint scan_string (fuel : nat) (s : string) : option (string * string) :=
  match fuel with
  | O => None
  | S fuel' =>
      match s with
      | EmptyString => None
      | String "034" rest => Some ("", rest)
      | String "\" (String "u" rest) =>
          match hex4 rest with
          | Some (hi, rest') =>
              let low :=
                match rest' with
                | String "\" (String "u" r) =>
                    match hex4 r with
                    | Some (lo, r') =>
                        if (55296 <=? hi) && (hi <=? 56319) && (56320 <=? lo) && (lo <=? 57343)
                        then Some (65536 + (hi - 55296) * 1024 + (lo - 56320), r')
                        else None
                    | None => None
                    end
                | _ => None
                end in
              let '(cp, rest'') := match low with
                                   | Some x => x
                                   | None => (hi, rest')
                                   end in
              match scan_string fuel' rest'' with
              | Some (str, r) => Some ((utf8 cp +:+ str), r)
              | None => None
              end
          | None => None
          end
      | String "\" (String e rest) =>
          let c := match e with
                   | "034" => Some "034" | "\" => Some "\" | "/" => Some "/"
                   | "b" => Some "008" | "f" => Some "012" | "n" => Some "010"
                   | "r" => Some "013" | "t" => Some "009"
                   | _ => None
                   end%char in
          match c, scan_string fuel' rest with
          | Some c', Some (str, r) => Some (String c' str, r)
          | _, _ => None
          end
      | String "\" EmptyString => None
      | String c rest =>
          if code c <? 32 then None
          else match scan_string fuel' rest with
               | Some (str, r) => Some (String c str, r)
               | None => None
               end
      end
  end.

(** Whether [s] starts with [p]. *)
Definition after (p s : string) : option string := drop_prefix p s.

(** [scan_once], [JSONArray] and [JSONObject] of [json.decoder]. *)
Fixpoint scan_value (fuel : nat) (s : string) : option (json * string) :=
  match fuel with
  | O => None
  | S fuel' =>
      match s with
      | String "034" rest =>
          match scan_string (S (String.length rest)) rest with
          | Some (str, r) => Some (JStr str, r)
          | None => None
          end
      | String "{" rest =>
          match skip_ws rest with
          | String "}" r => Some (JObj [], r)
          | rest' =>
              match scan_members fuel' rest' [] with
              | Some (kvs, r) => Some (JObj kvs, r)
              | None => None
              end
          end
      | String "[" rest =>
          match skip_ws rest with
          | String "]" r => Some (JArr [], r)
          | rest' =>
              match scan_elements fuel' rest' with
              | Some (l, r) => Some (JArr l, r)
              | None => None
              end
          end
      | _ =>
          match after "null" s, after "true" s, after "false" s with
          | Some r, _, _ => Some (JNull, r)
          | _, Some r, _ => Some (JBool true, r)
          | _, _, Some r => Some (JBool false, r)
          | None, None, None =>
              match scan_number s with
              | Some x => Some x
              | None =>
                  match after "NaN" s, after "Infinity" s, after "-Infinity" s with
                  | Some r, _, _ => Some (JFloat S754_nan, r)
                  | _, Some r, _ => Some (JFloat (S754_infinity false), r)
                  | _, _, Some r => Some (JFloat (S754_infinity true), r)
                  | None, None, None => None
                  end
              end
          end
      end
  end
with scan_elements (fuel : nat) (s : string) : option (list json * string) :=
  match fuel with
  | O => None
  | S fuel' =>
      match scan_value fuel' s with
      | Some (v, r) =>
          match skip_ws r with
          | String "]" r' => Some ([v], r')
          | String "," r' =>
              match scan_elements fuel' (skip_ws r') with
              | Some (l, r'') => Some (v :: l, r'')
              | None => None
              end
          | _ => None
          end
      | None => None
      end
  end
with scan_members (fuel : nat) (s : string) (acc : list (pystr * json))
  : option (list (pystr * json) * string) :=
  match fuel with
  | O => None
  | S fuel' =>
      match s with
      | String "034" rest =>
          match scan_string (S (String.length rest)) rest with
          | Some (key, r) =>
              match skip_ws r with
              | String ":" r1 =>
                  match scan_value fuel' (skip_ws r1) with
                  | Some (v, r2) =>
                      let acc' := dict_set acc key v in
                      match skip_ws r2 with
                      | String "}" r3 => Some (acc', r3)
                      | String "," r3 => scan_members fuel' (skip_ws r3) acc'
                      | _ => None
                      end
                  | None => None
                  end
              | _ => None
              end
          | None => None
          end
      | _ => None
      end
  end.

(** [json.loads(s)]. *)
Definition loads (s : pystr) : pyresult json :=
  match scan_value (2 * String.length s + 2) (skip_ws s) with
  | Some (v, rest) =>
      match skip_ws rest with
      | EmptyString => OK v
      | _ => Raise JSONDecodeError
      end
  | None => Raise JSONDecodeError
  end.

(** Decimal digits with single underscores between them, as [int()]
    and [float()] accept them: value, count, rest. *)
Fixpoint take_digits_ (s : string) (acc : Z) (n : Z) : Z * Z * string :=
  match s with
  | String c rest =>
      if is_digit c then take_digits_ rest (10 * acc + digit c) (n + 1)
      else if (code c =? 95) && (0 <? n)
              && match rest with
                 | String c' _ => is_digit c'
                 | EmptyString => false
                 end
      then take_digits_ rest acc n
      else (acc, n, s)
  | EmptyString => (acc, n, s)
  end.

Definition take_sign (s : string) : bool * string :=
  match s with
  | String "-" r => (true, r)
  | String "+" r => (false, r)
  | _ => (false, s)
  end.

(** [int(s)] for a [str], in base ten. *)
Definition int_of_str (s : pystr) : pyresult Z :=
  let '(neg, s1) := take_sign (strip s) in
  match take_digits_ s1 0 0 with
  | (v, n, EmptyString) => if n =? 0 then Raise ValueError else OK (if neg then - v else v)
  | _ => Raise ValueError
  end.

(** [float(s)] for a [str]. *)
Definition float_of_str (s : pystr) : pyresult float :=
  let '(neg, s1) := take_sign (strip s) in
  let w := lower s1 in
  if (w == "inf") || (w == "infinity") then OK (S754_infinity neg)
  else if w == "nan" then OK S754_nan
  else
    let '(i, ni, s2) := take_digits_ s1 0 0 in
    let '(d, nf, s3) :=
      match s2 with
      | String "." r => take_digits_ r i 0
      | _ => (i, 0, s2)
      end in
    if ni + nf =? 0 then Raise ValueError
    else
      match s3 with
      | EmptyString => OK (float_of_decimal neg d (- nf))
      | String c r =>
          if (code c =? 101) || (code c =? 69) then
            let '(eneg, r1) := take_sign r in
            match take_digits_ r1 0 0 with
            | (e, n, EmptyString) =>
                if n =? 0 then Raise ValueError
                else OK (float_of_decimal neg d ((if eneg then - e else e) - nf))
            | _ => Raise ValueError
            end
          else Raise ValueError
      end.

(** The decimal digits of a non-negative integer. *)
Fixpoint digits_fuel (fuel : nat) (n : Z) (acc : string) : string :=
  match fuel with
  | O => acc
  | S fuel' =>
      let acc' := String (chr (48 + n mod 10)) acc in
      if n <? 10 then acc' else digits_fuel fuel' (n / 10) acc'
  end.

Definition digits (n : Z) : string := digits_fuel (S (Z.to_nat (Z.log2 n))) n "".

Definition str_of_int (n : Z) : string :=
  if n <? 0 then ("-" +:+ digits (- n)) else digits n.

Fixpoint zeros (n : nat) : string :=
  match n with
  | O => ""
  | S n' => String "0" (zeros n')
  end.

Fixpoint strip_zeros_rev (s : list ascii) : list ascii :=
  match s with
  | "0"%char :: rest => strip_zeros_rev rest
  | _ => s
  end.

(** Trailing zeros removed, never to the empty string. *)
Definition rstrip_zeros (s : string) : string :=
  match rev (strip_zeros_rev (rev (list_ascii_of_string s))) with
  | [] => "0"
  | l => string_of_list_ascii l
  end.

(** [v = num / den > 0] scaled by [10 ^ (- k)], as a quotient and
    remainder over a common denominator. *)
Definition scaled (num den k : Z) : Z * Z * Z :=
  let n := if k <? 0 then num * 10 ^ (- k) else num in
  let d := if k <? 0 then den else den * 10 ^ k in
  (n / d, n mod d, d).

(** The largest [p] with [10 ^ p <= num / den], searched upward from
    an estimate below it. *)
Fixpoint log10_from (fuel : nat) (num den p : Z) : Z :=
  match fuel with
  | O => p
  | S fuel' =>
      let '(q, _, _) := scaled num den (p + 1) in
      if 1 <=? q then log10_from fuel' num den (p + 1) else p
  end.

Definition floor_log10 (m e : Z) (num den : Z) : Z :=
  log10_from 8 num den ((Z.log2 m + e) * 30103 / 100000 - 3).

(** The shortest decimal [c * 10 ^ k] that reads back as [f], and
    among those with that many digits the nearest to [f]: the digits
    of [repr(f)] for a positive finite [f]. *)
Fixpoint shortest (tries : nat) (n : Z) (f : float) (num den p10 : Z) : Z * Z :=
  let k := p10 - (n - 1) in
  let '(lo, r, d) := scaled num den k in
  let ok c := match SFcompare (float_of_decimal false c k) f with
              | Some Eq => true
              | _ => false
              end in
  let pick :=
    match ok lo, ok (lo + 1) with
    | true, true =>
        if 2 * r <? d then Some lo
        else if d <? 2 * r then Some (lo + 1)
        else Some (if Z.even lo then lo else lo + 1)
    | true, false => Some lo
    | false, true => Some (lo + 1)
    | false, false => None
    end in
  match pick, tries with
  | Some c, _ => (c, k)
  | None, O => (lo, k)
  | None, S tries' => shortest tries' (n + 1) f num den p10
  end.

(** [repr(f)]. *)
Definition repr_float (f : float) : string :=
  match f with
  | S754_nan => "nan"
  | S754_infinity s => if s then "-inf" else "inf"
  | S754_zero s => if s then "-0.0" else "0.0"
  | S754_finite s m e =>
      let num := if 0 <=? e then Z.pos m * 2 ^ e else Z.pos m in
      let den := if 0 <=? e then 1 else 2 ^ (- e) in
      let p10 := floor_log10 (Z.pos m) e num den in
      let '(c, k) := shortest 17 1 (S754_finite false m e) num den p10 in
      let all := digits c in
      let decpt := Z.of_nat (String.length all) + k in
      let ds := rstrip_zeros all in
      let nd := Z.of_nat (String.length ds) in
      let body :=
        if (decpt <=? -4) || (16 <? decpt) then
          let mant := match ds with
                      | String c0 EmptyString => String c0 ""
                      | String c0 rest => String c0 (String "." rest)
                      | EmptyString => "0"
                      end in
          let x := decpt - 1 in
          let xs := digits (Z.abs x) in
          (mant +:+ "e" +:+ (if x <? 0 then "-" else "+")
                +:+ (if Z.abs x <? 10 then "0" else "") +:+ xs)
        else if decpt <=? 0 then
          ("0." +:+ zeros (Z.to_nat (- decpt)) +:+ ds)
        else if nd <=? decpt then
          (ds +:+ zeros (Z.to_nat (decpt - nd)) +:+ ".0")
        else
          (substring 0 (Z.to_nat decpt) ds +:+ "."
             +:+ substring (Z.to_nat decpt) (Z.to_nat (nd - decpt)) ds) in
      ((if s then "-" else "") +:+ body)
  end.

Definition hex_digit (n : Z) : ascii := chr (if n <? 10 then 48 + n else 87 + n).

Definition u_escape (n : Z) : string :=
  String "\" (String "u" (String (hex_digit (n / 4096)) (String (hex_digit ((n / 256) mod 16))
    (String (hex_digit ((n / 16) mod 16)) (String (hex_digit (n mod 16)) ""))))).

Definition escape_code_point (n : Z) : string :=
  if n <? 65536 then u_escape n
  else (u_escape (55296 + (n - 65536) / 1024) +:+ u_escape (56320 + (n - 65536) mod 1024)).

(** The body of a string literal, with [ensure_ascii]. *)
Fixpoint escape (fuel : nat) (s : string) : string :=
  match fuel with
  | O => ""
  | S fuel' =>
      match s with
      | EmptyString => ""
      | String c rest =>
          let n := code c in
          if n =? 34 then String "\" (String "034" (escape fuel' rest))
          else if n =? 92 then String "\" (String "\" (escape fuel' rest))
          else if n =? 10 then String "\" (String "n" (escape fuel' rest))
          else if n =? 13 then String "\" (String "r" (escape fuel' rest))
          else if n =? 9 then String "\" (String "t" (escape fuel' rest))
          else if n =? 8 then String "\" (String "b" (escape fuel' rest))
          else if n =? 12 then String "\" (String "f" (escape fuel' rest))
          else if n <? 32 then (u_escape n +:+ escape fuel' rest)
          else if n <? 127 then String c (escape fuel' rest)
          else if n =? 127 then (u_escape n +:+ escape fuel' rest)
          else
            match rest with
            | String c1 rest1 =>
                if n <? 224 then
                  (escape_code_point ((n - 192) * 64 + (code c1 - 128))
                     +:+ escape fuel' rest1)
                else
                  match rest1 with
                  | String c2 rest2 =>
                      if n <? 240 then
                        (escape_code_point
                           ((n - 224) * 4096 + (code c1 - 128) * 64 + (code c2 - 128))
                           +:+ escape fuel' rest2)
                      else
                        match rest2 with
                        | String c3 rest3 =>
                            (escape_code_point
                               ((n - 240) * 262144 + (code c1 - 128) * 4096
                                + (code c2 - 128) * 64 + (code c3 - 128))
                               +:+ escape fuel' rest3)
                        | EmptyString => ""
                        end
                  | EmptyString => ""
                  end
            | EmptyString => ""
            end
      end
  end.

Definition dumps_str (s : string) : string :=
  (dq +:+ escape (String.length s) s +:+ dq).

Definition join (sep : string) (l : list string) : string := String.concat sep l.

(** [json.dumps(x)] with the default separators. *)
Fixpoint dumps_value (x : json) : string :=
  match x with
  | JNull => "null"
  | JBool b => if b then "true" else "false"
  | JInt n => str_of_int n
  | JFloat f =>
      match f with
      | S754_nan => "NaN"
      | S754_infinity s => if s then "-Infinity" else "Infinity"
      | _ => repr_float f
      end
  | JStr s => dumps_str s
  | JArr l => ("[" +:+ join ", " (map dumps_value l) +:+ "]")
  | JObj kvs =>
      ("{" +:+ join ", " (map (fun kv => dumps_str (fst kv) +:+ ": " +:+ dumps_value (snd kv))
                             kvs) +:+ "}")
  end.

End PyJson.

#[export] Instance CPython : PyRuntime := {
  json_loads := PyJson.loads;
  json_dumps := fun x => OK (PyJson.dumps_value x);
  float_of_str := PyJson.float_of_str;
  int_of_str := PyJson.int_of_str;
}.

(** * Specification *)

(** ** The command dispatcher *)

(** The reply to [ping], byte for byte. *)
Definition pong_reply : bytes :=
  "{" +:+ dq +:+ "status" +:+ dq +:+ ": " +:+ dq +:+ "pong" +:+ dq +:+ "}" +:+ nl.

(** The actions of the [if]/[elif] chain. *)
Definition known_actions : list pystr :=
  [ "forward"; "backward"; "turn_left"; "turn_right"; "set_speeds"; "stop"; "coast";
    "set_led"; "fill_underlighting"; "read_distance"; "ping"; "exit" ].

Definition speed_actions : list pystr :=
  [ "forward"; "backward"; "turn_left"; "turn_right" ].

(** [d.get(key)] without a default: [None] when the key is absent. *)
Fixpoint dict_lookup (kvs : list (pystr * json)) (key : pystr) : option json :=
  match kvs with
  | [] => None
  | (k, v) :: rest => if String.eqb k key then Some v else dict_lookup rest key
  end.

(** The value a message declares for a [float] field: the field's value
    when it is a number with a fraction or exponent, the documented
    default when the field is omitted. *)
Definition declared (kvs : list (pystr * json)) (key : pystr) (default : float)
  : option float :=
  match dict_lookup kvs key with
  | None => Some default
  | Some (JFloat f) => Some f
  | Some _ => None
  end.

(** The movement commands of the protocol table: the call each one
    asks of the actuator capability. *)
Definition spec_movement (action : pystr) (kvs : list (pystr * json))
  : option Trilobot.call :=
  if action == "forward" then Trilobot.forward <$> declared kvs "speed" float_1_0
  else if action == "backward" then Trilobot.backward <$> declared kvs "speed" float_1_0
  else if action == "turn_left" then Trilobot.turn_left <$> declared kvs "speed" float_1_0
  else if action == "turn_right" then Trilobot.turn_right <$> declared kvs "speed" float_1_0
  else if action == "set_speeds" then
    match declared kvs "left" float_0_0, declared kvs "right" float_0_0 with
    | Some l, Some r => Some (Trilobot.set_motor_speeds l r)
    | _, _ => None
    end
  else None.

(** The exceptions the dispatcher expects of a bad command. *)
Definition anticipated (e : exn) : bool :=
  existsb (isinstance e) [ValueError; TypeError; KeyError].

Definition rejects {A} (r : pyresult A) : Prop :=
  exists e, r = Raise e /\ anticipated e = true.

Definition accepts {A} (r : pyresult A) : Prop :=
  exists a, r = OK a.

Section Dispatcher.
Context `{PyRuntime}.
Import CommandServer.

(** The value of the [action] field, as [command.get('action', '')]
    reads it. *)
Definition action_of (kvs : list (pystr * json)) : json :=
  dict_get kvs "action" (JStr "").

(** [cmd] is a message whose action, read without regard to case, is
    [name]. *)
Definition has_action (cmd : json) (name : pystr) : Prop :=
  exists kvs a, cmd = JObj kvs /\ action_of kvs = JStr a /\ lower a = name.

(** Connection [conn] of [s] is open and its peer can be written to. *)
Definition writable (conn : nat) (s : t) : Prop :=
  exists k, sockets s !! conn = Some k /\ closed k = false /\ link_up k = true.

(** What [sendall] leaves on a writable connection. *)
Definition wrote (conn : nat) (data : bytes) (s : t) : t :=
  match sockets s !! conn with
  | Some k =>
      set_sockets (<[conn := mkConn (peer k) (sent k +:+ data) (closed k) (link_up k)]>
                     (sockets s)) s
  | None => s
  end.

(** The malformed lines the dispatcher is written to survive. *)
Inductive malformed : pyresult json -> Prop :=
| invalid_syntax :
    malformed (Raise JSONDecodeError)
| missing_action kvs a :
    action_of kvs = JStr a -> lower a = "" ->
    malformed (OK (JObj kvs))
| unknown_action kvs a :
    action_of kvs = JStr a -> lower a <> "" -> ~ In (lower a) known_actions ->
    malformed (OK (JObj kvs))
| bad_speed kvs a :
    action_of kvs = JStr a -> In (lower a) speed_actions ->
    rejects (py_float (dict_get kvs "speed" (JFloat float_1_0))) ->
    malformed (OK (JObj kvs))
| bad_left kvs a :
    action_of kvs = JStr a -> lower a = "set_speeds" ->
    rejects (py_float (dict_get kvs "left" (JFloat float_0_0))) ->
    malformed (OK (JObj kvs))
| bad_right kvs a :
    action_of kvs = JStr a -> lower a = "set_speeds" ->
    accepts (py_float (dict_get kvs "left" (JFloat float_0_0))) ->
    rejects (py_float (dict_get kvs "right" (JFloat float_0_0))) ->
    malformed (OK (JObj kvs))
| bad_led kvs a :
    action_of kvs = JStr a -> lower a = "set_led" ->
    rejects (py_int (dict_get kvs "led" JNull)) ->
    malformed (OK (JObj kvs))
| bad_value kvs a :
    action_of kvs = JStr a -> lower a = "set_led" ->
    accepts (py_int (dict_get kvs "led" JNull)) ->
    rejects (py_float (dict_get kvs "value" JNull)) ->
    malformed (OK (JObj kvs))
| bad_r kvs a :
    action_of kvs = JStr a -> lower a = "fill_underlighting" ->
    rejects (py_int (dict_get kvs "r" (JInt 0))) ->
    malformed (OK (JObj kvs))
| bad_g kvs a :
    action_of kvs = JStr a -> lower a = "fill_underlighting" ->
    accepts (py_int (dict_get kvs "r" (JInt 0))) ->
    rejects (py_int (dict_get kvs "g" (JInt 0))) ->
    malformed (OK (JObj kvs))
| bad_b kvs a :
    action_of kvs = JStr a -> lower a = "fill_underlighting" ->
    accepts (py_int (dict_get kvs "r" (JInt 0))) ->
    accepts (py_int (dict_get kvs "g" (JInt 0))) ->
    rejects (py_int (dict_get kvs "b" (JInt 0))) ->
    malformed (OK (JObj kvs)).

End Dispatcher.

(** ** The video relay *)

(** What can happen to a [VideoStreamer]: something the other threads
    do, or a call of [start] or [stop]. *)
Inductive video_action : Type :=
| Act (e : VideoStreamer.event)
| Start (target_ip : option pystr) (target_port : option Z)
| Stop (during_join : list VideoStreamer.event).

Definition do_video (a : video_action) : M VideoStreamer.t unit :=
  match a with
  | Act e => VideoStreamer.run_event e
  | Start ip port => VideoStreamer.start ip port
  | Stop during_join => VideoStreamer.stop during_join
  end.

Fixpoint run_video (acts : list video_action) (v : VideoStreamer.t) : VideoStreamer.t :=
  match acts with
  | [] => v
  | a :: acts' => run_video acts' (state_of (do_video a v))
  end.

(** The frames published by a list of events, and by a list of
    actions. *)
Definition published_by (es : list VideoStreamer.event) : list bytes :=
  flat_map (fun e => match e with
                     | VideoStreamer.Produce buf => [buf]
                     | VideoStreamer.Step _ _ => []
                     end) es.

Definition published (acts : list video_action) : list bytes :=
  flat_map (fun a => match a with
                     | Act e => published_by [e]
                     | Start _ _ => []
                     | Stop during_join => published_by during_join
                     end) acts.

(** A target address is set: it is a non-empty string. *)
Definition address_set (ip : option pystr) : Prop :=
  exists a, ip = Some a /\ a <> "".

(** A port is set: it is an integer other than zero. *)
Definition port_set (port : option Z) : Prop :=
  exists p, port = Some p /\ p <> 0.

(** A port is positive. *)
Definition port_positive (port : option Z) : Prop :=
  exists p, port = Some p /\ 0 < p.

(** What a reader may find in the buffer after [held] was the held
    frame and the frames [fs] were published: the held frame or one of
    [fs]. *)
Definition held_or_later (held : option bytes) (fs : list bytes) (x : option bytes) : Prop :=
  x = held \/ exists f, In f fs /\ x = Some f.

(** The warning of the sender loop for an oversized frame. *)
Definition oversize_warning : effect :=
  Logged WARNING
    "Frame size ({len(frame)}) exceeds max UDP size ({MAX_UDP_PACKET_SIZE}). Skipping.".

(** Every datagram handed to the socket is a whole frame read from the
    buffer, and fits in one datagram. *)
Definition datagrams_whole (v : VideoStreamer.t) : Prop :=
  forall d, In d (VideoStreamer.udp_sent v) ->
    len (fst d) <= MAX_UDP_PACKET_SIZE /\ In (Some (fst d)) (VideoStreamer.observed v).

(** ** Sessions and arbitration *)

(** The reply to a connection that finds the server busy, byte for
    byte. *)
Definition busy_reply : bytes :=
  "{" +:+ dq +:+ "error" +:+ dq +:+ ": " +:+ dq +:+ "Server busy" +:+ dq +:+ "}" +:+ nl.

Section Arbitration.
Import CommandServer.

(** The session slot holds a handler thread that is alive: the
    condition of line 174. *)
Definition slot_busy (s : t) : Prop :=
  exists th, _client_handler_thread s = Some th /\ is_alive th s = true.

(** A handler thread that has not yet cleared the session slot. *)
Definition pre_clear (p : hpc) : bool :=
  match p with
  | H_entry | H_reading | H_finally_stop | H_finally_close | H_finally_clear => true
  | H_exiting | H_dead => false
  end.

(** The sessions that hold the slot: the handler threads that have
    been created and have not yet cleared it, in their read loop or
    before or after it. *)
Definition open_sessions (s : t) : list Handler :=
  List.filter (fun h => pre_clear (h_pc h)) (handlers s).

(** Every handler thread that has not cleared the slot is the one the
    slot names. *)
Definition slot_owns_sessions (s : t) : Prop :=
  forall i h, handlers s !! i = Some h -> pre_clear (h_pc h) = true ->
              _client_handler_thread s = Some i.

(** A listen thread blocked in [accept()] is blocked on a socket that
    is listening, and the loop never runs on a socket that is neither
    listening nor closed. *)
Definition listener_ok (s : t) : Prop :=
  match _listen_thread s with
  | Some L_accepting =>
      listening (tcp_socket s) = true /\ sock_closed (tcp_socket s) = false
  | Some L_head | Some (L_accepted _) =>
      sock_closed (tcp_socket s) = false -> listening (tcp_socket s) = true
  | Some L_entry | Some L_dead | None => True
  end.

(** Connection [conn] has been closed by the server. *)
Definition is_closed (conn : nat) (s : t) : Prop :=
  exists k, sockets s !! conn = Some k /\ closed k = true.

(** The upper bound of the waits of [stop()], in milliseconds: the
    join of the video thread, the connect to itself, and the joins of
    the listen and handler threads. *)
Definition stop_grace_ms : Z := 5000 + 500 + 2000 + 2000.

(** The steps of a shutdown, in the order the specification gives
    them: clear [running], stop the video relay, issue the wake-up
    connection, close the listening endpoint. *)
Definition clear_running (s : t) : t := set_running false s.

Definition stop_video (during_join : list VideoStreamer.event) (s : t) : t :=
  set_video_streamer
    (state_of (VideoStreamer.stop during_join (video_streamer s))) s.

Definition issue_wake_up (s : t) : t :=
  state_of (try_except wake_up [([Exception], fun _ => ret tt)] s).

Definition close_listener (s : t) : t := set_tcp_socket (mkListen false true []) s.

(** A bounded wait: a join with a two-second timeout. *)
Definition is_join (e : effect) : Prop := exists what, e = Waited what 2000.

(** How many statements [stop()] has still to run. *)
Definition statements_left (pc : spc) : nat :=
  match pc with
  | S_entry => 6
  | S_stop_video => 5
  | S_wake_up => 4
  | S_close => 3
  | S_join_listener => 2
  | S_join_handler => 1
  | S_returned => 0
  end.

(** [stop()] has issued the wake-up connection; it has closed the
    listening endpoint. *)
Definition woke (pc : spc) : Prop := (statements_left pc <= 3)%nat.
Definition closed_endpoint (pc : spc) : Prop := (statements_left pc <= 2)%nat.

(** The statements of [stop()] in a schedule. *)
Definition statements (es : list stop_event) : nat :=
  length (List.filter (fun e => match e with Statement => true | Meanwhile _ => false end) es).

(** The whole of [stop()], with nothing in between. *)
Definition uninterrupted : list stop_event := repeat Statement 6.

End Arbitration.

Section Schedules.
Context `{PyRuntime}.
Import CommandServer.

(** What the threads of the server and its peers do while [stop()]
    runs: anything but a call of [start()] or [stop()], which only the
    owner of the server makes. *)
Definition of_threads (e : stop_event) : Prop :=
  match e with
  | Meanwhile Call_start | Meanwhile (Call_stop _) => False
  | Meanwhile _ | Statement => True
  end.

(** The waits [stop()] may still make from a statement on, in
    milliseconds. *)
Definition budget_left (pc : spc) : Z :=
  match pc with
  | S_entry | S_stop_video => 9500
  | S_wake_up => 4500
  | S_close | S_join_listener => 4000
  | S_join_handler => 2000
  | S_returned => 0
  end.

(** What holds of the server while [stop()], called in [s0], is at
    [pc], past its first statement: [running] is cleared, no handler
    thread has been created, the endpoint is as it was until it is
    closed, and no listen thread is blocked in [accept()] once the
    wake-up connection was made. *)
Definition stopping (s0 : t) (pc : spc) (s : t) : Prop :=
  listener_ok s
  /\ running s = false
  /\ length (handlers s) = length (handlers s0)
  /\ (~ closed_endpoint pc -> sock_closed (tcp_socket s) = sock_closed (tcp_socket s0))
  /\ (woke pc -> _listen_thread s <> Some L_accepting)
  /\ (closed_endpoint pc -> sock_closed (tcp_socket s) = true).

End Schedules.

(** ** Frame conditions and invariants *)

(** [keeps proj m]: the method [m] leaves the part [proj] of the object
    as it found it, whether it returns or raises. *)
Definition keeps {S A X} (proj : S -> X) (m : M S A) : Prop :=
  forall s, proj (state_of (m s)) = proj s.

(** A method that cannot raise. *)
Definition returns {S A} (m : M S A) : Prop :=
  forall s, exists a, result_of (m s) = OK a.

Section Parts.
Import CommandServer.

(** The server's threads: the handler threads and the session
    slot. *)
Definition threads_part (s : t) : list Handler * option nat :=
  (handlers s, _client_handler_thread s).

(** Everything but the actuator and the connections. *)
Definition control_part (s : t) :=
  (video_streamer s, host s, tcp_port s, udp_port s, tcp_socket s, running s,
   _listen_thread s, _client_handler_thread s, handlers s).

(** What a session leaves alone: the number of connections, the
    handler threads, and the listening side. *)
Definition frame_part (s : t) :=
  (length (sockets s), handlers s, running s, tcp_socket s, _listen_thread s).

(** The listening side of the server. *)
Definition listen_part (s : t) := (tcp_socket s, _listen_thread s).

End Parts.

(** What the sender loop maintains: every datagram sent is a whole
    frame, and a frame a loop is about to send was read from the
    buffer. *)
Definition sender_invariant (v : VideoStreamer.t) : Prop :=
  datagrams_whole v
  /\ forall i f, VideoStreamer.threads v !! i = Some (VideoStreamer.W_frame (Some f)) ->
                 In (Some f) (VideoStreamer.observed v).


(** ** The controller's frame *)

(** The event [e] is the arrival of the datagram [data] from the
    address [ip]. *)
Definition from_robot (ip : pystr) (data : bytes) (e : RobotClient.event) : Prop :=
  exists port, e = RobotClient.Recv (OK (data, (ip, port))).

(** The decoder gives no image for [data]: it returns [None] or it
    raises. *)
Definition decode_fails {Image} (imdecode : bytes -> pyresult (option Image))
    (data : bytes) : Prop :=
  imdecode data = OK None \/ exists e, imdecode data = Raise e.

(** What [_video_frame] can hold after the events [es]: nothing, or a
    datagram that came from the robot's address. *)
Definition stored_from_robot (ip : pystr) (es : list RobotClient.event)
    (c : RobotClient.t) : Prop :=
  forall data, RobotClient._video_frame c = Some data -> Exists (from_robot ip data) es.

(** What no method of the controller but the UDP listener writes. *)
Definition video_part (c : RobotClient.t) :=
  (RobotClient.robot_ip c, RobotClient._video_frame c).

(** ** Concrete inputs

    A server on the mock actuator, two controllers, and the lines and
    frames the statements below are run on. *)

Section Inputs.
Import CommandServer.

Definition client_a : address := ("192.168.1.50", 50000).
Definition client_b : address := ("192.168.1.51", 50001).

Definition fresh_server : t :=
  init MockTrilobot VideoStreamer.init "0.0.0.0" 9000 9001.

(** [start()], the listen thread reaching [accept()], and nothing
    else. *)
Definition server_listens : list event := [Call_start; Listen; Listen].

(** A first controller connects and its handler thread enters the read
    loop; then a second one connects and [accept()] returns it. *)
Definition second_client_arrives : list event :=
  server_listens
  ++ [Connect client_a true; Listen; Handle 0 (Line "") []; Listen; Connect client_b true].

Definition in_session : t := run second_client_arrives fresh_server.

(** The first controller has been accepted and its handler thread is
    about to run. *)
Definition client_accepted : t :=
  run (server_listens ++ [Connect client_a true; Listen]) fresh_server.

(** The listen thread is blocked in [accept()]. *)
Definition listening_server : t := run server_listens fresh_server.

(** What follows the first statement of [stop()] when the listen
    thread runs between the wake-up connection and the close, and a
    controller tries to connect after the close. *)
Definition listener_runs_before_close : list stop_event :=
  [ Statement; Statement; Meanwhile Listen; Statement;
    Meanwhile (Connect client_a true); Meanwhile Listen; Statement; Statement ].

Definition ping_line : pystr := quoted "{'action': 'ping'}".
Definition exit_line : pystr := quoted "{'action': 'exit'}".
Definition forward_line : pystr := quoted "{'action': 'forward'}".
Definition forward_half_line : pystr := quoted "{'action': 'forward', 'speed': 0.5}".
Definition garbage_line : pystr := "forward!".
Definition number_action_line : pystr := quoted "{'action': 5}".
Definition array_line : pystr := "[]".
Definition huge_red_line : pystr := quoted "{'action': 'fill_underlighting', 'r': 1e999}".
Definition nan_red_line : pystr := quoted "{'action': 'fill_underlighting', 'r': NaN}".
Definition null_speed_line : pystr := quoted "{'action': 'forward', 'speed': null}".
Definition null_action_line : pystr := quoted "{'action': null}".

(** [0.5] as a binary64 number. *)
Definition float_0_5 : float := S754_finite false 4503599627370496 (-53).

(** The replies as the specification writes them, with no space after
    the colon. *)
Definition pong_reply_as_specified : bytes := quoted "{'status':'pong'}" +:+ nl.
Definition busy_reply_as_specified : bytes := quoted "{'error':'Server busy'}" +:+ nl.

End Inputs.

(** A frame of [n] bytes, and one a byte longer than a datagram can
    carry. *)
Fixpoint filler (n : nat) : bytes :=
  match n with
  | O => ""
  | S n' => String "x" (filler n')
  end.

Definition oversized_frame : bytes := filler (Z.to_nat MAX_UDP_PACKET_SIZE + 1).

(** The relay is started and its sender loop waits for a frame; the
    camera publishes [f]; the loop wakes and reads the buffer. *)
Definition relay_reads (f : bytes) : list video_action :=
  [ Start (Some "192.168.1.50") (Some 9001);
    Act (VideoStreamer.Step 0 None); Act (VideoStreamer.Step 0 None);
    Act (VideoStreamer.Produce f); Act (VideoStreamer.Step 0 None) ].

(** The controller connects and a datagram [data] arrives from the
    robot. *)
Definition controller_receives (data : bytes) : list RobotClient.event :=
  [ RobotClient.Call_connect None None;
    RobotClient.Recv (OK (data, ("192.168.1.50", 40000))) ].

(** A decoder that knows one picture. *)
Definition one_picture (data : bytes) : pyresult (option nat) :=
  if data == "JPEG" then OK (Some 1%nat)
  else if data == "" then Raise Cv2Error
  else OK None.

(** * More of the code: definitions

    The rest of the three modules, and the predicates the further
    properties are stated with. *)

(** [moves R m]: whatever the method [m] does, returning or raising,
    the object it leaves is related by [R] to the one it found. *)
Definition moves {S A} (R : S -> S -> Prop) (m : M S A) : Prop :=
  forall s, R s (state_of (m s)).

(** [calls_at_most n m]: the method [m] makes at most [n] calls on the
    actuator, and leaves the calls made before in place. *)
Definition calls_at_most {A} (n : nat) (m : M CommandServer.t A) : Prop :=
  forall s, exists cs,
    Trilobot.calls (CommandServer.tbot (state_of (m s)))
    = Trilobot.calls (CommandServer.tbot s) ++ cs
    /\ (length cs <= n)%nat.

Section DispatcherFrame.
Import CommandServer.

(** The server after the call [c] on the actuator. *)
Definition called (c : Trilobot.call) (s : t) : t :=
  set_tbot (Trilobot.mk (Trilobot.calls (tbot s) ++ [c]) (Trilobot.respond (tbot s))) s.

(** What the dispatcher may change while it serves connection [conn]:
    it may append to the bytes sent on [conn], and nothing else
    happens to any connection. *)
Definition only_writes_to (conn : nat) (s s' : t) : Prop :=
  length (sockets s') = length (sockets s)
  /\ forall c k, sockets s !! c = Some k ->
       exists data,
         sockets s' !! c = Some (mkConn (peer k) (sent k +:+ data) (closed k) (link_up k))
         /\ (c <> conn -> data = "").

(** The two records with which the dispatcher ends a session. *)
Definition ends_session (e : effect) : Prop :=
  e = Logged INFO "Client requested exit."
  \/ e = Logged CRITICAL "Unexpected error handling command {command_data}: {e}".

(** The last record of a trace says why the session ends. *)
Definition says_why (tr : list effect) : Prop :=
  exists t0 e, tr = t0 ++ [e] /\ ends_session e.

(** [verdict ok m]: when [m] returns, its value satisfies [ok] or its
    trace says why the session ends. *)
Definition verdict {A} (ok : A -> Prop) (m : M t A) : Prop :=
  forall s, match m s with
            | (OK a, _, tr) => ok a \/ says_why tr
            | (Raise _, _, _) => True
            end.

(** The value a message declares for an [int] field: the field's
    value when it is an integer, the default when it is omitted. *)
Definition declared_int (kvs : list (pystr * json)) (key : pystr) (default : Z)
  : option Z :=
  match dict_lookup kvs key with
  | None => Some default
  | Some (JInt n) => Some n
  | Some _ => None
  end.

(** The commands besides the movement ones that end in a call on the
    actuator: [stop] and [coast] take nothing, [set_led] needs both
    its fields, [fill_underlighting] takes three colours with default
    [0]. *)
Definition spec_other (action : pystr) (kvs : list (pystr * json))
  : option Trilobot.call :=
  if action == "stop" then Some Trilobot.stop
  else if action == "coast" then Some Trilobot.coast
  else if action == "set_led" then
    match dict_lookup kvs "led", dict_lookup kvs "value" with
    | Some (JInt led), Some (JFloat value) => Some (Trilobot.set_button_led led value)
    | _, _ => None
    end
  else if action == "fill_underlighting" then
    match declared_int kvs "r" 0, declared_int kvs "g" 0, declared_int kvs "b" 0 with
    | Some r, Some g, Some b => Some (Trilobot.fill_underlighting r g b)
    | _, _, _ => None
    end
  else None.

(** The call a well-typed command asks of the actuator. *)
Definition spec_call (action : pystr) (kvs : list (pystr * json))
  : option Trilobot.call :=
  match spec_movement action kvs with
  | Some c => Some c
  | None => spec_other action kvs
  end.

End DispatcherFrame.

Section MoreArbitration.
Import CommandServer.

(** The listen thread is not in its accept loop: it has not been
    started, has not reached [bind] yet, or has returned. *)
Definition listener_idle (s : t) : Prop :=
  match _listen_thread s with
  | Some L_entry | Some L_dead | None => True
  | Some L_head | Some L_accepting | Some (L_accepted _) => False
  end.

(** The listening socket is closed and no listen thread is in its
    loop. *)
Definition shut (s : t) : Prop :=
  sock_closed (tcp_socket s) = true /\ listener_idle s.

(** How many connections the server has accepted and how many handler
    threads it has created. *)
Definition census (s : t) : nat * nat := (length (sockets s), length (handlers s)).

(** The server after [accept()] has returned [conn] from the peer
    [a] and the connection was promoted to a session. *)
Definition promoted (conn : nat) (a : address) (s : t) : t :=
  set_handlers (handlers s ++ [mkHandler conn a H_entry])
    (set__client_handler_thread (Some (length (handlers s))) s).

End MoreArbitration.

(** ** [trilobot_client.py]: sending commands and reading replies *)

Module Controller.
Import RobotClient.

(** [buffer.split('\n', 1)] for a [buffer] that holds a line feed:
    the text before the first one and the text after it; [None] when
    ['\n' in buffer] is false. *)
Fixpoint split_nl (buffer : pystr) : option (pystr * pystr) :=
  match buffer with
  | EmptyString => None
  | String c rest =>
      if Ascii.eqb c "010" then Some ("", rest)
      else match split_nl rest with
           | Some (line, rest') => Some (String c line, rest')
           | None => None
           end
  end.

(** The record logged for a line the robot sent. *)
Definition robot_says (line : pystr) : effect :=
  Logged INFO ("Robot says: " +:+ line).

(** [while '\n' in buffer: ...]: the loop logs the lines that are not
    empty and returns what is left of the buffer.  Each turn shortens
    the buffer, so [fuel] beyond its length is never used up. *)
Fixpoint drain {S} (fuel : nat) (buffer : pystr) : M S pystr :=
  match fuel with
  | O => ret buffer
  | Datatypes.S fuel' =>
      match split_nl buffer with
      | Some (line, rest) =>
          (if line == "" then ret tt else emit (robot_says line)) ;;
          drain fuel' rest
      | None => ret buffer
      end
  end.

Section WithRuntime.
Context `{PyRuntime}.

(** [send_command(action, **kwargs)]; [send] is what [sendall] does,
    [farewell] what the [sendall] of the [exit] line does if the
    method goes on to [disconnect()]. *)
Definition send_command (action : pystr) (kwargs : list (pystr * json))
    (send farewell : option exn) : M t unit :=
  connected <- gets is_connected ;;
  sock <- gets tcp_socket ;;
  match connected, sock with
  | true, Some written =>
      try_except
        (json_str <- lift (json_dumps (JObj (("action", JStr action) :: kwargs))) ;;
         (if send is Some e then raise e else ret tt) ;;
         modify (set_tcp_socket (Some (written +:+ json_str +:+ nl))) ;;
         logging DEBUG "Sent: {json_str.strip()}")
        [ ([BrokenPipeError], fun _ =>
             logging ERROR "Connection broken. Attempting to disconnect." ;;
             disconnect farewell);
          ([Exception], fun _ =>
             logging ERROR "Failed to send command: {e}" ;;
             disconnect farewell) ]
  | _, _ => logging ERROR "Not connected. Cannot send command."
  end.

(** [data.decode('utf-8', errors='ignore')] belongs to the runtime. *)
Context (decode : bytes -> pystr).

(** One iteration of the loop of [_tcp_listen_worker], with the
    [except] clauses around it; [r] is what [tcp_socket.recv] does and
    [buffer] the thread's buffer.  [Some buffer'] when the loop goes
    on, [None] when it ends. *)
Definition _tcp_listen_worker (r : pyresult bytes) (farewell : option exn)
    (buffer : pystr) : M t (option pystr) :=
  run <- gets _running ;;
  if negb run then ret None
  else
    try_except
      (data <- lift r ;;
       if data == "" then
         logging WARNING "TCP connection closed by server." ;;
         disconnect farewell ;;
         ret None
       else
         let buffer' := buffer +:+ decode data in
         rest <- drain (Datatypes.S (String.length buffer')) buffer' ;;
         ret (Some rest))
      [ ([ConnectionAbortedError], fun _ =>
           logging WARNING "TCP connection aborted." ;;
           ret None);
        ([Exception], fun _ =>
           run' <- gets _running ;;
           (if run' then logging ERROR "TCP receive error: {e}" else ret tt) ;;
           ret None) ].

(** The [finally] block of [_tcp_listen_worker]. *)
Definition _tcp_listen_worker_exit (farewell : option exn) : M t unit :=
  logging INFO "TCP listener thread stopped." ;;
  run <- gets _running ;;
  if run then disconnect farewell else ret tt.

(** What can happen next in the controller process, the methods of
    this module included. *)
Inductive event : Type :=
| Base (e : RobotClient.event)
| Call_send (action : pystr) (kwargs : list (pystr * json)) (send farewell : option exn)
| Tcp (r : pyresult bytes) (farewell : option exn) (buffer : pystr)
| Tcp_exit (farewell : option exn).

Definition step (e : event) : M t unit :=
  match e with
  | Base e => RobotClient.step e
  | Call_send action kwargs send farewell => send_command action kwargs send farewell
  | Tcp r farewell buffer => _tcp_listen_worker r farewell buffer ;; ret tt
  | Tcp_exit farewell => _tcp_listen_worker_exit farewell
  end.

Fixpoint run (es : list event) (c : t) : t :=
  match es with
  | [] => c
  | e :: es' => run es' (state_of (step e c))
  end.

End WithRuntime.

(** The flags and the sockets of a controller agree: it is connected
    and running with both sockets open, or neither. *)
Definition agree (c : t) : Prop :=
  (is_connected c = true /\ _running c = true
   /\ tcp_socket c <> None /\ udp_socket c <> None)
  \/ (is_connected c = false /\ _running c = false
      /\ tcp_socket c = None /\ udp_socket c = None).

(** No line feed in a text. *)
Definition one_line (s : pystr) : Prop := split_nl s = None.

(** The text of complete lines: each followed by a line feed. *)
Definition join_lines (lines : list pystr) : pystr :=
  fold_right (fun l acc => l +:+ nl +:+ acc) "" lines.

(** The records the reply loop logs for [lines]: one for each line
    that is not empty. *)
Definition says (lines : list pystr) : list effect :=
  map robot_says (List.filter (fun l => negb (l == "")) lines).

End Controller.

(** ** More concrete inputs *)

(** An actuator whose every method raises [e]. *)
Definition FaultyTrilobot (e : exn) : Trilobot.t :=
  Trilobot.mk [] (fun _ _ => Raise e).

Section MoreInputs.
Import CommandServer.

(** [in_session] on an actuator that raises [e]. *)
Definition in_faulty_session (e : exn) : t :=
  run second_client_arrives
    (init (FaultyTrilobot e) VideoStreamer.init "0.0.0.0" 9000 9001).

(** A controller has connected to a listening server and [accept()]
    is about to return its connection. *)
Definition first_client_arrives : t :=
  run (server_listens ++ [Connect client_a true]) fresh_server.

(** What is tried on a stopped server: [start()], a step of the new
    listen thread, a controller connecting, another step. *)
Definition restart_attempt : list event :=
  [Call_start; Listen; Connect client_a true; Listen].

(** [in_session] after the first session has ended and its handler
    thread has closed the connection. *)
Definition session_over : t :=
  run [Handle 0 EOF []; Handle 0 EOF []; Handle 0 EOF []] in_session.

Definition read_distance_line : pystr := quoted "{'action': 'read_distance'}".
Definition distance_reply : bytes :=
  quoted "{'status': 'distance', 'value': 99.9}" +:+ nl.
(** A line of a space, a tab, a carriage return and a line feed. *)
Definition blank_line : pystr := String " " (String "009" (String "013" nl)).

Definition stop_line : pystr := quoted "{'action': 'stop'}".
Definition lights_line : pystr :=
  quoted "{'action': 'fill_underlighting', 'r': 0, 'g': 0, 'b': 200}".
Definition led_line : pystr := quoted "{'action': 'set_led', 'led': 2, 'value': 0.5}".

End MoreInputs.

(** A frame of exactly the largest size a datagram can carry. *)
Definition full_frame : bytes := filler (Z.to_nat MAX_UDP_PACKET_SIZE).

(** The relay is started and its sender loop waits for a frame. *)
Definition relay_waits : list video_action :=
  [ Start (Some "192.168.1.50") (Some 9001);
    Act (VideoStreamer.Step 0 None); Act (VideoStreamer.Step 0 None) ].

(** A controller that has connected to the robot. *)
Definition connected_controller : RobotClient.t :=
  RobotClient.run [RobotClient.Call_connect None None]
    (RobotClient.init "192.168.1.50" 9000 9001).

(** The decoder on text that is ASCII: the bytes as they are. *)
Definition ascii_text (data : bytes) : pystr := data.

(** Two replies of the robot, cut after the first byte of the second. *)
Definition reply_chunk_1 : bytes := pong_reply +:+ "{".
Definition reply_chunk_2 : bytes :=
  dq +:+ "status" +:+ dq +:+ ": " +:+ dq +:+ "ok" +:+ dq +:+ "}" +:+ nl.


(** * Properties *)


(** ** Reasoning about methods *)

Lemma bind_OK {S A B} (m : M S A) (k : A -> M S B) s a s1 t1 :
  m s = (OK a, s1, t1) ->
  bind m k s = (result_of (k a s1), state_of (k a s1), t1 ++ trace_of (k a s1)).
Proof.
  intros E. unfold bind, result_of, state_of, trace_of. rewrite E.
  destruct (k a s1) as [[r s2] t2]. reflexivity.
Qed.

Lemma bind_Raise {S A B} (m : M S A) (k : A -> M S B) s e s1 t1 :
  m s = (Raise e, s1, t1) -> bind m k s = (Raise e, s1, t1).
Proof. intros E. unfold bind. rewrite E. reflexivity. Qed.

Lemma bind_gets {S A B} (f : S -> A) (k : A -> M S B) s :
  bind (gets f) k s = k (f s) s.
Proof. unfold bind, gets. destruct (k (f s) s) as [[r s2] t2]. reflexivity. Qed.

Lemma run_eta {S A} (x : pyresult A * S * list effect) :
  x = (result_of x, state_of x, trace_of x).
Proof. destruct x as [[r s] t]. reflexivity. Qed.

Section Keeps.
Context {S X : Type} (proj : S -> X).

Lemma keeps_ret {A} (a : A) : keeps proj (ret a).
Proof. intros s. reflexivity. Qed.

Lemma keeps_raise {A} e : keeps proj (raise (A := A) e).
Proof. intros s. reflexivity. Qed.

Lemma keeps_lift {A} (r : pyresult A) : keeps proj (lift r).
Proof. intros s. reflexivity. Qed.

Lemma keeps_gets {A} (f : S -> A) : keeps proj (gets f).
Proof. intros s. reflexivity. Qed.

Lemma keeps_emit e : keeps proj (emit e).
Proof. intros s. reflexivity. Qed.

Lemma keeps_logging lvl msg : keeps proj (logging lvl msg).
Proof. intros s. unfold logging. destruct (_ <=? _); reflexivity. Qed.

Lemma keeps_modify (f : S -> S) :
  (forall s, proj (f s) = proj s) -> keeps proj (modify f).
Proof. intros Hf s. apply Hf. Qed.

Lemma keeps_bind {A B} (m : M S A) (k : A -> M S B) :
  keeps proj m -> (forall a, keeps proj (k a)) -> keeps proj (bind m k).
Proof.
  intros Hm Hk s. unfold bind. specialize (Hm s).
  destruct (m s) as [[[a|e] s1] t1]; cbn in *.
  - specialize (Hk a s1). destruct (k a s1) as [[r s2] t2]; cbn in *. congruence.
  - exact Hm.
Qed.

Lemma keeps_find_handler {A} e (hs : list (list exn * (exn -> M S A))) h :
  Forall (fun ch => forall e, keeps proj (snd ch e)) hs ->
  find_handler e hs = Some h -> keeps proj h.
Proof.
  induction 1 as [|[cs h0] hs Hh _ IH]; cbn; [discriminate|].
  destruct (existsb _ cs); [|exact IH].
  intros [= <-]. apply Hh.
Qed.

Lemma keeps_try_except {A} (body : M S A) hs :
  keeps proj body ->
  Forall (fun ch => forall e, keeps proj (snd ch e)) hs ->
  keeps proj (try_except body hs).
Proof.
  intros Hb Hh s. unfold try_except. specialize (Hb s).
  destruct (body s) as [[[a|e] s1] t1]; cbn in *; [exact Hb|].
  destruct (find_handler e hs) as [h|] eqn:E; [|exact Hb].
  pose proof (keeps_find_handler _ _ _ Hh E s1) as Hk.
  destruct (h s1) as [[r s2] t2]; cbn in *. congruence.
Qed.

Lemma keeps_try_finally {A} (body : M S A) fin :
  keeps proj body -> keeps proj fin -> keeps proj (try_finally body fin).
Proof.
  intros Hb Hf s. unfold try_finally. specialize (Hb s).
  destruct (body s) as [[r s1] t1]; cbn in *.
  specialize (Hf s1). destruct (fin s1) as [[[u|e] s2] t2]; cbn in *; congruence.
Qed.

Lemma keeps_zoom {T A} (get : S -> T) (set : T -> S -> S) (m : M T A) :
  (forall t s, proj (set t s) = proj s) -> keeps proj (zoom get set m).
Proof.
  intros Hset s. unfold zoom. destruct (m (get s)) as [[r t] tr]; cbn. apply Hset.
Qed.

End Keeps.

Section Returns.
Context {S : Type}.

Lemma returns_ret {A} (a : A) : returns (S := S) (ret a).
Proof. intros s. eexists. reflexivity. Qed.

Lemma returns_gets {A} (f : S -> A) : returns (gets f).
Proof. intros s. eexists. reflexivity. Qed.

Lemma returns_modify (f : S -> S) : returns (modify f).
Proof. intros s. eexists. reflexivity. Qed.

Lemma returns_emit e : returns (S := S) (emit e).
Proof. intros s. eexists. reflexivity. Qed.

Lemma returns_logging lvl msg : returns (S := S) (logging lvl msg).
Proof. intros s. unfold logging. destruct (_ <=? _); eexists; reflexivity. Qed.

Lemma returns_bind {A B} (m : M S A) (k : A -> M S B) :
  returns m -> (forall a, returns (k a)) -> returns (bind m k).
Proof.
  intros Hm Hk s. unfold bind. destruct (Hm s) as [a Ha].
  destruct (m s) as [[r s1] t1]; cbn in Ha; subst r.
  destruct (Hk a s1) as [b Hb].
  destruct (k a s1) as [[r s2] t2]; cbn in *. eauto.
Qed.

Lemma returns_zoom {T A} (get : S -> T) (set : T -> S -> S) (m : M T A) :
  returns m -> returns (zoom get set m).
Proof.
  intros Hm s. unfold zoom. destruct (Hm (get s)) as [a Ha].
  destruct (m (get s)) as [[r t] tr]; cbn in *. eauto.
Qed.

(** A [try] whose last clause catches [Exception], and whose clauses
    return, returns. *)
Lemma find_handler_Exception {A} e (hs : list (list exn * (exn -> M S A))) :
  Exists (fun ch => fst ch = [Exception]) hs -> exists h, find_handler e hs = Some h.
Proof.
  induction 1 as [[cs h0] hs Hx|[cs h0] hs _ IH]; cbn in *.
  - subst cs. cbn. eauto.
  - destruct (existsb _ cs); eauto.
Qed.

Lemma find_handler_In {A} e (hs : list (list exn * (exn -> M S A))) h :
  find_handler e hs = Some h -> exists cs h0, In (cs, h0) hs /\ h = h0 e.
Proof.
  induction hs as [|[cs h0] hs IH]; cbn; [discriminate|].
  destruct (existsb _ cs).
  - intros [= <-]. eauto.
  - intros E. destruct (IH E) as (cs' & h' & Hin & ->). eauto.
Qed.

Lemma returns_try_except {A} (body : M S A) hs :
  Exists (fun ch => fst ch = [Exception]) hs ->
  Forall (fun ch => forall e, returns (snd ch e)) hs ->
  returns (try_except body hs).
Proof.
  intros Hx Hh s. unfold try_except.
  destruct (body s) as [[[a|e] s1] t1]; cbn; [eauto|].
  destruct (find_handler_Exception e hs Hx) as [h Eh]. rewrite Eh.
  destruct (find_handler_In _ _ _ Eh) as (cs & h0 & Hin & ->).
  rewrite List.Forall_forall in Hh. destruct (Hh _ Hin e s1) as [a Ha].
  cbn in Ha. destruct (h0 e s1) as [[r s2] t2]; cbn in *. eauto.
Qed.

Lemma returns_try_finally {A} (body : M S A) fin :
  returns body -> returns fin -> returns (try_finally body fin).
Proof.
  intros Hb Hf s. unfold try_finally. destruct (Hb s) as [a Ha].
  destruct (body s) as [[r s1] t1]; cbn in *; subst r.
  destruct (Hf s1) as [u Hu]. destruct (fin s1) as [[[u'|e] s2] t2]; cbn in *; eauto.
  discriminate.
Qed.

End Returns.


(** ** The command dispatcher *)

Section DispatcherFacts.
Context `{PyRuntime}.
Import CommandServer.

Lemma dict_get_lookup kvs key d :
  dict_get kvs key d = default d (dict_lookup kvs key).
Proof.
  induction kvs as [|[k v] kvs IH]; cbn; [reflexivity|].
  destruct (String.eqb k key); [reflexivity|exact IH].
Qed.

Lemma declared_get kvs key d f :
  declared kvs key d = Some f -> dict_get kvs key (JFloat d) = JFloat f.
Proof.
  unfold declared. rewrite dict_get_lookup.
  destruct (dict_lookup kvs key) as [[]|]; cbn; congruence.
Qed.

Lemma sendall_writable conn data s :
  writable conn s -> sendall conn data s = (OK tt, wrote conn data s, []).
Proof.
  intros (k & Hk & Hc & Hl).
  unfold sendall, wrote, bind, gets. rewrite Hk. cbn. rewrite Hc, Hl. reflexivity.
Qed.

(** Values of the wrong type are rejected whatever the runtime. *)
Lemma wrong_type_float v :
  match v with JNull | JArr _ | JObj _ => True | _ => False end ->
  rejects (py_float v).
Proof. destruct v; try contradiction; intros _; exists TypeError; split; reflexivity. Qed.

Lemma wrong_type_int v :
  match v with JNull | JArr _ | JObj _ => True | _ => False end ->
  rejects (py_int v).
Proof. destruct v; try contradiction; intros _; exists TypeError; split; reflexivity. Qed.

(** Running the dispatcher up to the [if]/[elif] chain. *)
Ltac enter_chain Hl Ha :=
  unfold _parse_command, try_except, bind at 1; unfold lift at 1; rewrite Hl;
  cbn; unfold action_of in Ha; rewrite Ha; cbn.

(** Run the primitive methods that evaluation has reached. *)
Ltac mrun :=
  cbn;
  repeat (progress (cbv beta delta [bind ret raise gets modify lift emit zoom call_tbot
                                    Trilobot.invoke]; cbn)).

(** Settle [name == "..."] tests on a name known not to be listed. *)
Ltac refute_names Hnot :=
  repeat match goal with
    | |- context [String.eqb ?x ?y] =>
        let E := fresh "E" in
        destruct (String.eqb_spec x y) as [E|_];
        [exfalso; apply Hnot; rewrite E; cbn; repeat first [left; reflexivity|right]|]
    end.

Lemma _parse_command_returns line conn : returns (_parse_command line conn).
Proof.
  unfold _parse_command. apply returns_try_except.
  - do 2 apply Exists_cons_tl. apply Exists_cons_hd. reflexivity.
  - repeat (constructor;
              [intros e; cbn [snd]; apply returns_bind;
               [apply returns_logging|intros; apply returns_ret]|]).
    constructor.
Qed.

(** C4 (as amended): a [ping] on a writable connection is answered
    with exactly [pong_reply], the bytes of [{"status": "pong"}]
    followed by a line feed, nothing else changes, and the session
    goes on. *)
Theorem ping_replies_pong line conn s cmd :
  json_loads line = OK cmd ->
  has_action cmd "ping" ->
  writable conn s ->
  _parse_command line conn s = (OK true, wrote conn pong_reply s, []).
Proof.
  intros Hl (kvs & a & -> & Ha & Hlow) Hw.
  enter_chain Hl Ha. rewrite Hlow. cbn.
  unfold bind. rewrite (sendall_writable _ _ _ Hw). reflexivity.
Qed.

(** The first half of C5: [exit] makes the dispatcher return [False],
    and changes nothing. *)
Lemma exit_terminates line conn s cmd :
  json_loads line = OK cmd ->
  has_action cmd "exit" ->
  _parse_command line conn s = (OK false, s, [Logged INFO "Client requested exit."]).
Proof.
  intros Hl (kvs & a & -> & Ha & Hlow).
  enter_chain Hl Ha. rewrite Hlow. reflexivity.
Qed.

(** On a line that is not JSON, a message whose action is empty,
    missing or unknown, and a known action whose parameter makes
    [float()] or [int()] raise [ValueError] or [TypeError], the
    dispatcher returns [True], logs one record, and leaves the server
    as it was: no reply is written and nothing is asked of the
    actuator. *)
Theorem malformed_line_continues line conn s :
  malformed (json_loads line) ->
  exists lvl msg, _parse_command line conn s = (OK true, s, [Logged lvl msg]).
Proof.
  intros Hm. inversion Hm as
    [ Hl
    | kvs a Ha Hlow Hl
    | kvs a Ha Hne Hnot Hl
    | kvs a Ha Hin (e & He & Hant) Hl
    | kvs a Ha Hlow (e & He & Hant) Hl
    | kvs a Ha Hlow (l & Hok) (e & He & Hant) Hl
    | kvs a Ha Hlow (e & He & Hant) Hl
    | kvs a Ha Hlow (l & Hok) (e & He & Hant) Hl
    | kvs a Ha Hlow (e & He & Hant) Hl
    | kvs a Ha Hlow (r & Hr) (e & He & Hant) Hl
    | kvs a Ha Hlow (r & Hr) (g & Hg) (e & He & Hant) Hl ];
    symmetry in Hl.
  - unfold _parse_command, try_except, bind at 1. unfold lift at 1. rewrite Hl.
    cbn. (do 2 eexists; reflexivity).
  - enter_chain Hl Ha. rewrite Hlow. mrun. (do 2 eexists; reflexivity).
  - enter_chain Hl Ha.
    destruct (String.eqb_spec (lower a) "") as [E|_]; [contradiction|].
    refute_names Hnot. mrun. (do 2 eexists; reflexivity).
  - enter_chain Hl Ha.
    cbn in Hin. destruct Hin as [E|[E|[E|[E|[]]]]]; rewrite <- E; mrun;
      rewrite He; destruct e; try discriminate; mrun; (do 2 eexists; reflexivity).
  - enter_chain Hl Ha. rewrite Hlow. mrun.
    rewrite He; destruct e; try discriminate; mrun; (do 2 eexists; reflexivity).
  - enter_chain Hl Ha. rewrite Hlow. mrun.
    rewrite Hok; mrun. rewrite He; destruct e; try discriminate; mrun; (do 2 eexists; reflexivity).
  - enter_chain Hl Ha. rewrite Hlow. mrun.
    rewrite He; destruct e; try discriminate; mrun; (do 2 eexists; reflexivity).
  - enter_chain Hl Ha. rewrite Hlow. mrun.
    rewrite Hok; mrun. rewrite He; destruct e; try discriminate; mrun; (do 2 eexists; reflexivity).
  - enter_chain Hl Ha. rewrite Hlow. mrun.
    rewrite He; destruct e; try discriminate; mrun; (do 2 eexists; reflexivity).
  - enter_chain Hl Ha. rewrite Hlow. mrun.
    rewrite Hr; mrun. rewrite He; destruct e; try discriminate; mrun; (do 2 eexists; reflexivity).
  - enter_chain Hl Ha. rewrite Hlow. mrun.
    rewrite Hr; mrun. rewrite Hg; mrun. rewrite He;
      destruct e; try discriminate; mrun; (do 2 eexists; reflexivity).
Qed.

(** After a call on [tbot] the dispatcher's [except] clauses leave
    the record of calls alone. *)
Ltac after_call :=
  match goal with
  | |- context [Trilobot.respond ?tb ?h ?c] =>
      destruct (Trilobot.respond tb h c) as [?|[]]; mrun; reflexivity
  end.


(** An [int] where a [float] is declared goes through [float()]. *)
Lemma forward_int_speed line conn s kvs a n f :
  json_loads line = OK (JObj kvs) ->
  action_of kvs = JStr a ->
  lower a = "forward" ->
  dict_get kvs "speed" (JFloat float_1_0) = JInt n ->
  float_of_int n = OK f ->
  Trilobot.calls (tbot (state_of (_parse_command line conn s)))
  = Trilobot.calls (tbot s) ++ [Trilobot.forward f].
Proof.
  intros Hl Ha E D Hf.
  enter_chain Hl Ha. rewrite E. mrun. rewrite D. mrun. rewrite Hf. mrun. after_call.
Qed.

End DispatcherFacts.

(** ** Frames: what each method leaves alone *)

Ltac keeps_step :=
  lazymatch goal with
  | |- keeps _ (ret _) => apply keeps_ret
  | |- keeps _ (raise _) => apply keeps_raise
  | |- keeps _ (lift _) => apply keeps_lift
  | |- keeps _ (gets _) => apply keeps_gets
  | |- keeps _ (emit _) => apply keeps_emit
  | |- keeps _ (logging _ _) => apply keeps_logging
  | |- keeps _ (modify _) => apply keeps_modify; intros; reflexivity
  | |- keeps _ (zoom _ _ _) => apply keeps_zoom; intros; reflexivity
  | |- keeps _ (bind _ _) => apply keeps_bind; [|intros]
  | |- keeps _ (try_finally _ _) => apply keeps_try_finally
  | |- keeps _ (try_except _ _) =>
      apply keeps_try_except;
      [|repeat (constructor; [intros ?; cbn [snd]|]); try constructor]
  | |- keeps _ (if ?c then _ else _) => destruct c
  | |- keeps _ (match ?x with _ => _ end) => destruct x
  end.

Ltac keeps_tac := repeat keeps_step.

Section Frames.
Context `{PyRuntime}.
Import CommandServer.

Lemma sendall_keeps_control conn data : keeps control_part (sendall conn data).
Proof. unfold sendall. keeps_tac. Qed.

Lemma close_keeps_control conn : keeps control_part (close conn).
Proof.
  unfold close. apply keeps_modify. intros s. destruct (sockets s !! conn); reflexivity.
Qed.

Lemma _parse_command_keeps_control line conn :
  keeps control_part (_parse_command line conn).
Proof.
  unfold _parse_command, call_tbot. keeps_tac; apply sendall_keeps_control.
Qed.

Lemma read_line_keeps_control l conn : keeps control_part (read_line l conn).
Proof.
  unfold read_line. destruct (_ == _); [apply keeps_ret|apply _parse_command_keeps_control].
Qed.

Lemma control_threads s s' : control_part s' = control_part s -> threads_part s' = threads_part s.
Proof. unfold control_part, threads_part. congruence. Qed.

End Frames.

(** ** The video relay *)

Section Video.
Import VideoStreamer.
#[local] Arguments published_by : simpl never.
#[local] Arguments published : simpl never.

Lemma published_by_cons e es :
  published_by (e :: es) = published_by [e] ++ published_by es.
Proof. unfold published_by. cbn. rewrite app_nil_r. reflexivity. Qed.

Lemma truthy_str_set ip : truthy_str ip = true <-> address_set ip.
Proof.
  unfold address_set. destruct ip as [a|]; cbn.
  - destruct (String.eqb_spec a ""); cbn; split.
    + discriminate.
    + intros (a' & [= <-] & Hne). contradiction.
    + eauto.
    + reflexivity.
  - split; [discriminate|]. intros (a & [=] & _).
Qed.

Lemma truthy_int_set port : truthy_int port = true <-> port_set port.
Proof.
  unfold port_set. destruct port as [p|]; cbn.
  - destruct (Z.eqb_spec p 0); cbn; split.
    + discriminate.
    + intros (p' & [= <-] & Hne). contradiction.
    + eauto.
    + reflexivity.
  - split; [discriminate|]. intros (p & [=] & _).
Qed.

(** C6 (as amended): [start] on a running streamer only logs a
    warning; on a stopped one it needs a non-empty address and a port
    other than zero, and otherwise only logs an error.  In both cases
    no thread is created and the streamer is left as it was.  With
    both set it records the target, sets [running] and creates one
    thread. *)
Theorem start_guarded ip port v :
  (running v = true ->
     start ip port v = (OK tt, v, [Logged WARNING "Streamer is already running."]))
  /\ (running v = false -> ~ (address_set ip /\ port_set port) ->
        start ip port v
        = (OK tt, v, [Logged ERROR "Target IP and Port must be set to start streaming."]))
  /\ (running v = false -> address_set ip -> port_set port ->
        let v' := state_of (start ip port v) in
        result_of (start ip port v) = OK tt
        /\ running v' = true /\ target_ip v' = ip /\ target_port v' = port
        /\ threads v' = threads v ++ [W_entry]
        /\ _stream_thread v' = Some (length (threads v))).
Proof.
  split; [|split].
  - intros Hr. unfold start, bind, gets. rewrite Hr. reflexivity.
  - intros Hr Hnot. unfold start, bind, gets. rewrite Hr.
    destruct (truthy_str ip) eqn:Hi; destruct (truthy_int port) eqn:Hp; cbn;
      try reflexivity.
    exfalso. apply Hnot. split; [apply truthy_str_set|apply truthy_int_set]; assumption.
  - intros Hr Hi Hp. apply truthy_str_set in Hi as Hi'. apply truthy_int_set in Hp as Hp'.
    destruct Hp as (p & -> & _).
    unfold start, bind, gets. rewrite Hr, Hi'. cbn in Hp'. cbn. rewrite Hp'. cbn.
    repeat split; reflexivity.
Qed.

(** Case analysis on everything a step of the worker looks at. *)
Ltac worker_cases :=
  repeat (cbv beta delta [bind ret raise gets modify lift emit zoom logging goto
                          StreamingOutput.wait StreamingOutput.resume
                          StreamingOutput.write StreamingOutput.notify_all] in *;
          cbn in *;
          match goal with
          | |- context [match ?x with _ => _ end] =>
              lazymatch x with
              | context [match _ with _ => _ end] => fail
              | _ => destruct x eqn:?
              end
          end).

(** C7, first half: [write] replaces the held frame whatever it was
    and releases every thread waiting on the condition. *)
Lemma write_replaces_and_wakes buf o :
  StreamingOutput.write buf o
  = (OK tt,
     StreamingOutput.mk (Some buf) []
       (StreamingOutput.notified o ++ StreamingOutput.waiting o),
     []).
Proof. reflexivity. Qed.

(** A step of a worker reads the held frame or nothing, and leaves
    the buffer's frame alone. *)
Lemma _stream_worker_observes me send v :
  let v' := state_of (_stream_worker me send v) in
  StreamingOutput.frame (output v') = StreamingOutput.frame (output v)
  /\ (observed v' = observed v
      \/ observed v' = observed v ++ [StreamingOutput.frame (output v)]).
Proof.
  unfold _stream_worker. worker_cases; auto.
Qed.

Lemma run_event_observes e v :
  let v' := state_of (run_event e v) in
  held_or_later (StreamingOutput.frame (output v)) (published_by [e])
    (StreamingOutput.frame (output v'))
  /\ exists obs, observed v' = observed v ++ obs
                 /\ Forall (eq (StreamingOutput.frame (output v))) obs.
Proof.
  destruct e as [buf|tid send]; cbn.
  - split.
    + right. exists buf. unfold published_by. cbn. auto.
    + exists []. rewrite app_nil_r. auto.
  - destruct (_stream_worker_observes tid send v) as [Hf [Ho|Ho]]; split.
    + left. exact Hf.
    + exists []. rewrite app_nil_r. auto.
    + left. exact Hf.
    + eexists. split; [exact Ho|]. repeat constructor.
Qed.

Lemma held_or_later_trans h fs1 fs2 x y :
  held_or_later h fs1 x -> held_or_later x fs2 y -> held_or_later h (fs1 ++ fs2) y.
Proof.
  intros [->|(f & Hf & ->)] [->|(g & Hg & ->)].
  - left. reflexivity.
  - right. exists g. rewrite in_app_iff. auto.
  - right. exists f. rewrite in_app_iff. auto.
  - right. exists g. rewrite in_app_iff. auto.
Qed.

Lemma held_or_later_weaken h fs1 fs2 x :
  held_or_later h fs1 x -> held_or_later h (fs1 ++ fs2) x.
Proof.
  intros [->|(f & Hf & ->)]; [left; reflexivity|].
  right. exists f. rewrite in_app_iff. auto.
Qed.

Lemma run_events_observes es v :
  let v' := state_of (run_events es v) in
  held_or_later (StreamingOutput.frame (output v)) (published_by es)
    (StreamingOutput.frame (output v'))
  /\ exists obs, observed v' = observed v ++ obs
                 /\ Forall (held_or_later (StreamingOutput.frame (output v)) (published_by es))
                      obs.
Proof.
  revert v. induction es as [|e es IH]; intros v; cbn.
  - split; [left; reflexivity|]. exists []. rewrite app_nil_r. auto.
  - destruct (run_event_observes e v) as (Hf & obs1 & Ho1 & Hall1). cbn in Hf, Ho1.
    unfold bind. destruct (run_event e v) as [[[[]|x] v1] t1] eqn:E; cbn in *.
    + destruct (IH v1) as (Hf2 & obs2 & Ho2 & Hall2). cbn in Hf2, Ho2.
      destruct (run_events es v1) as [[r2 v2] t2]; cbn in *.
      rewrite published_by_cons.
      split; [eapply held_or_later_trans; eassumption|].
      exists (obs1 ++ obs2). split; [rewrite Ho2, Ho1, app_assoc; reflexivity|].
      apply Forall_app. split.
      * eapply Forall_impl; [exact Hall1|]. intros y <-.
        left. reflexivity.
      * eapply Forall_impl; [exact Hall2|]. intros y Hy.
        eapply held_or_later_trans; eassumption.
    + rewrite published_by_cons.
      split; [apply held_or_later_weaken; exact Hf|].
      exists obs1. split; [exact Ho1|].
      eapply Forall_impl; [exact Hall1|]. intros y <-. left. reflexivity.
Qed.

Lemma start_observes ip port v :
  StreamingOutput.frame (output (state_of (start ip port v)))
  = StreamingOutput.frame (output v)
  /\ observed (state_of (start ip port v)) = observed v.
Proof.
  unfold start. worker_cases; auto.
Qed.

Lemma stop_observes during_join v :
  let v' := state_of (stop during_join v) in
  held_or_later (StreamingOutput.frame (output v)) (published_by during_join)
    (StreamingOutput.frame (output v'))
  /\ exists obs, observed v' = observed v ++ obs
                 /\ Forall (held_or_later (StreamingOutput.frame (output v))
                              (published_by during_join)) obs.
Proof.
  unfold stop.
  cbv beta delta [bind ret gets modify emit zoom logging StreamingOutput.notify_all]. cbn.
  destruct (running v); cbn.
  2: { split; [left; reflexivity|]. exists []. rewrite app_nil_r. auto. }
  destruct (_stream_thread v) as [tid|]; cbn.
  2: { split; [left; reflexivity|]. exists []. rewrite app_nil_r. auto. }
  match goal with
  | |- context [run_events during_join ?w] =>
      destruct (run_events_observes during_join w) as (Hf & obs & Ho & Hall);
      destruct (run_events during_join w) as [[[[]|x] v1] t1]
  end; cbn in *.
  - destruct (is_alive tid v1); cbn; (split; [exact Hf|]); exists obs; auto.
  - split; [exact Hf|]. exists obs; auto.
Qed.

Lemma do_video_observes a v :
  let v' := state_of (do_video a v) in
  held_or_later (StreamingOutput.frame (output v)) (published [a])
    (StreamingOutput.frame (output v'))
  /\ exists obs, observed v' = observed v ++ obs
                 /\ Forall (held_or_later (StreamingOutput.frame (output v)) (published [a]))
                      obs.
Proof.
  destruct a as [e|ip port|dj]; unfold published; cbn [do_video flat_map];
    rewrite app_nil_r.
  - destruct (run_event_observes e v) as (Hf & obs & Ho & Hall).
    split; [exact Hf|]. exists obs. split; [exact Ho|].
    eapply Forall_impl; [exact Hall|]. intros y <-. left. reflexivity.
  - destruct (start_observes ip port v) as [Hf Ho].
    split; [left; exact Hf|]. exists []. rewrite app_nil_r. auto.
  - apply stop_observes.
Qed.

Lemma published_cons a acts : published (a :: acts) = published [a] ++ published acts.
Proof. unfold published. cbn. rewrite app_nil_r. reflexivity. Qed.

Lemma run_video_observes acts v :
  let v' := run_video acts v in
  held_or_later (StreamingOutput.frame (output v)) (published acts)
    (StreamingOutput.frame (output v'))
  /\ exists obs, observed v' = observed v ++ obs
                 /\ Forall (held_or_later (StreamingOutput.frame (output v)) (published acts))
                      obs.
Proof.
  revert v. induction acts as [|a acts IH]; intros v; cbn [run_video].
  - split; [left; reflexivity|]. exists []. rewrite app_nil_r. auto.
  - destruct (do_video_observes a v) as (Hf & obs1 & Ho1 & Hall1).
    destruct (IH (state_of (do_video a v))) as (Hf2 & obs2 & Ho2 & Hall2).
    cbv zeta in *. rewrite published_cons.
    split; [eapply held_or_later_trans; eassumption|].
    exists (obs1 ++ obs2). split; [rewrite Ho2, Ho1, app_assoc; reflexivity|].
    apply Forall_app. split.
    + eapply Forall_impl; [exact Hall1|]. intros y Hy.
      apply held_or_later_weaken. exact Hy.
    + eapply Forall_impl; [exact Hall2|]. intros y Hy.
      eapply held_or_later_trans; eassumption.
Qed.

(** C7: publishing a frame replaces the held frame whatever it was
    and releases every waiter; once [f1] and then [f2] have been
    published with no read in between the buffer holds [f2], and
    whatever happens next every read of the buffer finds [f2] or a
    frame published after it, never the overwritten [f1]. *)
Theorem latest_frame_wins v f1 f2 acts :
  let v2 := state_of (run_events [Produce f1; Produce f2] v) in
  StreamingOutput.frame (output v2) = Some f2
  /\ StreamingOutput.waiting (output v2) = []
  /\ observed v2 = observed v
  /\ (forall o buf,
        StreamingOutput.write buf o
        = (OK tt,
           StreamingOutput.mk (Some buf) []
             (StreamingOutput.notified o ++ StreamingOutput.waiting o), []))
  /\ exists obs,
       observed (run_video acts v2) = observed v ++ obs
       /\ Forall (held_or_later (Some f2) (published acts)) obs
       /\ (f1 <> f2 -> ~ In f1 (published acts) -> ~ In (Some f1) obs).
Proof.
  cbv zeta. repeat split; try reflexivity.
  destruct (run_video_observes acts (state_of (run_events [Produce f1; Produce f2] v)))
    as (_ & obs & Ho & Hall).
  exists obs. split; [exact Ho|]. split; [exact Hall|].
  intros Hne Hnot Hin. rewrite List.Forall_forall in Hall.
  destruct (Hall _ Hin) as [[= E]|(f & Hf & [= E])]; congruence.
Qed.

(** What a step of a worker can change. *)
Lemma _stream_worker_shape me send v :
  let v' := state_of (_stream_worker me send v) in
  (udp_sent v' = udp_sent v
   \/ exists f a, threads v !! me = Some (W_frame (Some f))
                  /\ len f <= MAX_UDP_PACKET_SIZE
                  /\ udp_sent v' = udp_sent v ++ [(f, a)])
  /\ (exists obs, observed v' = observed v ++ obs)
  /\ (forall i fr, threads v' !! i = Some (W_frame fr) ->
        threads v !! i = Some (W_frame fr) \/ In fr (observed v')).
Proof.
  unfold _stream_worker. cbv beta delta [bind gets]. cbn.
  destruct (threads v !! me) as [p|] eqn:Hme.
  2: { cbn. split; [auto|]. split; [exists []; rewrite app_nil_r; reflexivity|auto]. }
  assert (Hins : forall q i fr,
             (match q with W_frame _ => False | _ => True end) ->
             <[me:=q]> (threads v) !! i = Some (W_frame fr) ->
             threads v !! i = Some (W_frame fr)).
  { intros q i fr Hq Hl. apply list_lookup_insert_Some in Hl.
    destruct Hl as [(-> & -> & _)|(_ & Hl)]; [contradiction|exact Hl]. }
  destruct p; worker_cases; cbn;
    (split; [|split; [try (exists []; rewrite app_nil_r; reflexivity)
                     |try (intros i fr Hl; left; eapply Hins; [|exact Hl]; exact I)]]);
    auto.
  - eexists. reflexivity.
  - intros i fr Hl. apply list_lookup_insert_Some in Hl.
    destruct Hl as [(_ & [= <-] & _)|(_ & Hl)]; [|auto].
    right. apply in_app_iff. right. left. reflexivity.
  - destruct frame as [f|]; [|discriminate]. cbn in *.
    right. do 2 eexists. split; [reflexivity|]. split; [|reflexivity].
    apply Z.ltb_ge. assumption.
Qed.

Lemma _stream_worker_invariant me send v :
  sender_invariant v -> sender_invariant (state_of (_stream_worker me send v)).
Proof.
  intros [Hd Ht].
  destruct (_stream_worker_shape me send v) as (Hs & (obs & Ho) & Hth). cbv zeta in *.
  split.
  - intros d Hin. destruct Hs as [Hs|(f & a & Hme & Hlen & Hs)]; rewrite Hs in Hin.
    + destruct (Hd d Hin) as [H1 H2]. split; [exact H1|].
      rewrite Ho. apply in_app_iff. auto.
    + apply in_app_iff in Hin. destruct Hin as [Hin|[<-|[]]].
      * destruct (Hd d Hin) as [H1 H2]. split; [exact H1|].
        rewrite Ho. apply in_app_iff. auto.
      * cbn [fst]. split; [exact Hlen|]. rewrite Ho. apply in_app_iff. left. eauto.
  - intros i f Hl. destruct (Hth i (Some f) Hl) as [Hold|Hnew]; [|exact Hnew].
    rewrite Ho. apply in_app_iff. left. eauto.
Qed.

Lemma run_event_invariant e v :
  sender_invariant v -> sender_invariant (state_of (run_event e v)).
Proof.
  destruct e as [buf|tid send]; [|apply _stream_worker_invariant].
  intros Hv. exact Hv.
Qed.

Lemma run_events_invariant es v :
  sender_invariant v -> sender_invariant (state_of (run_events es v)).
Proof.
  revert v. induction es as [|e es IH]; intros v Hv; [exact Hv|].
  cbn. unfold bind. pose proof (run_event_invariant e v Hv) as H1.
  destruct (run_event e v) as [[[[]|x] v1] t1]; cbn in *; [|exact H1].
  specialize (IH v1 H1). destruct (run_events es v1) as [[r2 v2] t2]; exact IH.
Qed.

Lemma start_invariant ip port v :
  sender_invariant v -> sender_invariant (state_of (start ip port v)).
Proof.
  intros [Hd Ht]. unfold start. worker_cases; try (split; assumption).
  split; [exact Hd|]. cbn. intros i f Hl.
  apply lookup_app_Some in Hl. destruct Hl as [Hl|[_ Hl]]; [eauto|].
  destruct (i - length (threads v))%nat as [|[|n]]; discriminate.
Qed.

Lemma stop_invariant during_join v :
  sender_invariant v -> sender_invariant (state_of (stop during_join v)).
Proof.
  intros Hv. unfold stop.
  cbv beta delta [bind ret gets modify emit zoom logging StreamingOutput.notify_all]. cbn.
  destruct (running v); cbn; [|exact Hv].
  destruct (_stream_thread v) as [tid|]; cbn; [|exact Hv].
  match goal with
  | |- context [run_events during_join ?w] =>
      pose proof (run_events_invariant during_join w Hv) as H1;
      destruct (run_events during_join w) as [[[[]|x] v1] t1]
  end; cbn in *; [|exact H1].
  destruct (is_alive tid v1); exact H1.
Qed.

Lemma run_video_invariant acts v :
  sender_invariant v -> sender_invariant (run_video acts v).
Proof.
  revert v. induction acts as [|a acts IH]; intros v Hv; [exact Hv|].
  cbn. apply IH. destruct a as [e|ip port|dj]; cbn.
  - apply run_event_invariant, Hv.
  - apply start_invariant, Hv.
  - apply stop_invariant, Hv.
Qed.

Lemma init_invariant : sender_invariant init.
Proof. split; [intros d []|intros i f Hl; discriminate]. Qed.

Lemma oversized_not_empty f : MAX_UDP_PACKET_SIZE < len f -> truthy_str (Some f) = true.
Proof.
  intros Hl. destruct f; [|reflexivity].
  unfold MAX_UDP_PACKET_SIZE, len in Hl. cbn in Hl. lia.
Qed.

(** C8: whatever the streamer has been through, every datagram it
    handed to the socket is a whole frame read from the buffer of at
    most 65507 bytes; and a worker holding a longer frame sends
    nothing, goes back to the head of its loop alive, and, a target
    being set, logs the warning. *)
Theorem oversized_frame_dropped acts :
  let v := run_video acts init in
  datagrams_whole v
  /\ forall me f send,
       threads v !! me = Some (W_frame (Some f)) ->
       MAX_UDP_PACKET_SIZE < len f ->
       let r := _stream_worker me send v in
       result_of r = OK tt
       /\ udp_sent (state_of r) = udp_sent v
       /\ threads (state_of r) = <[me := W_head]> (threads v)
       /\ is_alive me (state_of r) = true
       /\ running (state_of r) = running v
       /\ (address_set (target_ip v) -> port_set (target_port v) ->
           trace_of r = [oversize_warning]).
Proof.
  cbv zeta. split; [apply run_video_invariant, init_invariant|].
  generalize (run_video acts init). intros v me f send Hme Hlen.
  pose proof (oversized_not_empty f Hlen) as Hf.
  assert (Hlt : (MAX_UDP_PACKET_SIZE <? len f) = true) by (apply Z.ltb_lt; exact Hlen).
  assert (Hal : is_alive me (set_threads (<[me:=W_head]> (threads v)) v) = true).
  { unfold is_alive. cbn. rewrite list_lookup_insert_eq; [reflexivity|].
    apply lookup_lt_is_Some. eauto. }
  unfold _stream_worker. cbv beta delta [bind gets]. cbn. rewrite Hme. cbn.
  cbn in Hf. rewrite Hf. cbn.
  destruct (truthy_str (target_ip v)) eqn:Hi; cbn.
  - destruct (truthy_int (target_port v)) eqn:Hp; cbn.
    + rewrite Hlt. cbn. repeat split; auto.
    + repeat split; auto. intros _ Hp'. apply truthy_int_set in Hp'. congruence.
  - repeat split; auto. intros Hi' _. apply truthy_str_set in Hi'. congruence.
Qed.

(** A step of a worker returns, waits for nothing and leaves
    [running] alone. *)
Lemma _stream_worker_quiet me send v :
  let r := _stream_worker me send v in
  result_of r = OK tt /\ wait_budget (trace_of r) = 0
  /\ running (state_of r) = running v.
Proof.
  unfold _stream_worker. worker_cases; auto.
Qed.

Lemma run_event_quiet e v :
  let r := run_event e v in
  result_of r = OK tt /\ wait_budget (trace_of r) = 0
  /\ running (state_of r) = running v.
Proof.
  destruct e as [buf|tid send]; [cbn; auto|apply _stream_worker_quiet].
Qed.

Lemma wait_budget_app t1 t2 : wait_budget (t1 ++ t2) = wait_budget t1 + wait_budget t2.
Proof.
  induction t1 as [|e t1 IH]; [reflexivity|].
  cbn [app]. unfold wait_budget in *. cbn [fold_right]. rewrite IH. destruct e; lia.
Qed.

Lemma run_events_quiet es v :
  let r := run_events es v in
  result_of r = OK tt /\ wait_budget (trace_of r) = 0
  /\ running (state_of r) = running v.
Proof.
  revert v. induction es as [|e es IH]; intros v; cbn; [auto|].
  destruct (run_event_quiet e v) as (H1 & H2 & H3). unfold bind.
  destruct (run_event e v) as [[r1 v1] t1]; cbn in *. subst r1.
  destruct (IH v1) as (H4 & H5 & H6).
  destruct (run_events es v1) as [[r2 v2] t2]; cbn in *.
  rewrite wait_budget_app. repeat split; [assumption|lia|congruence].
Qed.

(** [stop()] returns, leaves the streamer not running, and waits at
    most for the five seconds of its join. *)
Lemma stop_stops during_join v :
  let r := stop during_join v in
  result_of r = OK tt
  /\ running (state_of r) = false
  /\ 0 <= wait_budget (trace_of r) <= 5000.
Proof.
  unfold stop.
  cbv beta delta [bind ret gets modify emit zoom logging StreamingOutput.notify_all]. cbn.
  destruct (running v) eqn:Hr; cbn;
    [|repeat split; first [reflexivity|assumption|unfold wait_budget; cbn; lia]].
  destruct (_stream_thread v) as [tid|]; cbn;
    [|repeat split; first [reflexivity|unfold wait_budget; cbn; lia]].
  match goal with
  | |- context [run_events during_join ?w] =>
      destruct (run_events_quiet during_join w) as (H1 & H2 & H3);
      destruct (run_events during_join w) as [[r1 v1] t1]
  end; cbn in *. subst r1.
  destruct (is_alive tid v1); cbn;
    (split; [reflexivity|split; [exact H3|]]);
    match goal with
    | |- context [wait_budget (?a :: ?b :: ?t)] =>
        change (a :: b :: t) with ([a; b] ++ t)
    end;
    rewrite !wait_budget_app, H2; unfold wait_budget; cbn; lia.
Qed.

End Video.

(** ** Sessions *)

Section Sessions.
Context `{PyRuntime}.
Import CommandServer.
#[local] Arguments VideoStreamer.stop : simpl never.
#[local] Arguments VideoStreamer.start : simpl never.

Lemma sendall_keeps_frame conn data : keeps frame_part (sendall conn data).
Proof.
  unfold sendall. keeps_tac.
  apply keeps_modify. intros s. unfold frame_part. cbn. rewrite length_insert. reflexivity.
Qed.

Lemma close_keeps_frame conn : keeps frame_part (close conn).
Proof.
  unfold close. apply keeps_modify. intros s. unfold frame_part.
  destruct (sockets s !! conn); cbn; [rewrite length_insert|]; reflexivity.
Qed.

Lemma _parse_command_keeps_frame line conn : keeps frame_part (_parse_command line conn).
Proof.
  unfold _parse_command, call_tbot. keeps_tac; apply sendall_keeps_frame.
Qed.

Lemma read_line_keeps_frame l conn : keeps frame_part (read_line l conn).
Proof.
  unfold read_line. destruct (_ == _); [apply keeps_ret|apply _parse_command_keeps_frame].
Qed.

Lemma read_loop_keeps {X} (proj : t -> X) input conn :
  (forall l, keeps proj (read_line l conn)) -> keeps proj (read_loop input conn).
Proof.
  intros Hl. induction input as [|[l|e|] input IH]; cbn;
    [apply keeps_ret| |apply keeps_raise|apply keeps_ret].
  apply keeps_bind; [apply Hl|]. intros []; [exact IH|apply keeps_ret].
Qed.

Lemma guarded_loop_keeps {X} (proj : t -> X) input conn :
  (forall l, keeps proj (read_line l conn)) ->
  keeps proj (try_except (read_loop input conn) session_except).
Proof.
  intros Hl. apply keeps_try_except; [apply read_loop_keeps, Hl|].
  repeat (constructor; [intros e; cbn [snd]; apply keeps_logging|]). constructor.
Qed.

Lemma session_enter_keeps_frame addr : keeps frame_part (session_enter addr).
Proof. unfold session_enter. keeps_tac. Qed.

Lemma session_enter_keeps_threads addr : keeps threads_part (session_enter addr).
Proof. unfold session_enter. keeps_tac. Qed.

Lemma guarded_loop_keeps_threads input conn :
  keeps threads_part (try_except (read_loop input conn) session_except).
Proof.
  apply guarded_loop_keeps. intros l s. apply control_threads, read_line_keeps_control.
Qed.

Lemma start_returns ip port : returns (VideoStreamer.start ip port).
Proof.
  intros v. unfold VideoStreamer.start, bind, gets.
  destruct (VideoStreamer.running v); [eexists; reflexivity|].
  destruct (truthy_str ip); [|eexists; reflexivity].
  destruct port as [p|]; [|eexists; reflexivity].
  destruct (truthy_int (Some p)); eexists; reflexivity.
Qed.

Lemma session_enter_returns addr : returns (session_enter addr).
Proof.
  unfold session_enter. apply returns_bind; [apply returns_logging|intros _].
  apply returns_bind; [apply returns_gets|intros port].
  apply returns_zoom, start_returns.
Qed.

(** The reader's loop, with the [except] clauses of the handler,
    returns. *)
Lemma guarded_loop_returns input conn :
  returns (try_except (read_loop input conn) session_except).
Proof.
  apply returns_try_except.
  - apply Exists_cons_tl, Exists_cons_hd. reflexivity.
  - repeat (constructor; [intros e; cbn [snd]; apply returns_logging|]). constructor.
Qed.

(** The [finally] block of [_handle_client], from any state. *)
Lemma finally_block conn during_join s :
  let r := (finally_stop during_join ;; close conn ;; finally_clear) s in
  result_of r = OK tt
  /\ VideoStreamer.running (video_streamer (state_of r)) = false
  /\ _client_handler_thread (state_of r) = None
  /\ (forall k, sockets s !! conn = Some k -> is_closed conn (state_of r))
  /\ handlers (state_of r) = handlers s
  /\ running (state_of r) = running s
  /\ tcp_socket (state_of r) = tcp_socket s
  /\ _listen_thread (state_of r) = _listen_thread s.
Proof.
  unfold finally_stop, finally_clear, close.
  cbv beta delta [bind ret gets modify emit zoom logging]. cbn.
  destruct (stop_stops during_join (video_streamer s)) as (H1 & H2 & _).
  destruct (VideoStreamer.stop during_join (video_streamer s)) as [[r v'] tr].
  cbn in *. subst r. cbn.
  destruct (sockets s !! conn) as [k|] eqn:Hk; cbn; repeat split; auto.
  - intros k' [= <-]. exists (mkConn (peer k) (sent k) true (link_up k)).
    split; [|reflexivity].
    apply list_lookup_insert_eq. apply lookup_lt_is_Some. eauto.
  - discriminate.
Qed.

(** [_handle_client], from any state and on anything the reader
    yields: it returns, the video streamer is stopped, the connection
    is closed and the session slot is empty. *)
Lemma _handle_client_releases conn addr input during_join s :
  let r := _handle_client conn addr input during_join s in
  result_of r = OK tt
  /\ VideoStreamer.running (video_streamer (state_of r)) = false
  /\ _client_handler_thread (state_of r) = None
  /\ (forall k, sockets s !! conn = Some k -> is_closed conn (state_of r))
  /\ handlers (state_of r) = handlers s
  /\ running (state_of r) = running s.
Proof.
  cbv zeta.
  destruct (session_enter_returns addr s) as [[] He].
  pose proof (session_enter_keeps_frame addr s) as Hf0.
  destruct (session_enter addr s) as [[r0 s0] t0] eqn:E0; cbn in He, Hf0; subst r0.
  destruct (guarded_loop_returns input conn s0) as [[] Hl].
  pose proof (guarded_loop_keeps frame_part input conn
                (fun l => read_line_keeps_frame l conn) s0) as Hf1.
  destruct (try_except (read_loop input conn) session_except s0) as [[r1 s1] t1] eqn:E1;
    cbn in Hl, Hf1; subst r1.
  destruct (finally_block conn during_join s1) as (F1 & F2 & F3 & F4 & F5 & F6 & _).
  destruct ((finally_stop during_join;; close conn;; finally_clear) s1) as [[r2 s2] t2] eqn:E2;
    cbn in F1, F2, F3, F4, F5, F6; subst r2.
  assert (E : _handle_client conn addr input during_join s = (OK tt, s2, t0 ++ (t1 ++ t2))).
  { unfold _handle_client. rewrite (bind_OK _ _ _ _ _ _ E0).
    unfold try_finally. rewrite E1, E2. reflexivity. }
  rewrite E. cbn.
  unfold frame_part in Hf0, Hf1.
  injection Hf0 as L0 H0 R0 _ _. injection Hf1 as L1 H1 R1 _ _.
  repeat split; try congruence.
  intros k Hk. assert (Hlt : (conn < length (sockets s1))%nat).
  { rewrite L1, L0. apply lookup_lt_is_Some. eauto. }
  apply lookup_lt_is_Some in Hlt. destruct Hlt as [k1 Hk1]. eauto.
Qed.

(** With the slot empty, an accepted connection is promoted: a new
    handler thread is created for it and takes the slot. *)
Lemma accepted_promotes conn s :
  running s = true ->
  _client_handler_thread s = None ->
  exists a,
    accepted conn s
    = (OK Continue,
       set_handlers (handlers s ++ [mkHandler conn a H_entry])
         (set__client_handler_thread (Some (length (handlers s))) s),
       []).
Proof.
  intros Hr Hs. unfold accepted, try_except.
  cbv beta delta [bind ret gets modify]. cbn. rewrite Hr. cbn. rewrite Hs. cbn.
  eexists. reflexivity.
Qed.

(** C5: an [exit] message makes the dispatcher signal termination;
    and however a session ends, the handler returns having stopped the
    video relay, closed the connection and emptied the session slot,
    after which a running server promotes the next accepted
    connection to a new session. *)
Theorem exit_ends_session_and_frees_slot line conn addr input during_join s :
  (forall cmd, json_loads line = OK cmd -> has_action cmd "exit" ->
     _parse_command line conn s = (OK false, s, [Logged INFO "Client requested exit."]))
  /\ let s' := state_of (_handle_client conn addr input during_join s) in
     result_of (_handle_client conn addr input during_join s) = OK tt
     /\ VideoStreamer.running (video_streamer s') = false
     /\ (forall k, sockets s !! conn = Some k -> is_closed conn s')
     /\ _client_handler_thread s' = None
     /\ (running s' = true ->
         forall next, exists a,
           state_of (accepted next s')
           = set_handlers (handlers s' ++ [mkHandler next a H_entry])
               (set__client_handler_thread (Some (length (handlers s'))) s')).
Proof.
  split; [intros cmd; apply exit_terminates|].
  destruct (_handle_client_releases conn addr input during_join s)
    as (R1 & R2 & R3 & R4 & R5 & R6).
  cbv zeta in *. repeat split; try assumption.
  intros Hr next. destruct (accepted_promotes next _ Hr R3) as [a Ha].
  exists a. rewrite Ha. reflexivity.
Qed.

End Sessions.

(** ** Arbitration *)

Section ArbitrationFacts.
Context `{PyRuntime}.
Import CommandServer.
#[local] Arguments VideoStreamer.stop : simpl never.
#[local] Arguments VideoStreamer.start : simpl never.
#[local] Arguments VideoStreamer.run_event : simpl never.
#[local] Arguments _parse_command : simpl never.
#[local] Arguments read_line : simpl never.
#[local] Arguments goto : simpl never.
#[local] Arguments session_enter : simpl never.
#[local] Arguments finally_stop : simpl never.
#[local] Arguments accepted : simpl never.
#[local] Arguments sendall : simpl never.
#[local] Arguments close : simpl never.

(** Case analysis on everything a step of the server looks at. *)
Ltac server_cases :=
  repeat (cbv beta delta [bind ret raise gets modify lift emit zoom logging
                          set_listener leave_loop close sendall goto finally_clear
                          hangup peer_connect wake_up start] in *;
          cbn in *;
          match goal with
          | |- context [match ?x with _ => _ end] =>
              lazymatch x with
              | context [match _ with _ => _ end] => fail
              | _ => destruct x eqn:?
              end
          end).

Lemma slot_owns_ext s s' :
  threads_part s' = threads_part s -> slot_owns_sessions s -> slot_owns_sessions s'.
Proof.
  unfold threads_part, slot_owns_sessions. intros [= Hh Hs] Hinv i h.
  rewrite Hh, Hs. apply Hinv.
Qed.

Lemma isinstance_Exception e : isinstance e Exception = true.
Proof. destruct e; reflexivity. Qed.

Lemma goto_run me p s h :
  handlers s !! me = Some h ->
  goto me p s
  = (OK tt, set_handlers (<[me := mkHandler (h_conn h) (h_addr h) p]> (handlers s)) s, []).
Proof. intros Hme. unfold goto, modify. rewrite Hme. reflexivity. Qed.

(** A step made of statements that leave the threads alone, followed
    by a jump, with a jump elsewhere if they raise. *)
Lemma guarded_goto {A} (m : M t A) p q me h s :
  keeps threads_part m ->
  handlers s !! me = Some h ->
  let s' := state_of (try_except (m ;; goto me p) [([Exception], fun _ => goto me q)] s) in
  exists p', (p' = p \/ p' = q)
             /\ handlers s' = <[me := mkHandler (h_conn h) (h_addr h) p']> (handlers s)
             /\ _client_handler_thread s' = _client_handler_thread s.
Proof.
  intros Hk Hme. specialize (Hk s). unfold try_except, bind.
  destruct (m s) as [[[a|e] s1] t1]; cbn in Hk; injection Hk as Hh Hs.
  - rewrite (goto_run me p s1 h) by (rewrite Hh; exact Hme). cbn.
    exists p. rewrite Hh, Hs. auto.
  - cbn. rewrite ?isinstance_Exception. cbn.
    rewrite (goto_run me q s1 h) by (rewrite Hh; exact Hme). cbn.
    exists q. rewrite Hh, Hs. auto.
Qed.

Lemma finally_stop_keeps_threads dj : keeps threads_part (finally_stop dj).
Proof. unfold finally_stop. keeps_tac. Qed.

Lemma close_keeps_threads conn : keeps threads_part (close conn).
Proof. intros s. apply control_threads, close_keeps_control. Qed.

Lemma read_line_keeps_threads l conn : keeps threads_part (read_line l conn).
Proof. intros s. apply control_threads, read_line_keeps_control. Qed.

Lemma list_insert_same {A} (l : list A) i x : l !! i = Some x -> <[i:=x]> l = l.
Proof. apply list_insert_id. Qed.

(** What a step of a handler thread does to the threads. *)
Lemma handler_step_threads me r during_join s :
  let s' := state_of (handler_step me r during_join s) in
  match handlers s !! me with
  | None => threads_part s' = threads_part s
  | Some h =>
      exists p,
        handlers s' = <[me := mkHandler (h_conn h) (h_addr h) p]> (handlers s)
        /\ (pre_clear (h_pc h) = false -> pre_clear p = false)
        /\ (h_pc h = H_finally_clear -> p = H_exiting)
        /\ _client_handler_thread s'
           = match h_pc h with
             | H_finally_clear => None
             | _ => _client_handler_thread s
             end
  end.
Proof.
  cbv zeta. unfold handler_step. rewrite bind_gets.
  destruct (handlers s !! me) as [[conn addr pc]|] eqn:Hme; [|reflexivity].
  cbn [h_conn h_addr h_pc]. destruct pc.
  - destruct (guarded_goto (session_enter addr) H_reading H_dead me _ s
                (session_enter_keeps_threads addr) Hme) as (p & Hp & Hh & Hs).
    cbn in Hh, Hs. cbn. exists p. repeat split; try assumption; try discriminate.
  - set (body := try_except _ _).
    assert (Hb : exists b s1 t1, body s = (OK b, s1, t1)
                                 /\ threads_part s1 = threads_part s).
    { subst body. unfold try_except. destruct r as [l|e|].
      - pose proof (read_line_keeps_threads l conn s) as Hk.
        destruct (read_line l conn s) as [[[b|e] s1] t1]; cbn in Hk.
        + eauto 6.
        + destruct e; cbn; cbv beta delta [bind ret logging emit]; cbn;
            (do 3 eexists; split; [reflexivity|exact Hk]).
      - destruct e; cbn; cbv beta delta [bind ret logging emit]; cbn;
          (do 3 eexists; split; reflexivity).
      - cbn. do 3 eexists; split; reflexivity. }
    destruct Hb as (b & s1 & t1 & Eb & Hk). injection Hk as Hh Hs.
    cbn. unfold bind. rewrite Eb. destruct b.
    + cbn. exists H_reading. rewrite Hh, Hs, list_insert_same by exact Hme.
      repeat split; try discriminate.
    + rewrite (goto_run me H_finally_stop s1 _) by (rewrite Hh; exact Hme). cbn.
      exists H_finally_stop. rewrite Hh, Hs. repeat split; try discriminate.
  - destruct (guarded_goto (finally_stop during_join) H_finally_close H_dead me _ s
                (finally_stop_keeps_threads during_join) Hme) as (p & Hp & Hh & Hs).
    cbn in Hh, Hs. cbn. exists p. repeat split; try assumption; try discriminate.
  - pose proof (close_keeps_threads conn s) as Hk. unfold bind.
    assert (Hc : exists s1, close conn s = (OK tt, s1, [])) by (eexists; reflexivity).
    destruct Hc as [s1 Hc]. rewrite Hc in *. cbn in Hk. injection Hk as Hh Hs.
    rewrite (goto_run me H_finally_clear s1 _) by (rewrite Hh; exact Hme). cbn.
    exists H_finally_clear. rewrite Hh, Hs. repeat split; try discriminate.
  - unfold bind, finally_clear, modify. cbn.
    rewrite (goto_run me H_exiting (set__client_handler_thread None s) _) by exact Hme.
    cbn. exists H_exiting. repeat split.
  - rewrite (goto_run me H_dead s _) by exact Hme. cbn.
    exists H_dead. repeat split; discriminate.
  - cbn. exists H_dead. rewrite list_insert_same by exact Hme.
    repeat split; discriminate.
Qed.

Lemma handler_step_owns me r during_join s :
  slot_owns_sessions s -> slot_owns_sessions (state_of (handler_step me r during_join s)).
Proof.
  intros Hinv. pose proof (handler_step_threads me r during_join s) as Hst.
  cbv zeta in Hst. destruct (handlers s !! me) as [h|] eqn:Hme.
  2: { eapply slot_owns_ext; eassumption. }
  destruct Hst as (p & Hh & Hpost & Hclr & Hs).
  intros i h' Hi Hpre. rewrite Hh in Hi. rewrite Hs.
  apply list_lookup_insert_Some in Hi.
  destruct Hi as [(<- & <- & _)|(Hne & Hi)]; cbn in Hpre.
  - destruct (pre_clear (h_pc h)) eqn:Hold.
    + destruct (h_pc h) eqn:Hpc; cbn in Hold; try discriminate;
        try (eapply Hinv; [exact Hme|rewrite Hpc; reflexivity]).
      rewrite (Hclr eq_refl) in Hpre. discriminate.
    + rewrite (Hpost eq_refl) in Hpre. discriminate.
  - pose proof (Hinv i h' Hi Hpre) as Hslot.
    destruct (h_pc h) eqn:Hpc; try exact Hslot.
    assert (Hown : _client_handler_thread s = Some me).
    { eapply Hinv; [exact Hme|rewrite Hpc; reflexivity]. }
    congruence.
Qed.

(** What [accepted] does to the threads: nothing, or it promotes the
    connection while the slot names no live thread. *)
Lemma accepted_threads conn s :
  let s' := state_of (accepted conn s) in
  threads_part s' = threads_part s
  \/ (exists a,
        threads_part s'
        = (handlers s ++ [mkHandler conn a H_entry], Some (length (handlers s))))
     /\ match _client_handler_thread s with
        | Some th => is_alive th s = false
        | None => True
        end.
Proof.
  cbv zeta. unfold accepted, try_except. server_cases; auto.
  all: try (right; split; [eexists; reflexivity|]; 
            repeat match goal with
              | E : _client_handler_thread _ = _ |- _ => rewrite E
              end; auto; fail).
  all: try (left; unfold threads_part; cbn;
            repeat match goal with
              | |- context [match ?x with _ => _ end] => destruct x
              end; reflexivity).
Qed.

Lemma accepted_owns conn s :
  slot_owns_sessions s -> slot_owns_sessions (state_of (accepted conn s)).
Proof.
  intros Hinv. destruct (accepted_threads conn s) as [Hk|[[a Hp] Hfree]]; cbv zeta in *.
  - eapply slot_owns_ext; eassumption.
  - injection Hp as Hh Hs. intros i h Hi Hpre. rewrite Hh in Hi. rewrite Hs.
    apply lookup_app_Some in Hi. destruct Hi as [Hi|[Hge Hi]].
    + exfalso. pose proof (Hinv i h Hi Hpre) as Hslot. rewrite Hslot in Hfree.
      unfold is_alive in Hfree. rewrite Hi in Hfree.
      destruct (h_pc h); discriminate.
    + destruct (i - length (handlers s))%nat as [|n] eqn:Hd; [|destruct n; discriminate].
      f_equal. lia.
Qed.

Lemma start_keeps_threads : keeps threads_part start.
Proof. unfold start, set_listener. keeps_tac. Qed.

Lemma peer_connect_keeps_threads a link : keeps threads_part (peer_connect a link).
Proof. unfold peer_connect, set_listener. keeps_tac. Qed.

Lemma stop_step_keeps_threads during_join pc :
  keeps threads_part (stop_step during_join pc).
Proof.
  destruct pc; cbn [stop_step]; unfold wake_up; keeps_tac;
    apply peer_connect_keeps_threads.
Qed.

Lemma stop_keeps_threads during_join : keeps threads_part (stop during_join).
Proof. unfold stop. keeps_tac; apply stop_step_keeps_threads. Qed.

Lemma hangup_keeps_threads conn : keeps threads_part (hangup conn).
Proof.
  unfold hangup. apply keeps_modify. intros s. destruct (sockets s !! conn); reflexivity.
Qed.

Lemma _listen_worker_owns s :
  slot_owns_sessions s -> slot_owns_sessions (state_of (_listen_worker s)).
Proof.
  intros Hinv. unfold _listen_worker. rewrite bind_gets.
  destruct (_listen_thread s) as [[| | |conn|]|]; try exact Hinv.
  - eapply slot_owns_ext; [|exact Hinv]. server_cases; reflexivity.
  - eapply slot_owns_ext; [|exact Hinv]. server_cases; reflexivity.
  - pose proof (accepted_owns conn s Hinv) as Ha. unfold bind.
    destruct (accepted conn s) as [[[[]|e] s1] t1]; cbn in Ha |- *; exact Ha.
Qed.

Lemma step_owns e s :
  slot_owns_sessions s -> slot_owns_sessions (state_of (step e s)).
Proof.
  intros Hinv. destruct e as [|dj|a link|conn| |tid r dj|e]; cbn [step].
  - eapply slot_owns_ext; [apply start_keeps_threads|exact Hinv].
  - eapply slot_owns_ext; [apply stop_keeps_threads|exact Hinv].
  - eapply slot_owns_ext; [|exact Hinv].
    apply (keeps_bind threads_part); [apply peer_connect_keeps_threads|].
    intros b. apply keeps_ret.
  - eapply slot_owns_ext; [apply hangup_keeps_threads|exact Hinv].
  - apply _listen_worker_owns, Hinv.
  - apply handler_step_owns, Hinv.
  - eapply slot_owns_ext; [|exact Hinv]. apply (keeps_zoom threads_part). reflexivity.
Qed.

Lemma run_owns es s : slot_owns_sessions s -> slot_owns_sessions (run es s).
Proof.
  revert s. induction es as [|e es IH]; intros s Hinv; [exact Hinv|].
  cbn. apply IH, step_owns, Hinv.
Qed.

Lemma init_owns tb v h p1 p2 : slot_owns_sessions (init tb v h p1 p2).
Proof. intros i x Hi. discriminate. Qed.

(** Two elements of a list that pass a test, when at most one index
    can pass it, are one. *)
Lemma filter_unique {A} (P : A -> bool) (l : list A) (j : option nat) :
  (forall i x, l !! i = Some x -> P x = true -> j = Some i) ->
  (length (List.filter P l) <= 1)%nat.
Proof.
  revert j. induction l as [|x l IH]; intros j Hu; cbn; [lia|].
  destruct (P x) eqn:Px.
  - pose proof (Hu 0%nat x eq_refl Px) as Hj. cbn.
    assert (Hnone : List.filter P l = []).
    { destruct (List.filter P l) as [|y l'] eqn:Hf; [reflexivity|exfalso].
      assert (Hy : In y (List.filter P l)) by (rewrite Hf; left; reflexivity).
      apply filter_In in Hy. destruct Hy as [Hy Py].
      apply list_elem_of_In, list_elem_of_lookup in Hy. destruct Hy as [i Hi].
      pose proof (Hu (S i) y Hi Py). congruence. }
    rewrite Hnone. cbn. lia.
  - apply (IH (match j with Some (S n) => Some n | _ => None end)).
    intros i y Hi Py. rewrite (Hu (S i) y Hi Py). reflexivity.
Qed.

Lemma owns_single_session s :
  slot_owns_sessions s -> (length (active_sessions s) <= 1)%nat.
Proof.
  intros Hinv. unfold active_sessions.
  apply (filter_unique _ _ (_client_handler_thread s)).
  intros i h Hi Hp. apply (Hinv i h Hi). destruct (h_pc h); try discriminate; reflexivity.
Qed.

Lemma owns_single_open_session s :
  slot_owns_sessions s -> (length (open_sessions s) <= 1)%nat.
Proof.
  intros Hinv. unfold open_sessions.
  apply (filter_unique _ _ (_client_handler_thread s)).
  intros i h Hi Hp. apply (Hinv i h Hi Hp).
Qed.

Lemma close_run conn s : close conn s = (OK tt, state_of (close conn s), []).
Proof. reflexivity. Qed.

(** The busy path of the accept loop. *)
Lemma accepted_rejects conn s :
  running s = true -> slot_busy s -> writable conn s ->
  accepted conn s
  = (OK Continue, state_of (close conn (wrote conn busy_reply s)),
     [Logged WARNING "Another client {addr} tried to connect. Rejecting."]).
Proof.
  intros Hr (th & Hs & Hal) Hw. unfold accepted, try_except.
  rewrite bind_gets, Hr. cbn [negb]. rewrite bind_gets, Hs, Hal.
  cbv beta delta [bind logging emit ret]. cbn.
  rewrite (sendall_writable _ _ _ Hw). cbn.
  rewrite close_run. reflexivity.
Qed.

(** C1 (as amended): in every state the server can reach at most one
    session is active, and at most one handler thread has not yet
    cleared the session slot; and when the accept loop finds the slot
    held by a live handler thread, a connection it can write to gets
    exactly [busy_reply], the bytes of [{"error": "Server busy"}]
    followed by a line feed, and is closed at once, while the handler
    threads, the slot and the other connections stay as they were. *)
Theorem single_active_session tb v host p1 p2 es :
  let s := run es (init tb v host p1 p2) in
  (length (active_sessions s) <= 1)%nat
  /\ (length (open_sessions s) <= 1)%nat
  /\ forall conn k,
       running s = true -> slot_busy s ->
       sockets s !! conn = Some k -> closed k = false -> link_up k = true ->
       let s' := state_of (accepted conn s) in
       result_of (accepted conn s) = OK Continue
       /\ sockets s'
          = <[conn := mkConn (peer k) (sent k +:+ busy_reply) true (link_up k)]> (sockets s)
       /\ handlers s' = handlers s
       /\ _client_handler_thread s' = _client_handler_thread s
       /\ active_sessions s' = active_sessions s
       /\ open_sessions s' = open_sessions s.
Proof.
  cbv zeta. split; [|split].
  - apply owns_single_session, run_owns, init_owns.
  - apply owns_single_open_session, run_owns, init_owns.
  - generalize (run es (init tb v host p1 p2)). intros s conn k Hr Hb Hk Hc Hl.
    rewrite (accepted_rejects conn s Hr Hb) by (exists k; auto).
    unfold wrote. rewrite Hk. unfold close, modify, active_sessions, open_sessions. cbn.
    assert (Hlt : (conn < length (sockets s))%nat) by (apply lookup_lt_is_Some; eauto).
    rewrite list_lookup_insert_eq by exact Hlt. cbn.
    rewrite list_insert_insert_eq. repeat split.
Qed.

(** *** Shutdown *)

Lemma control_listen s s' : control_part s' = control_part s -> listen_part s' = listen_part s.
Proof. unfold control_part, listen_part. congruence. Qed.

Lemma listener_ok_ext s s' : listen_part s' = listen_part s -> listener_ok s -> listener_ok s'.
Proof. unfold listen_part, listener_ok. intros [= -> ->]. auto. Qed.

Lemma goto_keeps_listen me p : keeps listen_part (goto me p).
Proof.
  unfold goto. apply keeps_modify. intros s. destruct (handlers s !! me); reflexivity.
Qed.

Lemma sendall_keeps_listen conn data : keeps listen_part (sendall conn data).
Proof. intros s. apply control_listen, sendall_keeps_control. Qed.

Lemma close_keeps_listen conn : keeps listen_part (close conn).
Proof. intros s. apply control_listen, close_keeps_control. Qed.

Lemma read_line_keeps_listen l conn : keeps listen_part (read_line l conn).
Proof. intros s. apply control_listen, read_line_keeps_control. Qed.

Lemma session_enter_keeps_listen addr : keeps listen_part (session_enter addr).
Proof. unfold session_enter. keeps_tac. Qed.

Lemma finally_stop_keeps_listen dj : keeps listen_part (finally_stop dj).
Proof. unfold finally_stop. keeps_tac. Qed.

Lemma handler_step_keeps_listen me r dj : keeps listen_part (handler_step me r dj).
Proof.
  unfold handler_step, finally_clear. cbn [map session_except].
  keeps_tac;
    first [ apply goto_keeps_listen | apply session_enter_keeps_listen
          | apply read_line_keeps_listen | apply finally_stop_keeps_listen
          | apply close_keeps_listen ].
Qed.

Lemma accepted_keeps_listen conn : keeps listen_part (accepted conn).
Proof.
  unfold accepted. keeps_tac; first [apply close_keeps_listen|apply sendall_keeps_listen].
Qed.

Lemma peer_connect_ok a link s :
  listener_ok s -> listener_ok (state_of (peer_connect a link s)).
Proof.
  unfold listener_ok, peer_connect. intros Hok. server_cases; cbn; auto.
  all: repeat match goal with
         | E : _ && _ = true |- _ => apply andb_prop in E; destruct E
         | E : negb _ = true |- _ => apply negb_true_iff in E
         end; auto; try congruence.
Qed.

Lemma _listen_worker_ok s : listener_ok s -> listener_ok (state_of (_listen_worker s)).
Proof.
  intros Hok. unfold _listen_worker. rewrite bind_gets.
  destruct (_listen_thread s) as [[| | |conn|]|] eqn:Hl; try exact Hok.
  - unfold listener_ok. server_cases; cbn; auto.
  - unfold listener_ok in *. rewrite Hl in Hok. server_cases; cbn; auto.
  - pose proof (accepted_keeps_listen conn s) as Hk. unfold bind.
    destruct (accepted conn s) as [[[[]|e] s1] t1]; cbn in Hk; injection Hk as Ht Hlt;
      unfold listener_ok in *; rewrite Hl in Hok; server_cases; cbn;
      try rewrite Ht; auto; congruence.
Qed.

Lemma wake_up_run s :
  try_except wake_up [([Exception], fun _ => ret tt)] s
  = (OK tt, issue_wake_up s, [Waited "s.connect" 500]).
Proof.
  unfold issue_wake_up, try_except. server_cases; reflexivity.
Qed.

(** The wake-up connection leaves [running] and the threads alone,
    and hands a listen thread blocked on a listening socket its
    connection. *)
Lemma issue_wake_up_facts s :
  running (issue_wake_up s) = running s
  /\ handlers (issue_wake_up s) = handlers s
  /\ _client_handler_thread (issue_wake_up s) = _client_handler_thread s
  /\ (_listen_thread s <> Some L_accepting ->
      _listen_thread (issue_wake_up s) = _listen_thread s)
  /\ (_listen_thread s = Some L_accepting ->
      listening (tcp_socket s) = true -> sock_closed (tcp_socket s) = false ->
      _listen_thread (issue_wake_up s) = Some (L_accepted (length (sockets s)))
      /\ exists a, sockets (issue_wake_up s) = sockets s ++ [mkConn a "" false false]).
Proof.
  unfold issue_wake_up, try_except. server_cases; cbn; repeat split; auto;
    try congruence; intros; try congruence; try (split; eauto; fail).
  all: try (eexists; reflexivity).
  all: exfalso;
    match goal with
    | E : listening _ && negb (sock_closed _) = false, E1 : listening _ = true,
      E2 : sock_closed _ = false |- _ => rewrite E1, E2 in E; discriminate
    end.
Qed.

(** [stop()] on a server that is not running. *)
Lemma stop_idle during_join s :
  running s = false ->
  stop during_join s = (OK tt, s, [Logged WARNING "Server is not running."]).
Proof.
  intros Hr. unfold stop. cbn [stop_step].
  cbv beta delta [bind gets]. cbn. rewrite Hr. reflexivity.
Qed.

Lemma stop_run during_join s :
  running s = true ->
  exists joins,
    Forall is_join joins /\ (length joins <= 2)%nat
    /\ stop during_join s
       = (OK tt,
          close_listener (issue_wake_up (stop_video during_join (clear_running s))),
          Logged INFO "Stopping TCP Server..."
            :: trace_of (VideoStreamer.stop during_join (video_streamer s))
            ++ Waited "s.connect" 500
            :: joins ++ [Logged INFO "TCP Server stopped."]).
Proof.
  intros Hr. unfold stop. cbn [stop_step].
  unfold close_listener, stop_video, clear_running.
  destruct (stop_stops during_join (video_streamer s)) as (Hv & _ & _).
  destruct (VideoStreamer.stop during_join (video_streamer s)) as [[rv v'] trv] eqn:Ev.
  cbn in Hv. subst rv.
  remember (set_video_streamer v' (set_running false s)) as s1 eqn:Es1.
  exists ((if _listen_thread (issue_wake_up s1) is Some _
           then [Waited "self._listen_thread.join" 2000] else [])
          ++ (if _client_handler_thread (issue_wake_up s1) is Some _
              then [Waited "self._client_handler_thread.join" 2000] else [])).
  split; [|split].
  - apply Forall_app. split.
    + destruct (_listen_thread _); repeat constructor. eexists. reflexivity.
    + destruct (_client_handler_thread _); repeat constructor. eexists. reflexivity.
  - rewrite length_app.
    destruct (_listen_thread _); destruct (_client_handler_thread _); cbn; lia.
  - cbv beta delta [bind gets]. cbn. rewrite Hr. cbn.
    cbv beta delta [bind logging emit modify zoom gets ret]. cbn.
    rewrite Ev. cbn. rewrite <- Es1.
    cbv beta delta [bind]. rewrite !wake_up_run. cbn.
    destruct (_listen_thread (issue_wake_up s1)) eqn:El;
      destruct (_client_handler_thread (issue_wake_up s1)) eqn:Eh;
      repeat (cbv beta delta [bind logging emit modify zoom gets ret]; cbn;
              rewrite ?Eh, ?El);
      rewrite <- ?app_assoc; reflexivity.
Qed.

Lemma stop_ok during_join s : listener_ok s -> listener_ok (state_of (stop during_join s)).
Proof.
  intros Hok. destruct (running s) eqn:Hr.
  2: { rewrite stop_idle by exact Hr. exact Hok. }
  destruct (stop_run during_join s Hr) as (joins & _ & _ & E). rewrite E. cbn [state_of fst snd].
  set (s1 := stop_video during_join (clear_running s)).
  assert (Ht : tcp_socket s1 = tcp_socket s) by reflexivity.
  assert (Hl : _listen_thread s1 = _listen_thread s) by reflexivity.
  destruct (issue_wake_up_facts s1) as (_ & _ & _ & Hne & Heq).
  unfold listener_ok in Hok. unfold listener_ok, close_listener. cbn.
  destruct (_listen_thread s) as [[]|] eqn:Hs.
  3: { destruct Hok as [Ha Hb]. rewrite <- Ht in Ha, Hb.
       destruct (Heq Hl Ha Hb) as [Hacc _]. rewrite Hacc. discriminate. }
  all: rewrite Hne by (rewrite Hl; discriminate); rewrite Hl; try exact I; discriminate.
Qed.

Lemma start_ok s : listener_ok s -> listener_ok (state_of (start s)).
Proof. unfold listener_ok. intros Hok. server_cases; cbn; auto. Qed.

Lemma step_ok e s : listener_ok s -> listener_ok (state_of (step e s)).
Proof.
  intros Hok. destruct e as [|dj|a link|conn| |tid r dj|e]; cbn [step].
  - apply start_ok, Hok.
  - apply stop_ok, Hok.
  - pose proof (peer_connect_ok a link s Hok) as Hp. unfold bind.
    destruct (peer_connect a link s) as [[[b|x] s1] t1]; exact Hp.
  - eapply listener_ok_ext; [|exact Hok]. unfold hangup, modify. cbn.
    destruct (sockets s !! conn); reflexivity.
  - apply _listen_worker_ok, Hok.
  - eapply listener_ok_ext; [apply handler_step_keeps_listen|exact Hok].
  - eapply listener_ok_ext; [|exact Hok]. apply (keeps_zoom listen_part). reflexivity.
Qed.

Lemma run_ok es s : listener_ok s -> listener_ok (run es s).
Proof.
  revert s. induction es as [|e es IH]; intros s Hok; [exact Hok|].
  cbn. apply IH, step_ok, Hok.
Qed.

Lemma init_ok tb v h p1 p2 : listener_ok (init tb v h p1 p2).
Proof. exact I. Qed.

Lemma wait_budget_logged lvl msg tr : wait_budget (Logged lvl msg :: tr) = wait_budget tr.
Proof. reflexivity. Qed.

Lemma wait_budget_waited what ms tr : wait_budget (Waited what ms :: tr) = ms + wait_budget tr.
Proof. reflexivity. Qed.

Lemma joins_budget joins : Forall is_join joins -> wait_budget joins = 2000 * Z.of_nat (length joins).
Proof.
  induction 1 as [|e joins [w ->] _ IH]; [reflexivity|].
  unfold wait_budget in *. cbn [fold_right]. rewrite IH.
  change (length (Waited w 2000 :: joins)) with (S (length joins)). lia.
Qed.

Lemma accepted_shutdown conn s :
  running s = false -> accepted conn s = (OK Break, state_of (close conn s), []).
Proof.
  intros Hr. unfold accepted, try_except. rewrite bind_gets, Hr. cbn [negb].
  unfold bind. rewrite close_run. reflexivity.
Qed.

(** A listen thread handed a connection after [running] was cleared
    closes it and returns. *)
Lemma woken_listener_returns conn s :
  _listen_thread s = Some (L_accepted conn) -> running s = false ->
  let s' := state_of (_listen_worker s) in
  _listen_thread s' = Some L_dead
  /\ handlers s' = handlers s
  /\ _client_handler_thread s' = _client_handler_thread s.
Proof.
  intros Hl Hr. cbv zeta. unfold _listen_worker. rewrite bind_gets, Hl.
  rewrite (bind_OK _ _ _ _ _ _ (accepted_shutdown conn s Hr)). cbn.
  pose proof (close_keeps_threads conn s) as Hk. injection Hk as Hh Hs. auto.
Qed.

(** *** [stop()] among the other threads *)

Lemma control_running s s' : control_part s' = control_part s -> running s' = running s.
Proof. unfold control_part. congruence. Qed.

Lemma accepted_keeps_running conn : keeps running (accepted conn).
Proof.
  unfold accepted. keeps_tac; intros s;
    first [apply control_running, close_keeps_control
          |apply control_running, sendall_keeps_control].
Qed.

Lemma _listen_worker_keeps_running : keeps running _listen_worker.
Proof.
  unfold _listen_worker. keeps_tac;
    first [apply accepted_keeps_running|unfold leave_loop, set_listener; keeps_tac].
Qed.

Lemma handler_step_keeps_running me r dj : keeps running (handler_step me r dj).
Proof.
  assert (Hf : forall A (m : M t A), keeps frame_part m -> keeps running m).
  { intros A m Hm s. specialize (Hm s). unfold frame_part in Hm. congruence. }
  assert (Hg : forall p, keeps running (goto me p)).
  { intros p. unfold goto. apply keeps_modify. intros s.
    destruct (handlers s !! me); reflexivity. }
  unfold handler_step, finally_clear. cbn [map session_except].
  keeps_tac;
    first [ apply Hg | apply Hf, session_enter_keeps_frame
          | apply Hf, read_line_keeps_frame | apply Hf, close_keeps_frame
          | unfold finally_stop; keeps_tac ].
Qed.

Lemma handler_step_handlers me r dj s :
  length (handlers (state_of (handler_step me r dj s))) = length (handlers s).
Proof.
  pose proof (handler_step_threads me r dj s) as Ht. cbv zeta in Ht.
  destruct (handlers s !! me) as [h|].
  - destruct Ht as (p & -> & _). apply length_insert.
  - unfold threads_part in Ht. congruence.
Qed.

(** No thread but the caller of [start()] and [stop()] writes
    [running] or closes the listening endpoint. *)
Lemma thread_step_running e s :
  of_threads (Meanwhile e) -> running (state_of (step e s)) = running s.
Proof.
  destruct e as [|dj|a link|conn| |tid r dj|e]; cbn [of_threads step]; intros Ho;
    try contradiction.
  - unfold peer_connect. server_cases; reflexivity.
  - unfold hangup, modify. cbn. destruct (sockets s !! conn); reflexivity.
  - apply _listen_worker_keeps_running.
  - apply handler_step_keeps_running.
  - apply (keeps_zoom running). reflexivity.
Qed.

Lemma _listen_worker_closed s :
  sock_closed (tcp_socket (state_of (_listen_worker s))) = sock_closed (tcp_socket s).
Proof.
  unfold _listen_worker. rewrite bind_gets.
  destruct (_listen_thread s) as [[| | |conn|]|] eqn:Hl; try reflexivity.
  - server_cases; cbn; congruence.
  - server_cases; cbn; congruence.
  - pose proof (accepted_keeps_listen conn s) as Hk. unfold listen_part in Hk.
    injection Hk as Hk _. unfold bind.
    destruct (accepted conn s) as [[[[]|e] s1] t1]; cbn in *; congruence.
Qed.

Lemma thread_step_closed e s :
  of_threads (Meanwhile e) ->
  sock_closed (tcp_socket (state_of (step e s))) = sock_closed (tcp_socket s).
Proof.
  destruct e as [|dj|a link|conn| |tid r dj|e]; cbn [of_threads step]; intros Ho;
    try contradiction.
  - unfold peer_connect. server_cases; reflexivity.
  - unfold hangup, modify. cbn. destruct (sockets s !! conn); reflexivity.
  - apply _listen_worker_closed.
  - pose proof (handler_step_keeps_listen tid r dj s) as Hk. unfold listen_part in Hk.
    congruence.
  - unfold zoom. destruct (VideoStreamer.run_event e (video_streamer s)) as [[r v] tr].
    reflexivity.
Qed.

(** Once [running] is cleared the listen thread creates no handler
    thread and does not go back to [accept()]. *)
Lemma _listen_worker_stopping s :
  running s = false ->
  length (handlers (state_of (_listen_worker s))) = length (handlers s)
  /\ (_listen_thread s <> Some L_accepting ->
      _listen_thread (state_of (_listen_worker s)) <> Some L_accepting).
Proof.
  intros Hr. unfold _listen_worker. rewrite bind_gets.
  destruct (_listen_thread s) as [[| | |conn|]|] eqn:Hl.
  - server_cases; cbn; split; try reflexivity; intros _; rewrite ?Hl; discriminate.
  - rewrite bind_gets, Hr. cbn. split; [reflexivity|discriminate].
  - cbn. split; [reflexivity|intros Hn; rewrite Hl; exact Hn].
  - rewrite (bind_OK _ _ _ _ _ _ (accepted_shutdown conn s Hr)). cbn.
    pose proof (close_keeps_threads conn s) as Hk. injection Hk as Hh _.
    rewrite Hh. split; [reflexivity|discriminate].
  - cbn. split; [reflexivity|intros _; rewrite Hl; discriminate].
  - cbn. split; [reflexivity|intros _; rewrite Hl; discriminate].
Qed.

Lemma thread_step_stopping s0 pc e s :
  of_threads (Meanwhile e) -> stopping s0 pc s -> stopping s0 pc (state_of (step e s)).
Proof.
  intros Ho (Hok & Hr & Hh & Hopen & Hw & Hc).
  split; [apply step_ok, Hok|].
  split; [rewrite thread_step_running by exact Ho; exact Hr|].
  assert (Hq : length (handlers (state_of (step e s))) = length (handlers s)
               /\ (_listen_thread s <> Some L_accepting ->
                   _listen_thread (state_of (step e s)) <> Some L_accepting)).
  { destruct e as [|dj|a link|conn| |tid r dj|e]; cbn [of_threads step] in *;
      try contradiction.
    - unfold peer_connect. server_cases; cbn; split; try reflexivity; intros Hn;
        congruence.
    - unfold hangup, modify. cbn. destruct (sockets s !! conn); auto.
    - apply _listen_worker_stopping, Hr.
    - pose proof (handler_step_keeps_listen tid r dj s) as Hk. unfold listen_part in Hk.
      injection Hk as _ Hk. rewrite Hk. split; [apply handler_step_handlers|auto].
    - unfold zoom. destruct (VideoStreamer.run_event e (video_streamer s)) as [[r v] tr].
      cbn. auto. }
  destruct Hq as [Hq1 Hq2].
  split; [congruence|].
  rewrite thread_step_closed by exact Ho. auto.
Qed.

Lemma issue_wake_up_ok s : listener_ok s -> listener_ok (issue_wake_up s).
Proof.
  unfold listener_ok, issue_wake_up, try_except. intros Hok. server_cases; cbn; auto.
  all: repeat match goal with
         | E : _ && _ = true |- _ => apply andb_prop in E; destruct E
         | E : negb _ = true |- _ => apply negb_true_iff in E
         end; auto; try congruence.
Qed.

Lemma issue_wake_up_closed_same s :
  sock_closed (tcp_socket (issue_wake_up s)) = sock_closed (tcp_socket s).
Proof. unfold issue_wake_up, try_except. server_cases; reflexivity. Qed.

(** A statement of [stop()] past the first returns, moves to the next
    statement, and keeps what holds of a server that is stopping. *)
Lemma stop_step_stopping dj s0 pc s :
  pc <> S_entry -> stopping s0 pc s ->
  exists pc' tr,
    stop_step dj pc s = (OK pc', state_of (stop_step dj pc s), tr)
    /\ statements_left pc' = pred (statements_left pc)
    /\ stopping s0 pc' (state_of (stop_step dj pc s))
    /\ 0 <= wait_budget tr
    /\ wait_budget tr + budget_left pc' <= budget_left pc
    /\ (closed_endpoint pc -> state_of (stop_step dj pc s) = s).
Proof.
  intros Hne (Hok & Hr & Hh & Hopen & Hw & Hc).
  unfold woke, closed_endpoint in Hopen, Hw, Hc.
  assert (Hjoin : forall what, wait_budget [Waited what 2000] = 2000) by reflexivity.
  assert (Hnil : wait_budget [] = 0) by reflexivity.
  destruct pc; [contradiction| | | | | |]; cbn [stop_step statements_left] in *.
  - destruct (stop_stops dj (video_streamer s)) as (Hv & _ & Hb).
    unfold bind, zoom.
    destruct (VideoStreamer.stop dj (video_streamer s)) as [[rv v'] trv].
    cbn in Hv, Hb. subst rv. cbn.
    exists S_wake_up, (trv ++ []). rewrite app_nil_r.
    split; [reflexivity|]. split; [reflexivity|].
    split; [|cbn; repeat split; first [lia|intros Hx; exfalso; unfold closed_endpoint in Hx; cbn in Hx; lia]].
    repeat split; try assumption; unfold woke, closed_endpoint; cbn [statements_left];
      first [intros Hx; exfalso; lia|intros Hx; apply Hopen; lia].
  - rewrite (bind_OK _ _ _ _ _ _ (wake_up_run s)). cbn.
    destruct (issue_wake_up_facts s) as (W1 & W2 & W3 & W4 & W5).
    exists S_close, [Waited "s.connect" 500].
    split; [reflexivity|]. split; [reflexivity|].
    split; [|cbn; repeat split; first [unfold wait_budget; cbn; lia|intros Hx; exfalso; unfold closed_endpoint in Hx; cbn in Hx; lia]].
    split; [apply issue_wake_up_ok, Hok|].
    split; [congruence|]. split; [congruence|].
    unfold woke, closed_endpoint; cbn [statements_left].
    split; [intros _; rewrite issue_wake_up_closed_same; apply Hopen; lia|].
    split; [|intros Hx; exfalso; lia].
    intros _. destruct (_listen_thread s) as [[]|] eqn:Hl;
      try (rewrite W4 by discriminate; discriminate).
    unfold listener_ok in Hok. rewrite Hl in Hok. destruct Hok as [Ha Hb].
    destruct (W5 eq_refl Ha Hb) as [-> _]. discriminate.
  - cbv beta delta [bind modify ret]. cbn.
    exists S_join_listener, []. split; [reflexivity|]. split; [reflexivity|].
    split; [|cbn; repeat split; first [lia|intros Hx; exfalso; unfold closed_endpoint in Hx; cbn in Hx; lia]].
    assert (Hn : _listen_thread s <> Some L_accepting) by (apply Hw; lia).
    split.
    { unfold listener_ok in *. cbn.
      destruct (_listen_thread s) as [[]|]; try exact I; try discriminate; congruence. }
    unfold woke, closed_endpoint; cbn.
    repeat split; try assumption;
      first [intros Hx; exfalso; lia|intros _; exact Hn|intros _; reflexivity].
  - cbv beta delta [bind gets emit ret]. cbn.
    destruct (_listen_thread s) as [l|] eqn:Hl; cbn;
      [exists S_join_handler, [Waited "self._listen_thread.join" 2000]
      |exists S_join_handler, []];
      (split; [reflexivity|]); (split; [reflexivity|]);
      (split; [|cbn; rewrite ?Hjoin, ?Hnil; repeat split; first [lia|reflexivity]]);
      (split; [exact Hok|]); (split; [exact Hr|]); (split; [exact Hh|]);
      unfold woke, closed_endpoint; cbn [statements_left];
      (split; [intros Hx; exfalso; lia|]);
      (split; [intros _; rewrite Hl; apply Hw; lia|intros _; apply Hc; lia]).
  - cbv beta delta [bind gets emit ret logging]. cbn.
    destruct (_client_handler_thread s) as [h|] eqn:Hl; cbn;
      [exists S_returned,
         [Waited "self._client_handler_thread.join" 2000; Logged INFO "TCP Server stopped."]
      |exists S_returned, [Logged INFO "TCP Server stopped."]];
      (split; [reflexivity|]); (split; [reflexivity|]);
      (split; [|cbn; rewrite ?wait_budget_waited, ?wait_budget_logged, ?Hnil;
                repeat split; first [lia|reflexivity]]);
      (split; [exact Hok|]); (split; [exact Hr|]); (split; [exact Hh|]);
      unfold woke, closed_endpoint; cbn [statements_left];
      (split; [intros Hx; exfalso; lia|]);
      (split; [intros _; apply Hw; lia|intros _; apply Hc; lia]).
  - exists S_returned, []. cbn.
    split; [reflexivity|]. split; [reflexivity|].
    split; [|rewrite Hnil; repeat split; first [lia|reflexivity]].
    split; [exact Hok|]. split; [exact Hr|]. split; [exact Hh|].
    unfold woke, closed_endpoint; cbn [statements_left].
    split; [intros Hx; exfalso; lia|].
    split; [intros _; apply Hw; lia|intros _; apply Hc; lia].
Qed.

Lemma statements_cons_statement es : statements (Statement :: es) = S (statements es).
Proof. reflexivity. Qed.

Lemma statements_cons_meanwhile e es : statements (Meanwhile e :: es) = statements es.
Proof. reflexivity. Qed.

(** [stop()] past its first statement, whatever the other threads do
    in between. *)
Lemma stop_among_stopping dj s0 es pc s :
  pc <> S_entry -> Forall of_threads es -> stopping s0 pc s ->
  let r := stop_among dj es pc s in
  exists pc',
    result_of r = OK pc'
    /\ statements_left pc' = (statements_left pc - statements es)%nat
    /\ stopping s0 pc' (state_of r)
    /\ 0 <= wait_budget (trace_of r)
    /\ wait_budget (trace_of r) + budget_left pc' <= budget_left pc.
Proof.
  intros Hne Hes. revert pc s Hne.
  induction Hes as [|e es He Hes IH]; intros pc s Hne Hst; cbv zeta.
  - exists pc. cbn. split; [reflexivity|]. split; [lia|]. split; [exact Hst|].
    unfold wait_budget. cbn. lia.
  - destruct e as [|e]; cbn [stop_among].
    + destruct (stop_step_stopping dj s0 pc s Hne Hst)
        as (pc1 & t1 & E1 & Hl1 & Hst1 & Hb0 & Hb1 & _).
      assert (Hne1 : pc1 <> S_entry) by (intros ->; cbn in Hl1; destruct pc; discriminate).
      destruct (IH pc1 _ Hne1 Hst1) as (pc2 & E2 & Hl2 & Hst2 & Hb2 & Hb3).
      unfold bind. rewrite E1.
      destruct (stop_among dj es pc1 (state_of (stop_step dj pc s))) as [[r2 s2] t2].
      cbn [result_of state_of trace_of fst snd] in *. subst r2. exists pc2.
      rewrite wait_budget_app, statements_cons_statement.
      split; [reflexivity|]. split; [lia|]. split; [exact Hst2|]. lia.
    + destruct (IH pc _ Hne (thread_step_stopping s0 pc e s He Hst))
        as (pc2 & E2 & Hl2 & Hst2 & Hb2 & Hb3).
      rewrite statements_cons_meanwhile. unfold bind, modify. cbn [fst snd].
      destruct (stop_among dj es pc (state_of (step e s))) as [[r2 s2] t2].
      cbn [result_of state_of trace_of fst snd app] in *. subst r2. exists pc2.
      split; [reflexivity|]. split; [exact Hl2|]. split; [exact Hst2|]. lia.
Qed.

(** Run without interruption, the statements are [stop()]. *)
Lemma stop_among_uninterrupted dj s :
  stop_among dj uninterrupted S_entry s
  = (OK S_returned, state_of (stop dj s), trace_of (stop dj s)).
Proof.
  unfold uninterrupted, stop. cbn [repeat stop_among stop_step].
  cbv beta delta [bind gets]. cbn.
  destruct (running s) eqn:Hr; cbn; [|reflexivity].
  destruct (stop_stops dj (video_streamer s)) as (Hv & _ & _).
  cbv beta delta [bind logging emit modify zoom gets ret]. cbn.
  destruct (VideoStreamer.stop dj (video_streamer s)) as [[rv v'] trv].
  cbn in Hv. subst rv. cbn.
  remember (set_video_streamer v' (set_running false s)) as s1 eqn:Es1.
  cbv beta delta [bind]. rewrite !wake_up_run. cbn.
  destruct (_listen_thread (issue_wake_up s1)) eqn:El;
    destruct (_client_handler_thread (issue_wake_up s1)) eqn:Eh;
    repeat (cbv beta delta [bind logging emit modify zoom gets ret]; cbn; rewrite ?Eh, ?El);
    rewrite ?app_nil_r; reflexivity.
Qed.

(** C9: from any state the server can reach while running, [stop()]
    returns; it is the sequence of clearing [running], stopping the
    video relay, issuing the wake-up connection and closing the
    listening endpoint, after which it only performs bounded joins;
    its waits add up to at most [stop_grace_ms]; it never leaves the
    listen thread blocked in [accept()], and a listen thread that was
    blocked there returns at its next step without touching the
    sessions.  The order shows when [stop()] runs statement by
    statement among the other threads, whatever they do in between:
    every statement returns; from the first statement on [running] is
    cleared, so no connection that arrives, the wake-up connection
    included, is given a handler thread; until the close statement
    the listening endpoint is as it was, so the wake-up connection is
    made before the close; once it is made no listen thread is blocked
    in [accept()]; and once the endpoint is closed the statements
    that remain change nothing. *)
Theorem stop_bounded_and_wakes tb v host p1 p2 es during_join :
  let s := run es (init tb v host p1 p2) in
  running s = true ->
  (exists joins,
     Forall is_join joins
     /\ stop during_join s
        = (OK tt,
           close_listener (issue_wake_up (stop_video during_join (clear_running s))),
           Logged INFO "Stopping TCP Server..."
             :: trace_of (VideoStreamer.stop during_join (video_streamer s))
             ++ Waited "s.connect" 500
             :: joins ++ [Logged INFO "TCP Server stopped."]))
  /\ wait_budget (trace_of (stop during_join s)) <= stop_grace_ms
  /\ running (state_of (stop during_join s)) = false
  /\ _listen_thread (state_of (stop during_join s)) <> Some L_accepting
  /\ (_listen_thread s = Some L_accepting ->
      let s' := state_of (_listen_worker (state_of (stop during_join s))) in
      _listen_thread s' = Some L_dead
      /\ handlers s' = handlers s
      /\ _client_handler_thread s' = _client_handler_thread s)
  /\ stop_among during_join uninterrupted S_entry s
     = (OK S_returned, state_of (stop during_join s), trace_of (stop during_join s))
  /\ (forall meanwhile, Forall of_threads meanwhile ->
      let r := stop_among during_join (Statement :: meanwhile) S_entry s in
      exists pc,
        result_of r = OK pc
        /\ statements_left pc = (5 - statements meanwhile)%nat
        /\ wait_budget (trace_of r) <= stop_grace_ms
        /\ running (state_of r) = false
        /\ length (handlers (state_of r)) = length (handlers s)
        /\ (~ closed_endpoint pc ->
            sock_closed (tcp_socket (state_of r)) = sock_closed (tcp_socket s))
        /\ (woke pc -> _listen_thread (state_of r) <> Some L_accepting)
        /\ (closed_endpoint pc ->
            sock_closed (tcp_socket (state_of r)) = true
            /\ state_of (stop_step during_join pc (state_of r)) = state_of r)).
Proof.
  cbv zeta. pose proof (run_ok es _ (init_ok tb v host p1 p2)) as Hok.
  generalize dependent (run es (init tb v host p1 p2)). intros s Hok Hr.
  pose proof (stop_ok during_join s Hok) as Hok'.
  destruct (stop_run during_join s Hr) as (joins & Hj & Hlen & E).
  destruct (stop_stops during_join (video_streamer s)) as (_ & _ & Hb).
  destruct (issue_wake_up_facts (stop_video during_join (clear_running s)))
    as (W1 & W2 & W3 & W4 & W5).
  assert (Hrun : running (state_of (stop during_join s)) = false).
  { rewrite E. cbn [state_of fst snd]. unfold close_listener. cbn. rewrite W1. reflexivity. }
  split; [eauto|]. split; [|split; [exact Hrun|split; [|split; [|split]]]].
  - rewrite E. cbn [trace_of snd].
    rewrite wait_budget_logged, wait_budget_app, wait_budget_waited, wait_budget_app,
      (joins_budget joins Hj), wait_budget_logged.
    change (wait_budget []) with 0. unfold stop_grace_ms. lia.
  - intros Hacc. unfold listener_ok in Hok'. rewrite Hacc in Hok'.
    rewrite E in Hok'. cbn in Hok'. destruct Hok' as [_ Hc]. discriminate.
  - intros Hacc. unfold listener_ok in Hok. rewrite Hacc in Hok. destruct Hok as [Ha Hc].
    destruct (W5 Hacc Ha Hc) as [Hl _].
    assert (Hl' : _listen_thread (state_of (stop during_join s))
                  = Some (L_accepted (length (sockets (stop_video during_join (clear_running s)))))).
    { rewrite E. exact Hl. }
    assert (Hh : handlers (state_of (stop during_join s)) = handlers s).
    { rewrite E. cbn [state_of fst snd]. unfold close_listener. cbn. rewrite W2. reflexivity. }
    assert (Hs : _client_handler_thread (state_of (stop during_join s))
                 = _client_handler_thread s).
    { rewrite E. cbn [state_of fst snd]. unfold close_listener. cbn. rewrite W3. reflexivity. }
    destruct (woken_listener_returns _ _ Hl' Hrun) as (L1 & L2 & L3).
    split; [exact L1|]. split; [rewrite <- Hh; exact L2|rewrite <- Hs; exact L3].
  - apply stop_among_uninterrupted.
  - intros meanwhile Hmw.
    assert (E0 : stop_step during_join S_entry s
                 = (OK S_stop_video, set_running false s,
                    [Logged INFO "Stopping TCP Server..."])).
    { cbn [stop_step]. rewrite bind_gets, Hr. reflexivity. }
    assert (Hst : stopping s S_stop_video (set_running false s)).
    { split; [eapply listener_ok_ext; [|exact Hok]; reflexivity|].
      unfold woke, closed_endpoint. cbn.
      repeat split; try reflexivity; intros Hx; exfalso; lia. }
    destruct (stop_among_stopping during_join s meanwhile S_stop_video _
                ltac:(discriminate) Hmw Hst)
      as (pc & Hres & Hleft & (Hok1 & Hr1 & Hh1 & Hopen1 & Hw1 & Hc1) & Hb0 & Hb1).
    assert (Hpc : pc <> S_entry).
    { intros ->. cbn in Hleft. lia. }
    cbn [stop_among]. rewrite (bind_OK _ _ _ _ _ _ E0).
    destruct (stop_among during_join meanwhile S_stop_video (set_running false s))
      as [[r2 s2] t2].
    cbn [result_of state_of trace_of fst snd app] in *. subst r2. exists pc.
    split; [reflexivity|]. split; [exact Hleft|].
    split.
    { rewrite wait_budget_logged. unfold stop_grace_ms.
      assert (0 <= budget_left pc) by (destruct pc; cbn; lia).
      cbn in Hb1. lia. }
    split; [exact Hr1|]. split; [exact Hh1|]. split; [exact Hopen1|].
    split; [exact Hw1|]. intros Hcl. split; [apply Hc1, Hcl|].
    destruct (stop_step_stopping during_join s pc s2 Hpc
                (conj Hok1 (conj Hr1 (conj Hh1 (conj Hopen1 (conj Hw1 Hc1))))))
      as (_ & _ & _ & _ & _ & _ & _ & Hsame).
    apply Hsame, Hcl.
Qed.

End ArbitrationFacts.

(** ** The controller *)

Section Controller.
Context `{PyRuntime} {Image : Type} (imdecode : bytes -> pyresult (option Image)).
Import RobotClient.

Lemma _cleanup_sockets_keeps_video : keeps video_part _cleanup_sockets.
Proof. unfold _cleanup_sockets. keeps_tac. Qed.

Lemma connect_keeps_video tcp udp : keeps video_part (connect tcp udp).
Proof. unfold connect. keeps_tac; apply _cleanup_sockets_keeps_video. Qed.

Lemma disconnect_keeps_video send : keeps video_part (disconnect send).
Proof. unfold disconnect. keeps_tac. Qed.

(** One iteration of the UDP listener leaves [_video_frame] alone or
    stores a datagram that came from [robot_ip]. *)
Lemma _udp_listen_worker_stores r c :
  let c' := state_of (_udp_listen_worker r c) in
  robot_ip c' = robot_ip c
  /\ (_video_frame c' = _video_frame c
      \/ exists data, from_robot (robot_ip c) data (Recv r) /\ _video_frame c' = Some data).
Proof.
  cbv zeta. unfold _udp_listen_worker. rewrite bind_gets.
  destruct (_running c); cbn [negb]; [|split; [reflexivity|left; reflexivity]].
  destruct r as [[data [ip port]]|e].
  - unfold try_except, bind, lift, gets, modify, ret. cbn [fst snd].
    destruct (String.eqb_spec ip (robot_ip c)) as [->|Hne]; cbn.
    + split; [reflexivity|]. right. exists data. split; [exists port|]; reflexivity.
    + split; [reflexivity|left; reflexivity].
  - assert (K : keeps video_part
                  (try_except (x <- lift (Raise e : pyresult (bytes * address)) ;;
                               ip <- gets robot_ip ;;
                               (if fst (snd x) == ip
                                then modify (set__video_frame (Some (fst x)))
                                else ret tt) ;;
                               ret true)
                     [ ([SocketTimeout], fun _ => ret true);
                       ([Exception], fun _ =>
                          run' <- gets _running ;;
                          (if run' then logging ERROR "UDP receive error: {e}" else ret tt) ;;
                          ret false) ])).
    { apply keeps_try_except.
      - intros c0. reflexivity.
      - repeat (constructor; [intros ?; cbn [snd]; keeps_tac|]). constructor. }
    specialize (K c). injection K as K1 K2. auto.
Qed.

Lemma step_stores e c :
  let c' := state_of (step e c) in
  robot_ip c' = robot_ip c
  /\ (_video_frame c' = _video_frame c
      \/ exists data, from_robot (robot_ip c) data e /\ _video_frame c' = Some data).
Proof.
  cbv zeta. destruct e as [tcp udp|send|r]; cbn [step].
  - assert (K : keeps video_part (connect tcp udp ;; ret tt))
      by (keeps_tac; apply connect_keeps_video).
    specialize (K c). injection K as K1 K2. auto.
  - pose proof (disconnect_keeps_video send c) as K. injection K as K1 K2. auto.
  - destruct (_udp_listen_worker_stores r c) as [K1 K2].
    assert (E : state_of ((_udp_listen_worker r ;; ret tt) c)
                = state_of (_udp_listen_worker r c)).
    { unfold bind. destruct (_udp_listen_worker r c) as [[[b|x] c1] t1]; reflexivity. }
    rewrite E. auto.
Qed.

Lemma run_stores es c :
  robot_ip (run es c) = robot_ip c
  /\ forall data, _video_frame (run es c) = Some data ->
       _video_frame c = Some data \/ Exists (from_robot (robot_ip c) data) es.
Proof.
  revert c. induction es as [|e es IH]; intros c; [cbn; auto|].
  cbn [run]. destruct (IH (state_of (step e c))) as [I1 I2].
  destruct (step_stores e c) as [S1 S2]. cbv zeta in S1, S2.
  split; [congruence|]. intros data Hd.
  destruct (I2 data Hd) as [Hs|Hex].
  - destruct S2 as [S2|(d & Hfrom & S2)].
    + left. congruence.
    + right. apply Exists_cons_hd. congruence.
  - right. apply Exists_cons_tl. rewrite <- S1. exact Hex.
Qed.

Lemma init_stored ip p1 p2 es : stored_from_robot ip es (run es (init ip p1 p2)).
Proof.
  intros data Hd. destruct (run_stores es (init ip p1 p2)) as [_ Hs].
  destruct (Hs data Hd) as [Hn|Hex]; [discriminate|exact Hex].
Qed.

(** [get_latest_frame] as a function of what [_video_frame] holds. *)
Lemma get_latest_frame_run c :
  get_latest_frame imdecode c
  = match _video_frame c with
    | Some data =>
        if truthy_str (Some data) then
          match imdecode data with
          | OK img => (OK img, c, [])
          | Raise e =>
              (OK None, c, [Logged WARNING "Failed to decode JPEG frame: {e}"])
          end
        else (OK None, c, [])
    | None => (OK None, c, [])
    end.
Proof.
  unfold get_latest_frame. rewrite bind_gets.
  destruct (_video_frame c) as [data|]; [|reflexivity].
  destruct (truthy_str (Some data)); [|reflexivity].
  change (default "" (Some data)) with data.
  unfold try_except, bind, lift. destruct (imdecode data) as [img|e]; [reflexivity|].
  reflexivity.
Qed.

(** C10: [get_latest_frame] returns in every state and changes
    nothing; while no datagram is stored, and whenever the decoder
    gives no image for the stored one, it returns [None]; and in a
    state the controller can reach it returns an image only when a
    datagram from the robot's address has arrived and is stored, the
    image being what the decoder makes of that datagram. *)
Theorem get_latest_frame_never_raises ip p1 p2 es :
  (forall c, exists img,
      result_of (get_latest_frame imdecode c) = OK img
      /\ state_of (get_latest_frame imdecode c) = c)
  /\ (forall c, _video_frame c = None -> get_latest_frame imdecode c = (OK None, c, []))
  /\ (forall c data, _video_frame c = Some data -> decode_fails imdecode data ->
        result_of (get_latest_frame imdecode c) = OK None)
  /\ let c := run es (init ip p1 p2) in
     (~ (exists data, Exists (from_robot ip data) es) ->
        get_latest_frame imdecode c = (OK None, c, []))
     /\ forall img, result_of (get_latest_frame imdecode c) = OK (Some img) ->
          exists data, Exists (from_robot ip data) es
                       /\ _video_frame c = Some data
                       /\ imdecode data = OK (Some img).
Proof.
  split; [|split; [|split]].
  - intros c. rewrite get_latest_frame_run.
    destruct (_video_frame c) as [data|]; [|eexists; split; reflexivity].
    destruct (truthy_str (Some data)); [|eexists; split; reflexivity].
    destruct (imdecode data) as [img|e]; eexists; split; reflexivity.
  - intros c Hn. rewrite get_latest_frame_run, Hn. reflexivity.
  - intros c data Hd Hf. rewrite get_latest_frame_run, Hd.
    destruct (truthy_str (Some data)); [|reflexivity].
    destruct Hf as [-> |[e ->]]; reflexivity.
  - cbv zeta. pose proof (init_stored ip p1 p2 es) as Hs. unfold stored_from_robot in Hs.
    split.
    + intros Hno. rewrite get_latest_frame_run.
      destruct (_video_frame (run es (init ip p1 p2))) as [data|] eqn:Hd; [|reflexivity].
      exfalso. apply Hno. exists data. apply Hs. reflexivity.
    + intros img. rewrite get_latest_frame_run.
      destruct (_video_frame (run es (init ip p1 p2))) as [data|] eqn:Hd; [|discriminate].
      destruct (truthy_str (Some data)); [|discriminate].
      destruct (imdecode data) as [img'|e] eqn:Hi; [|discriminate].
      cbn. intros [= ->]. exists data. auto.
Qed.

End Controller.

(** * The statements on concrete inputs *)

Section Examples.
Import CommandServer.

(** Connection 0 of [in_session] can be written to. *)
Lemma in_session_writable : writable 0 in_session.
Proof. exists (mkConn client_a "" false true). repeat split. Qed.

(** C4 on a line a controller sends: the reply is [pong_reply] and the
    session goes on. *)
Lemma ping_replies_pong_witness :
  _parse_command ping_line 0 in_session = (OK true, wrote 0 pong_reply in_session, []).
Proof.
  apply (ping_replies_pong ping_line 0 in_session (JObj [("action", JStr "ping")])).
  - vm_compute. reflexivity.
  - exists [("action", JStr "ping")], "ping". repeat split.
  - exact in_session_writable.
Defined.

(** C4 as the specification words it fails: the bytes sent have a
    space after the colon. *)
Lemma ping_reply_is_not_as_specified :
  sent <$> sockets (state_of (_parse_command ping_line 0 in_session)) !! 0%nat
  = Some pong_reply
  /\ pong_reply <> pong_reply_as_specified.
Proof. split; [vm_compute; reflexivity|discriminate]. Qed.

(** A line that is no JSON: the dispatcher logs and the session goes
    on, with nothing written. *)
Lemma malformed_line_continues_witness :
  exists lvl msg,
    _parse_command garbage_line 0 in_session = (OK true, in_session, [Logged lvl msg]).
Proof.
  apply (malformed_line_continues garbage_line 0 in_session).
  assert (E : json_loads garbage_line = Raise JSONDecodeError) by (vm_compute; reflexivity).
  rewrite E. apply invalid_syntax.
Defined.

(** C2 fails on lines the clause for bad commands (lines 120-122,
    "Continue, bad command format") is written for and misses: a
    colour too large for [int()], an action that is [null] or a
    number, and a message that is an array each make the dispatcher
    return [False], which ends the session, while a colour that is
    not a number and a speed that is [null] are caught by that clause
    and the session goes on. *)
Lemma wrong_typed_message_ends_session :
  result_of (_parse_command huge_red_line 0 in_session) = OK false
  /\ result_of (_parse_command nan_red_line 0 in_session) = OK true
  /\ result_of (_parse_command null_action_line 0 in_session) = OK false
  /\ result_of (_parse_command null_speed_line 0 in_session) = OK true
  /\ json_loads number_action_line = OK (JObj [("action", JInt 5)])
  /\ result_of (_parse_command number_action_line 0 in_session) = OK false
  /\ json_loads array_line = OK (JArr [])
  /\ result_of (_parse_command array_line 0 in_session) = OK false.
Proof. repeat split; vm_compute; reflexivity. Qed.


(** C5 on a session that reads [exit]: the dispatcher says stop, the
    handler stops the video relay, closes the connection and clears
    the slot. *)
Lemma exit_ends_session_and_frees_slot_witness :
  _parse_command exit_line 0 client_accepted
  = (OK false, client_accepted, [Logged INFO "Client requested exit."])
  /\ is_closed 0 (state_of (_handle_client 0 client_a [Line exit_line] [] client_accepted))
  /\ _client_handler_thread
       (state_of (_handle_client 0 client_a [Line exit_line] [] client_accepted))
     = None.
Proof.
  destruct (exit_ends_session_and_frees_slot exit_line 0 client_a [Line exit_line] []
              client_accepted) as (Hx & _ & _ & Hc & Hs & _).
  split; [|split].
  - apply (Hx (JObj [("action", JStr "exit")])).
    + vm_compute. reflexivity.
    + exists [("action", JStr "exit")], "exit". repeat split.
  - apply (Hc (mkConn client_a "" false true)). reflexivity.
  - exact Hs.
Defined.

(** C1 on a second controller arriving during a session: it gets
    [busy_reply], its connection is closed, and the session is left
    alone. *)
Lemma single_active_session_witness :
  (length (active_sessions in_session) <= 1)%nat
  /\ sockets (state_of (accepted 1 in_session))
     = <[1%nat := mkConn client_b ("" +:+ busy_reply) true true]> (sockets in_session)
  /\ handlers (state_of (accepted 1 in_session)) = handlers in_session.
Proof.
  destruct (single_active_session MockTrilobot VideoStreamer.init "0.0.0.0" 9000 9001
              second_client_arrives) as (H1 & _ & H2).
  split; [exact H1|].
  destruct (H2 1%nat (mkConn client_b "" false true)) as (_ & Hs & Hh & _);
    try reflexivity.
  - exists 0%nat. split; reflexivity.
  - split; [exact Hs|exact Hh].
Defined.

(** C1 as the specification words it fails: the bytes the rejected
    controller gets have a space after the colon. *)
Lemma busy_reply_is_not_as_specified :
  sent <$> sockets (run [Listen] in_session) !! 1%nat = Some busy_reply
  /\ closed <$> sockets (run [Listen] in_session) !! 1%nat = Some true
  /\ busy_reply <> busy_reply_as_specified.
Proof. repeat split; [vm_compute; reflexivity..|discriminate]. Qed.

(** C9 on a server whose listen thread is blocked in [accept()] with
    no controller connecting: [stop()] returns within the grace
    period, and the listen thread returns at its next step; and when
    the listen thread runs between the wake-up connection and the
    close, and a controller tries to connect after the close,
    [stop()] still returns within the grace period, with no handler
    thread created and the endpoint closed. *)
Lemma stop_bounded_and_wakes_witness :
  result_of (stop [] listening_server) = OK tt
  /\ wait_budget (trace_of (stop [] listening_server)) <= stop_grace_ms
  /\ running (state_of (stop [] listening_server)) = false
  /\ _listen_thread (state_of (_listen_worker (state_of (stop [] listening_server))))
     = Some L_dead
  /\ (let r := stop_among [] (Statement :: listener_runs_before_close) S_entry
                 listening_server in
      result_of r = OK S_returned
      /\ wait_budget (trace_of r) <= stop_grace_ms
      /\ running (state_of r) = false
      /\ length (handlers (state_of r)) = 0%nat
      /\ sock_closed (tcp_socket (state_of r)) = true).
Proof.
  destruct (stop_bounded_and_wakes MockTrilobot VideoStreamer.init "0.0.0.0" 9000 9001
              server_listens []) as ((joins & _ & E) & Hb & Hr & _ & Hw & _ & Hamong).
  - vm_compute. reflexivity.
  - split; [|split; [exact Hb|split; [exact Hr|split]]].
    + unfold listening_server, fresh_server. rewrite E. reflexivity.
    + apply Hw. vm_compute. reflexivity.
    + destruct (Hamong listener_runs_before_close) as (pc & Hres & Hleft & Hb' & Hr' & Hh & _ & _ & Hc).
      * repeat constructor.
      * assert (Hpc : pc = S_returned) by (destruct pc; cbn in Hleft; congruence).
        subst pc. cbv zeta. unfold listening_server, fresh_server.
        split; [exact Hres|]. split; [exact Hb'|]. split; [exact Hr'|].
        split; [rewrite Hh; reflexivity|]. apply Hc. unfold closed_endpoint. cbn. lia.
Defined.

End Examples.

Section VideoExamples.
Import VideoStreamer.

(** C6 on a stopped relay: an empty address, and port 0, are refused
    and leave the relay as it was; a second [start] of a running relay
    is refused too. *)
Lemma start_guarded_witness :
  start (Some "") (Some 9001) init
  = (OK tt, init, [Logged ERROR "Target IP and Port must be set to start streaming."])
  /\ start (Some "192.168.1.50") (Some 0) init
     = (OK tt, init, [Logged ERROR "Target IP and Port must be set to start streaming."])
  /\ start (Some "192.168.1.50") (Some 9001) (run_video (relay_reads "F") init)
     = (OK tt, run_video (relay_reads "F") init, [Logged WARNING "Streamer is already running."]).
Proof.
  split; [|split].
  - apply (start_guarded (Some "") (Some 9001) init); [reflexivity|].
    intros [(a & [= <-] & Ha) _]. apply Ha. reflexivity.
  - apply (start_guarded (Some "192.168.1.50") (Some 0) init); [reflexivity|].
    intros [_ (p & [= <-] & Hp)]. apply Hp. reflexivity.
  - apply (start_guarded (Some "192.168.1.50") (Some 9001)). reflexivity.
Defined.

(** C6 as the specification words it fails: a negative port is not
    positive, yet [start] accepts it, sets [running] and creates the
    sender thread. *)
Lemma start_accepts_negative_port :
  ~ port_positive (Some (-1))
  /\ result_of (start (Some "192.168.1.50") (Some (-1)) init) = OK tt
  /\ running (state_of (start (Some "192.168.1.50") (Some (-1)) init)) = true
  /\ target_port (state_of (start (Some "192.168.1.50") (Some (-1)) init)) = Some (-1)
  /\ threads (state_of (start (Some "192.168.1.50") (Some (-1)) init)) = [W_entry].
Proof.
  split; [|repeat split].
  intros (p & [= <-] & Hp). discriminate.
Qed.

(** C7 on two frames published before the sender loop reads: the
    buffer holds the second, and the loop, which reads at the next
    publication, never sees the first. *)
Lemma latest_frame_wins_witness :
  StreamingOutput.frame (output (state_of (run_events [Produce "F1"; Produce "F2"] init)))
  = Some "F2"
  /\ exists obs,
       observed (run_video (relay_reads "F3")
                   (state_of (run_events [Produce "F1"; Produce "F2"] init)))
       = observed init ++ obs
       /\ ~ In (Some "F1") obs.
Proof.
  destruct (latest_frame_wins init "F1" "F2" (relay_reads "F3"))
    as (Hf & _ & _ & _ & obs & Ho & _ & Hn).
  split; [exact Hf|]. exists obs. split; [exact Ho|].
  apply Hn; [discriminate|]. intros [E|[]]. discriminate.
Defined.

Lemma length_filler n : String.length (filler n) = n.
Proof. induction n as [|n IH]; [reflexivity|]. cbn. rewrite IH. reflexivity. Qed.

Lemma oversized_frame_len : len oversized_frame = MAX_UDP_PACKET_SIZE + 1.
Proof.
  unfold len, oversized_frame. rewrite length_filler.
  rewrite Nat2Z.inj_add, Z2Nat.id by (unfold MAX_UDP_PACKET_SIZE; lia). reflexivity.
Qed.

(** After [relay_reads f] the sender loop holds [f] and has sent
    nothing. *)
Lemma relay_reads_holds f :
  threads (run_video (relay_reads f) init) !! 0%nat = Some (W_frame (Some f))
  /\ udp_sent (run_video (relay_reads f) init) = []
  /\ target_ip (run_video (relay_reads f) init) = Some "192.168.1.50"
  /\ target_port (run_video (relay_reads f) init) = Some 9001.
Proof. repeat split. Qed.

(** C8 on a frame of 65508 bytes: the sender loop sends nothing, logs
    the warning and goes on. *)
Lemma oversized_frame_dropped_witness :
  udp_sent (state_of (_stream_worker 0 None (run_video (relay_reads oversized_frame) init)))
  = []
  /\ trace_of (_stream_worker 0 None (run_video (relay_reads oversized_frame) init))
     = [oversize_warning]
  /\ is_alive 0 (state_of (_stream_worker 0 None
                             (run_video (relay_reads oversized_frame) init))) = true.
Proof.
  destruct (oversized_frame_dropped (relay_reads oversized_frame)) as [_ Hdrop].
  destruct (relay_reads_holds oversized_frame) as (Hth & Hsent & Hip & Hport).
  destruct (Hdrop 0%nat oversized_frame None) as (_ & Hu & _ & Ha & _ & Ht).
  - exact Hth.
  - rewrite oversized_frame_len. lia.
  - split; [|split].
    + rewrite Hu. exact Hsent.
    + apply Ht.
      * exists "192.168.1.50". split; [exact Hip|discriminate].
      * exists 9001. split; [exact Hport|discriminate].
    + exact Ha.
Defined.

End VideoExamples.

Section ControllerExamples.
Import RobotClient.

(** C10 before any datagram, after a datagram the decoder cannot
    read, and after one it can. *)
Lemma get_latest_frame_never_raises_witness :
  get_latest_frame one_picture (init "192.168.1.50" 9000 9001)
  = (OK None, init "192.168.1.50" 9000 9001, [])
  /\ result_of (get_latest_frame one_picture
                  (run (controller_receives "junk") (init "192.168.1.50" 9000 9001)))
     = OK None
  /\ exists img,
       result_of (get_latest_frame one_picture
                    (run (controller_receives "JPEG") (init "192.168.1.50" 9000 9001)))
       = OK img.
Proof.
  destruct (get_latest_frame_never_raises one_picture "192.168.1.50" 9000 9001
              (controller_receives "JPEG")) as (Hret & Hnone & Hfail & _).
  split; [|split].
  - apply Hnone. reflexivity.
  - apply (Hfail _ "junk"); [reflexivity|]. left. reflexivity.
  - destruct (Hret (run (controller_receives "JPEG") (init "192.168.1.50" 9000 9001)))
      as (img & Hr & _).
    exists img. exact Hr.
Defined.

End ControllerExamples.

(** * Further properties of the code *)

(** ** Reasoning about what a method may change *)

Lemma append_nil_r (s : string) : s +:+ "" = s.
Proof.
  induction s as [|c s IH]; [reflexivity|].
  change (String c (s +:+ "") = String c s). f_equal. exact IH.
Qed.

Lemma append_assoc (a b c : string) : (a +:+ b) +:+ c = a +:+ b +:+ c.
Proof.
  induction a as [|x a IH]; [reflexivity|].
  change (String x ((a +:+ b) +:+ c) = String x (a +:+ b +:+ c)). f_equal. exact IH.
Qed.

Section Moves.
Context {S : Type} (R : S -> S -> Prop).
Hypothesis R_refl : forall s, R s s.
Hypothesis R_trans : forall s1 s2 s3, R s1 s2 -> R s2 s3 -> R s1 s3.

Lemma moves_ret {A} (a : A) : moves R (ret a).
Proof. intros s. apply R_refl. Qed.

Lemma moves_raise {A} e : moves R (raise (A := A) e).
Proof. intros s. apply R_refl. Qed.

Lemma moves_lift {A} (r : pyresult A) : moves R (lift r).
Proof. intros s. apply R_refl. Qed.

Lemma moves_gets {A} (f : S -> A) : moves R (gets f).
Proof. intros s. apply R_refl. Qed.

Lemma moves_emit e : moves R (emit e).
Proof. intros s. apply R_refl. Qed.

Lemma moves_logging lvl msg : moves R (logging lvl msg).
Proof. intros s. unfold logging. destruct (_ <=? _); apply R_refl. Qed.

Lemma moves_bind {A B} (m : M S A) (k : A -> M S B) :
  moves R m -> (forall a, moves R (k a)) -> moves R (bind m k).
Proof.
  intros Hm Hk s. unfold bind. specialize (Hm s).
  destruct (m s) as [[[a|e] s1] t1]; cbn in *; [|exact Hm].
  specialize (Hk a s1). destruct (k a s1) as [[r s2] t2]. cbn in *. eauto.
Qed.

Lemma moves_try_except {A} (body : M S A) hs :
  moves R body ->
  Forall (fun ch => forall e, moves R (snd ch e)) hs ->
  moves R (try_except body hs).
Proof.
  intros Hb Hhs s. unfold try_except. specialize (Hb s).
  destruct (body s) as [[[a|e] s1] t1]; cbn in *; [exact Hb|].
  destruct (find_handler e hs) as [h|] eqn:Hf; [|exact Hb].
  apply find_handler_In in Hf. destruct Hf as (cs & h0 & Hin & ->).
  rewrite List.Forall_forall in Hhs. specialize (Hhs _ Hin e s1). cbn in Hhs.
  destruct (h0 e s1) as [[r s2] t2]. cbn in *. eauto.
Qed.

Lemma moves_try_finally {A} (body : M S A) fin :
  moves R body -> moves R fin -> moves R (try_finally body fin).
Proof.
  intros Hb Hf s. unfold try_finally. specialize (Hb s).
  destruct (body s) as [[r s1] t1]. specialize (Hf s1).
  destruct (fin s1) as [[[u|e] s2] t2]; cbn in *; eauto.
Qed.

End Moves.

(** One step through a method, for a relation with the proofs [refl]
    and [trans] that it is a preorder. *)
Ltac moves_step refl trans :=
  lazymatch goal with
  | |- moves _ (ret _) => apply (moves_ret _ refl trans)
  | |- moves _ (raise _) => apply (moves_raise _ refl trans)
  | |- moves _ (lift _) => apply (moves_lift _ refl trans)
  | |- moves _ (gets _) => apply (moves_gets _ refl trans)
  | |- moves _ (emit _) => apply (moves_emit _ refl trans)
  | |- moves _ (logging _ _) => apply (moves_logging _ refl trans)
  | |- moves _ (bind _ _) => apply (moves_bind _ refl trans); [|intros]
  | |- moves _ (try_finally _ _) => apply (moves_try_finally _ refl trans)
  | |- moves _ (try_except _ _) =>
      apply (moves_try_except _ refl trans);
      [|repeat (apply List.Forall_cons; [intros ?; cbn [snd]|]);
        try exact (List.Forall_nil _)]
  | |- moves _ (if ?c then _ else _) => destruct c
  | |- moves _ (match ?x with _ => _ end) => destruct x
  end.

(** ** The dispatcher: what it never does *)

Section DispatcherMore.
Context `{PyRuntime}.
Import CommandServer.

Lemma only_writes_to_refl conn s : only_writes_to conn s s.
Proof.
  split; [reflexivity|]. intros c k Hk. exists "". rewrite append_nil_r.
  destruct k. split; [exact Hk|reflexivity].
Qed.

Lemma only_writes_to_trans conn s1 s2 s3 :
  only_writes_to conn s1 s2 -> only_writes_to conn s2 s3 -> only_writes_to conn s1 s3.
Proof.
  intros [L1 H1] [L2 H2]. split; [congruence|].
  intros c k Hk. destruct (H1 c k Hk) as (d1 & Hk1 & E1).
  destruct (H2 c _ Hk1) as (d2 & Hk2 & E2). cbn in Hk2, E2.
  exists (d1 +:+ d2). rewrite <- append_assoc. split; [exact Hk2|].
  intros Hne. rewrite (E1 Hne), (E2 Hne). reflexivity.
Qed.

Lemma sendall_only_writes conn data : moves (only_writes_to conn) (sendall conn data).
Proof.
  intros s. unfold sendall. rewrite bind_gets.
  destruct (sockets s !! conn) as [k|] eqn:Hk; [|apply only_writes_to_refl].
  destruct (closed k) eqn:Hc; [apply only_writes_to_refl|].
  destruct (link_up k) eqn:Hl; [|apply only_writes_to_refl].
  cbn. assert (Hlt : (conn < length (sockets s))%nat) by (apply lookup_lt_is_Some; eauto).
  split; [apply length_insert|].
  intros c k' Hk'. unfold set_sockets. cbn [sockets].
  destruct (Nat.eq_dec c conn) as [->|Hne].
  - exists data. rewrite list_lookup_insert_eq by exact Hlt.
    assert (k' = k) as -> by congruence. rewrite Hc, Hl.
    split; [reflexivity|]. intros Hne. contradiction.
  - exists "". rewrite list_lookup_insert_ne by congruence.
    rewrite append_nil_r. destruct k'. split; [exact Hk'|reflexivity].
Qed.

Lemma call_tbot_only_writes conn c : moves (only_writes_to conn) (call_tbot c).
Proof.
  intros s. split; [reflexivity|]. intros c0 k Hk. exists "". rewrite append_nil_r.
  destruct k. split; [exact Hk|reflexivity].
Qed.

Lemma _parse_command_only_writes line conn :
  moves (only_writes_to conn) (_parse_command line conn).
Proof.
  unfold _parse_command.
  repeat first
    [ apply sendall_only_writes
    | apply call_tbot_only_writes
    | moves_step (only_writes_to_refl conn) (only_writes_to_trans conn) ].
Qed.

(** The actuator's record of calls. *)
Lemma sendall_keeps_calls conn data :
  keeps (fun s => Trilobot.calls (tbot s)) (sendall conn data).
Proof. unfold sendall. keeps_tac. Qed.

Lemma calls_of_keeps {A} n (m : M t A) :
  keeps (fun s => Trilobot.calls (tbot s)) m -> calls_at_most n m.
Proof. intros Hk s. exists []. rewrite app_nil_r. split; [apply Hk|cbn; lia]. Qed.

Lemma calls_bind_pure {A B} n (m : M t A) (k : A -> M t B) :
  keeps (fun s => Trilobot.calls (tbot s)) m ->
  (forall a, calls_at_most n (k a)) -> calls_at_most n (bind m k).
Proof.
  intros Hm Hk s. unfold bind. specialize (Hm s).
  destruct (m s) as [[[a|e] s1] t1]; cbn in *.
  - destruct (Hk a s1) as (cs & E & Hn). destruct (k a s1) as [[r s2] t2]. cbn in *.
    exists cs. rewrite E, Hm. auto.
  - exists []. rewrite app_nil_r. split; [exact Hm|cbn; lia].
Qed.

Lemma calls_bind_last {A B} n (m : M t A) (k : A -> M t B) :
  calls_at_most n m ->
  (forall a, keeps (fun s => Trilobot.calls (tbot s)) (k a)) ->
  calls_at_most n (bind m k).
Proof.
  intros Hm Hk s. unfold bind. destruct (Hm s) as (cs & E & Hn).
  destruct (m s) as [[[a|e] s1] t1]; cbn in *; [|eauto].
  specialize (Hk a s1). destruct (k a s1) as [[r s2] t2]. cbn in *.
  exists cs. rewrite Hk. auto.
Qed.

Lemma call_tbot_one_call c : calls_at_most 1 (call_tbot c).
Proof. intros s. exists [c]. split; [reflexivity|cbn; lia]. Qed.

Lemma calls_try_except {A} n (body : M t A) hs :
  calls_at_most n body ->
  Forall (fun ch => forall e, keeps (fun s => Trilobot.calls (tbot s)) (snd ch e)) hs ->
  calls_at_most n (try_except body hs).
Proof.
  intros Hb Hhs s. unfold try_except. destruct (Hb s) as (cs & E & Hn).
  destruct (body s) as [[[a|e] s1] t1]; cbn in *; [eauto|].
  destruct (find_handler e hs) as [h|] eqn:Hf; [|eauto].
  apply find_handler_In in Hf. destruct Hf as (cs' & h0 & Hin & ->).
  rewrite List.Forall_forall in Hhs. specialize (Hhs _ Hin e s1). cbn in Hhs.
  destruct (h0 e s1) as [[r s2] t2]. cbn in *. exists cs. rewrite Hhs. auto.
Qed.

Ltac calls_step :=
  lazymatch goal with
  | |- calls_at_most _ (bind (call_tbot _) _) =>
      apply calls_bind_last;
      [apply call_tbot_one_call|intros; keeps_tac; try apply sendall_keeps_calls]
  | |- calls_at_most _ (bind (if _ then _ else _) _) =>
      apply calls_bind_last; [|intros; keeps_tac]
  | |- calls_at_most _ (bind _ _) =>
      apply calls_bind_pure; [keeps_tac; try apply sendall_keeps_calls|intros]
  | |- calls_at_most _ (if ?c then _ else _) => destruct c
  | |- calls_at_most _ (match ?x with _ => _ end) => destruct x
  | |- calls_at_most _ _ => apply calls_of_keeps; keeps_tac
  end.

Lemma _parse_command_one_call line conn : calls_at_most 1 (_parse_command line conn).
Proof.
  unfold _parse_command. apply calls_try_except.
  - repeat calls_step.
  - repeat (constructor; [intros e; cbn [snd]; keeps_tac|]). constructor.
Qed.

(** X2: serving a line, the dispatcher never closes a connection and
    never writes to one other than the connection the line came from;
    it leaves the video relay, the listener, the session slot and the
    handler threads as they were; and it makes at most one call on the
    actuator, after the calls made before. *)
Theorem dispatcher_touches_only_its_connection line conn s :
  let s' := state_of (_parse_command line conn s) in
  only_writes_to conn s s'
  /\ control_part s' = control_part s
  /\ exists cs, Trilobot.calls (tbot s') = Trilobot.calls (tbot s) ++ cs
                /\ (length cs <= 1)%nat.
Proof.
  cbv zeta. split; [apply _parse_command_only_writes|].
  split; [apply _parse_command_keeps_control|apply _parse_command_one_call].
Qed.

(** *** The verdict of the dispatcher *)

Lemma says_why_app t1 t2 : says_why t2 -> says_why (t1 ++ t2).
Proof.
  intros (t0 & e & -> & He). exists (t1 ++ t0), e. rewrite app_assoc. auto.
Qed.

Lemma verdict_ret {A} (ok : A -> Prop) a : ok a -> verdict ok (ret a).
Proof. intros Ha s. left. exact Ha. Qed.

Lemma verdict_bind {A B} (ok : B -> Prop) (m : M t A) (k : A -> M t B) :
  (forall a, verdict ok (k a)) -> verdict ok (bind m k).
Proof.
  intros Hk s. unfold bind. destruct (m s) as [[[a|e] s1] t1]; [|exact I].
  specialize (Hk a s1). destruct (k a s1) as [[[b|e] s2] t2]; [|exact I].
  destruct Hk as [Hb|Hw]; [left; exact Hb|right; apply says_why_app, Hw].
Qed.

Lemma verdict_bind_ret {A B} (okA : A -> Prop) (okB : B -> Prop) (m : M t A) (f : A -> B)
    (k : A -> M t B) :
  (forall a s, k a s = (OK (f a), s, [])) ->
  verdict okA m -> (forall a, okA a -> okB (f a)) -> verdict okB (bind m k).
Proof.
  intros Hk Hm Hf s. unfold bind. specialize (Hm s).
  destruct (m s) as [[[a|e] s1] t1]; [|exact I].
  rewrite Hk, app_nil_r. destruct Hm as [Ha|Hw]; [left; auto|right; exact Hw].
Qed.

Ltac verdict_step :=
  lazymatch goal with
  | |- verdict _ (ret _) => apply verdict_ret; discriminate
  | |- verdict _ (bind _ _) => apply verdict_bind; intros
  | |- verdict _ (if ?c then _ else _) => destruct c
  end.

(** The body of the [try] statement returns [False] only after the
    record of the exit request. *)
Lemma _parse_command_verdict line conn :
  verdict (fun b => b = true) (_parse_command line conn).
Proof.
  intros s. unfold _parse_command, try_except.
  match goal with
  | |- context [match ?body s with _ => _ end] =>
      assert (Hbody : verdict (fun b => b = true) body)
  end.
  { do 4 (apply verdict_bind; intros).
    match goal with |- verdict _ (if ?c then _ else _) => destruct c end;
      [apply verdict_bind; intros; apply verdict_ret; reflexivity|].
    apply (verdict_bind_ret (fun r => r <> Some false) _ _
             (fun r => match r with Some b => b | None => true end)).
    - intros [b|] s0; reflexivity.
    - do 11 (match goal with |- verdict _ (if ?c then _ else _) => destruct c end;
             [repeat verdict_step|]).
      match goal with |- verdict _ (if ?c then _ else _) => destruct c end.
      + intros s0. right. exists [], (Logged INFO "Client requested exit.").
        split; [reflexivity|left; reflexivity].
      + repeat verdict_step.
    - intros [[]|] Hr; congruence. }
  specialize (Hbody s).
  match goal with
  | |- context [match ?body s with _ => _ end] =>
      destruct (body s) as [[[b|e] s1] t1]
  end; [exact Hbody|].
  destruct e; cbn; try (left; reflexivity);
    right; eexists t1, _; (split; [reflexivity|right; reflexivity]).
Qed.

(** X1: whatever the line is and whatever the actuator and the
    connection do, no exception escapes the dispatcher: it returns
    [True] or [False]; and it returns [False], which ends the session,
    only when the last record it logged is the exit request or the
    unexpected error. *)
Theorem dispatcher_never_raises line conn s :
  exists b, result_of (_parse_command line conn s) = OK b
            /\ (b = false -> says_why (trace_of (_parse_command line conn s))).
Proof.
  pose proof (_parse_command_verdict line conn s) as Hv.
  destruct (_parse_command_returns line conn s) as [b Hb].
  exists b. split; [exact Hb|]. intros ->.
  destruct (_parse_command line conn s) as [[[b|e] s1] t1]; cbn in *; [|discriminate].
  injection Hb as ->. destruct Hv as [Hv|Hv]; [discriminate|exact Hv].
Qed.

(** *** Replies, values and errors *)

(** Running the dispatcher up to the [if]/[elif] chain. *)
Ltac into_chain Hl Ha :=
  unfold _parse_command, try_except, bind at 1; unfold lift at 1; rewrite Hl;
  cbn; unfold action_of in Ha; rewrite Ha; cbn.

(** Run the primitive methods that evaluation has reached. *)
Ltac run_prims :=
  cbn;
  repeat (progress (cbv beta delta [bind ret raise gets modify lift emit zoom call_tbot
                                    Trilobot.invoke]; cbn)).

(** X3: a [read_distance] message on a connection that can be written
    to makes one call of [read_distance] on the actuator and answers
    with one line: the JSON text of the object with [status]
    ["distance"] and the value the actuator returned, followed by a
    line feed; the session goes on. *)
Theorem read_distance_replies line conn s cmd d text :
  json_loads line = OK cmd ->
  has_action cmd "read_distance" ->
  Trilobot.respond (tbot s) (Trilobot.calls (tbot s)) Trilobot.read_distance = OK d ->
  json_dumps (JObj [("status", JStr "distance"); ("value", d)]) = OK text ->
  writable conn s ->
  _parse_command line conn s
  = (OK true, wrote conn (text +:+ nl) (called Trilobot.read_distance s), []).
Proof.
  intros Hl (kvs & a & -> & Ha & Hlow) Hd Ht Hw.
  into_chain Hl Ha. rewrite Hlow. run_prims. rewrite Hd. run_prims. rewrite Ht. run_prims.
  destruct Hw as (k & Hk & Hc & Hu). rewrite Hk. cbn. rewrite Hc, Hu. cbn.
  unfold wrote, called. cbn. rewrite Hk, Hc, Hu. reflexivity.
Qed.

(** X5: a [ping] on a connection that is already closed is an
    unexpected error: nothing is written, the dispatcher logs it and
    returns [False], which ends the session. *)
Theorem unanswerable_ping_ends_session line conn s cmd :
  json_loads line = OK cmd ->
  has_action cmd "ping" ->
  is_closed conn s ->
  _parse_command line conn s
  = (OK false, s,
     [Logged CRITICAL "Unexpected error handling command {command_data}: {e}"]).
Proof.
  intros Hl (kvs & a & -> & Ha & Hlow) (k & Hk & Hc).
  assert (Hs : forall data, sendall conn data s = (Raise OSError, s, [])).
  { intros data. unfold sendall. rewrite bind_gets, Hk, Hc. reflexivity. }
  into_chain Hl Ha. rewrite Hlow. cbn.
  unfold bind. rewrite Hs. reflexivity.
Qed.

Lemma declared_int_get kvs key d n :
  declared_int kvs key d = Some n -> dict_get kvs key (JInt d) = JInt n.
Proof.
  unfold declared_int. rewrite dict_get_lookup.
  destruct (dict_lookup kvs key) as [[]|]; cbn; congruence.
Qed.

(** What the dispatcher does with a well-typed command that ends in a
    call on the actuator: the call is recorded, and the result follows
    what the actuator does. *)
Lemma _parse_command_calls line conn s kvs a c :
  json_loads line = OK (JObj kvs) ->
  action_of kvs = JStr a ->
  spec_call (lower a) kvs = Some c ->
  state_of (_parse_command line conn s) = called c s
  /\ result_of (_parse_command line conn s)
     = OK match Trilobot.respond (tbot s) (Trilobot.calls (tbot s)) c with
          | OK _ => true
          | Raise e => anticipated e
          end.
Proof.
  intros Hl Ha Hspec. unfold spec_call, spec_movement, spec_other in Hspec.
  destruct (String.eqb_spec (lower a) "forward") as [E|_];
    [|destruct (String.eqb_spec (lower a) "backward") as [E|_];
      [|destruct (String.eqb_spec (lower a) "turn_left") as [E|_];
        [|destruct (String.eqb_spec (lower a) "turn_right") as [E|_];
          [|destruct (String.eqb_spec (lower a) "set_speeds") as [E|_];
            [|destruct (String.eqb_spec (lower a) "stop") as [E|_];
              [|destruct (String.eqb_spec (lower a) "coast") as [E|_];
                [|destruct (String.eqb_spec (lower a) "set_led") as [E|_];
                  [|destruct (String.eqb_spec (lower a) "fill_underlighting") as [E|_];
                    [|discriminate]]]]]]]]].
  1-4: destruct (declared kvs "speed" float_1_0) as [f|] eqn:D;
    [|unfold spec_other in Hspec; rewrite E in Hspec; discriminate];
    apply declared_get in D; cbn in Hspec; injection Hspec as <-;
    into_chain Hl Ha; rewrite E; run_prims; rewrite D; run_prims;
    match goal with
    | |- context [Trilobot.respond ?tb ?h ?c] =>
        destruct (Trilobot.respond tb h c) as [?|[]]; run_prims; split; reflexivity
    end.
  - destruct (declared kvs "left" float_0_0) as [l|] eqn:Dl;
      [|unfold spec_other in Hspec; rewrite E in Hspec; discriminate].
    destruct (declared kvs "right" float_0_0) as [r|] eqn:Dr;
      [|unfold spec_other in Hspec; rewrite E in Hspec; discriminate].
    apply declared_get in Dl, Dr. cbn in Hspec. injection Hspec as <-.
    into_chain Hl Ha. rewrite E. run_prims. rewrite Dl. run_prims. rewrite Dr. run_prims.
    match goal with
    | |- context [Trilobot.respond ?tb ?h ?c] =>
        destruct (Trilobot.respond tb h c) as [?|[]]; run_prims; split; reflexivity
    end.
  - cbn in Hspec. injection Hspec as <-.
    into_chain Hl Ha. rewrite E. run_prims.
    match goal with
    | |- context [Trilobot.respond ?tb ?h ?c] =>
        destruct (Trilobot.respond tb h c) as [?|[]]; run_prims; split; reflexivity
    end.
  - cbn in Hspec. injection Hspec as <-.
    into_chain Hl Ha. rewrite E. run_prims.
    match goal with
    | |- context [Trilobot.respond ?tb ?h ?c] =>
        destruct (Trilobot.respond tb h c) as [?|[]]; run_prims; split; reflexivity
    end.
  - cbn in Hspec.
    destruct (dict_lookup kvs "led") as [[| |led| | | |]|] eqn:Dl; try discriminate.
    destruct (dict_lookup kvs "value") as [[| | |value| | |]|] eqn:Dv; try discriminate.
    injection Hspec as <-.
    into_chain Hl Ha. rewrite E. run_prims.
    rewrite !dict_get_lookup, Dl, Dv. run_prims.
    match goal with
    | |- context [Trilobot.respond ?tb ?h ?c] =>
        destruct (Trilobot.respond tb h c) as [?|[]]; run_prims; split; reflexivity
    end.
  - cbn in Hspec.
    destruct (declared_int kvs "r" 0) as [r|] eqn:Dr; [|discriminate].
    destruct (declared_int kvs "g" 0) as [g|] eqn:Dg; [|discriminate].
    destruct (declared_int kvs "b" 0) as [b|] eqn:Db; [|discriminate].
    apply declared_int_get in Dr, Dg, Db. injection Hspec as <-.
    into_chain Hl Ha. rewrite E. run_prims. rewrite Dr. run_prims. rewrite Dg. run_prims.
    rewrite Db. run_prims.
    match goal with
    | |- context [Trilobot.respond ?tb ?h ?c] =>
        destruct (Trilobot.respond tb h c) as [?|[]]; run_prims; split; reflexivity
    end.
Qed.

Lemma spec_other_call action kvs c :
  spec_other action kvs = Some c -> spec_call action kvs = Some c.
Proof.
  intros Hs. unfold spec_call, spec_movement.
  repeat match goal with
    | |- context [String.eqb action ?n] =>
        destruct (String.eqb_spec action n) as [->|_]; [discriminate|]
    end.
  exact Hs.
Qed.

(** X6: [stop] and [coast] call the actuator's method of that name;
    [set_led] with an integer [led] and a float [value] calls
    [set_button_led] with them; [fill_underlighting] calls it with the
    integers [r], [g] and [b], each [0] when omitted.  The call is
    made once, after the calls made before, and nothing is written to
    any connection. *)
Theorem halt_and_light_values line conn s kvs a c :
  json_loads line = OK (JObj kvs) ->
  action_of kvs = JStr a ->
  spec_other (lower a) kvs = Some c ->
  Trilobot.calls (tbot (state_of (_parse_command line conn s)))
  = Trilobot.calls (tbot s) ++ [c]
  /\ sockets (state_of (_parse_command line conn s)) = sockets s.
Proof.
  intros Hl Ha Hs. apply spec_other_call in Hs.
  destruct (_parse_command_calls line conn s kvs a c Hl Ha Hs) as [E _].
  rewrite E. split; reflexivity.
Qed.

(** X4: when the actuator raises in the call a command asks for, the
    call stays on record and the dispatcher decides by the class of
    the exception: a [ValueError], [TypeError] or [KeyError] is logged
    and the session goes on; any other exception is an unexpected
    error and ends the session. *)
Theorem actuator_error_decides_session line conn s kvs a c e :
  json_loads line = OK (JObj kvs) ->
  action_of kvs = JStr a ->
  spec_call (lower a) kvs = Some c ->
  Trilobot.respond (tbot s) (Trilobot.calls (tbot s)) c = Raise e ->
  result_of (_parse_command line conn s) = OK (anticipated e)
  /\ state_of (_parse_command line conn s) = called c s.
Proof.
  intros Hl Ha Hs He.
  destruct (_parse_command_calls line conn s kvs a c Hl Ha Hs) as [E R].
  rewrite R, He. auto.
Qed.

End DispatcherMore.

(** ** The session loop *)

Section SessionMore.
Context `{PyRuntime}.
Import CommandServer.

(** A line on which the loop body says stop cuts the input off. *)
Lemma read_loop_cut pre l rest conn :
  (forall s, exists tr, read_line l conn s = (OK false, s, tr)) ->
  forall s, read_loop (pre ++ Line l :: rest) conn s = read_loop (pre ++ [Line l]) conn s.
Proof.
  intros Hl. induction pre as [|[l0|e|] pre IH]; intros s; cbn [app read_loop].
  - unfold bind. destruct (Hl s) as [tr ->]. reflexivity.
  - unfold bind. destruct (read_line l0 conn s) as [[[[]|e] s1] t1]; [|reflexivity..].
    rewrite IH. reflexivity.
  - reflexivity.
  - reflexivity.
Qed.

(** A line the loop body skips might as well not have arrived. *)
Lemma read_loop_skip pre l rest conn :
  (forall s, read_line l conn s = (OK true, s, [])) ->
  forall s, read_loop (pre ++ Line l :: rest) conn s = read_loop (pre ++ rest) conn s.
Proof.
  intros Hl. induction pre as [|[l0|e|] pre IH]; intros s; cbn [app read_loop].
  - unfold bind. rewrite Hl. destruct (read_loop rest conn s) as [[r s1] t1]. reflexivity.
  - unfold bind. destruct (read_line l0 conn s) as [[[[]|e] s1] t1]; [|reflexivity..].
    rewrite IH. reflexivity.
  - reflexivity.
  - reflexivity.
Qed.

(** [_handle_client] depends on its input only through the loop. *)
Lemma _handle_client_ext conn addr in1 in2 dj :
  (forall s, read_loop in1 conn s = read_loop in2 conn s) ->
  forall s, _handle_client conn addr in1 dj s = _handle_client conn addr in2 dj s.
Proof.
  intros Hin s. unfold _handle_client, bind.
  destruct (session_enter addr s) as [[[u|e] s1] t1]; [|reflexivity].
  unfold try_finally, try_except. rewrite Hin. reflexivity.
Qed.

(** X7: once a line asks for [exit], the session is over: whatever
    the connection carries after that line is never executed, and the
    session ends exactly as if the line had been the last one. *)
Theorem nothing_after_exit conn addr pre l rest dj s cmd :
  strip l <> "" ->
  json_loads (strip l) = OK cmd ->
  has_action cmd "exit" ->
  _handle_client conn addr (pre ++ Line l :: rest) dj s
  = _handle_client conn addr (pre ++ [Line l]) dj s.
Proof.
  intros Hne Hl Hx. apply _handle_client_ext. apply read_loop_cut.
  intros s0. unfold read_line.
  destruct (String.eqb_spec (strip l) "") as [E|_]; [contradiction|].
  eexists. apply (exit_terminates _ _ _ cmd Hl Hx).
Qed.

(** X8: a line that is empty once stripped of white space is
    skipped: the session runs exactly as if the line had not
    arrived. *)
Theorem blank_line_is_skipped conn addr pre l rest dj s :
  strip l = "" ->
  _handle_client conn addr (pre ++ Line l :: rest) dj s
  = _handle_client conn addr (pre ++ rest) dj s.
Proof.
  intros Hb. apply _handle_client_ext. apply read_loop_skip.
  intros s0. unfold read_line. rewrite Hb. reflexivity.
Qed.

(** X9: the first step of a handler thread starts the video relay
    towards the address of its client and the server's UDP port, with
    one new sender thread, and enters the read loop; if the client's
    address is empty, the UDP port is zero or the relay is running
    already, the relay is left as it is and the session starts all the
    same. *)
Theorem session_start_streams_to_client me conn addr r dj s :
  handlers s !! me = Some (mkHandler conn addr H_entry) ->
  let v := video_streamer s in
  let s' := state_of (handler_step me r dj s) in
  handlers s' = <[me := mkHandler conn addr H_reading]> (handlers s)
  /\ sockets s' = sockets s
  /\ (VideoStreamer.running v = false -> fst addr <> "" -> udp_port s <> 0 ->
      VideoStreamer.running (video_streamer s') = true
      /\ VideoStreamer.target_ip (video_streamer s') = Some (fst addr)
      /\ VideoStreamer.target_port (video_streamer s') = Some (udp_port s)
      /\ VideoStreamer.threads (video_streamer s')
         = VideoStreamer.threads v ++ [VideoStreamer.W_entry])
  /\ (VideoStreamer.running v = true \/ fst addr = "" \/ udp_port s = 0 ->
      video_streamer s' = v).
Proof.
  intros Hme. cbv zeta. unfold handler_step. rewrite bind_gets, Hme.
  unfold try_except, session_enter, bind, logging, emit, gets, zoom, VideoStreamer.start.
  cbn -[goto].
  destruct (VideoStreamer.running (video_streamer s)) eqn:Hr; cbn -[goto];
    [|destruct (String.eqb_spec (fst addr) "") as [Ei|Ei]; cbn -[goto];
      [|destruct (Z.eqb_spec (udp_port s) 0) as [Ep|Ep]; cbn -[goto]]];
    rewrite (goto_run me H_reading (set_video_streamer _ s) _ Hme); cbn;
    repeat split; intros;
    try discriminate; try contradiction; try reflexivity;
    try (intuition (congruence || discriminate)).
Qed.

End SessionMore.

(** ** The accept loop, [start()] and [stop()] *)

Section ListenerMore.
Context `{PyRuntime}.
Import CommandServer.
#[local] Arguments VideoStreamer.stop : simpl never.
#[local] Arguments VideoStreamer.run_event : simpl never.

(** X10: when the accept loop of a running server gets a connection
    and the session slot is free, because it is empty or because the
    thread it names has ended, the connection is promoted: a handler
    thread is created for it with the peer's address, the slot names
    that thread, nothing is written to the connection and it stays
    open; from then on the slot is busy. *)
Theorem free_slot_promotes conn k s :
  running s = true ->
  ~ slot_busy s ->
  sockets s !! conn = Some k ->
  accepted conn s = (OK Continue, promoted conn (peer k) s, [])
  /\ slot_busy (promoted conn (peer k) s)
  /\ sockets (promoted conn (peer k) s) = sockets s.
Proof.
  intros Hr Hfree Hk. split; [|split; [|reflexivity]].
  - unfold accepted, try_except. rewrite bind_gets, Hr. cbn [negb]. rewrite bind_gets.
    assert (Hb : match _client_handler_thread s with
                 | Some th => is_alive th s
                 | None => false
                 end = false).
    { destruct (_client_handler_thread s) as [th|] eqn:Hs; [|reflexivity].
      destruct (is_alive th s) eqn:Ha; [|reflexivity].
      exfalso. apply Hfree. exists th. auto. }
    rewrite Hb. cbv beta delta [bind gets modify ret]. cbn. rewrite Hk. reflexivity.
  - exists (length (handlers s)). split; [reflexivity|].
    unfold is_alive, promoted. cbn.
    rewrite lookup_app_r by lia. rewrite Nat.sub_diag. reflexivity.
Qed.

(** *** A stopped server *)

Lemma issue_wake_up_closed s : sock_closed (tcp_socket s) = true -> issue_wake_up s = s.
Proof.
  intros Hc. unfold issue_wake_up, try_except, wake_up, peer_connect.
  cbv beta delta [bind emit gets ret raise]. cbn. rewrite Hc, andb_false_r. reflexivity.
Qed.

Lemma stop_not_running dj s : running (state_of (stop dj s)) = false.
Proof.
  destruct (running s) eqn:Hr.
  - destruct (stop_run dj s Hr) as (joins & _ & _ & E). rewrite E. cbn [state_of fst snd].
    destruct (issue_wake_up_facts (stop_video dj (clear_running s))) as (W & _).
    unfold close_listener. cbn. rewrite W. reflexivity.
  - rewrite stop_idle by exact Hr. exact Hr.
Qed.

Lemma stop_closes dj s :
  running s = true -> sock_closed (tcp_socket (state_of (stop dj s))) = true.
Proof.
  intros Hr. destruct (stop_run dj s Hr) as (joins & _ & _ & E). rewrite E. reflexivity.
Qed.

Lemma handler_step_keeps_count me r dj :
  keeps (fun s => length (sockets s)) (handler_step me r dj).
Proof.
  assert (Hf : forall A (m : M t A),
             keeps frame_part m -> keeps (fun s => length (sockets s)) m).
  { intros A m Hm s. specialize (Hm s). unfold frame_part in Hm. congruence. }
  assert (Hg : forall p, keeps (fun s => length (sockets s)) (goto me p)).
  { intros p. unfold goto. apply keeps_modify. intros s.
    destruct (handlers s !! me); reflexivity. }
  unfold handler_step, finally_clear. cbn [map session_except].
  keeps_tac;
    first [ apply Hg | apply Hf, session_enter_keeps_frame
          | apply Hf, read_line_keeps_frame | apply Hf, close_keeps_frame
          | unfold finally_stop; keeps_tac ].
Qed.

Lemma handler_step_count me r dj s :
  length (handlers (state_of (handler_step me r dj s))) = length (handlers s).
Proof.
  pose proof (handler_step_threads me r dj s) as Ht. cbv zeta in Ht.
  destruct (handlers s !! me) as [h|].
  - destruct Ht as (p & -> & _). apply length_insert.
  - unfold threads_part in Ht. congruence.
Qed.

Lemma _listen_worker_shut s :
  sock_closed (tcp_socket s) = true ->
  listener_ok s ->
  let s' := state_of (_listen_worker s) in
  tcp_socket s' = tcp_socket s
  /\ (listener_idle s \/ running s = false -> listener_idle s')
  /\ (listener_idle s -> census s' = census s).
Proof.
  intros Hc Hok. cbv zeta. unfold _listen_worker. rewrite bind_gets.
  unfold listener_ok in Hok. unfold listener_idle at 1 3.
  destruct (_listen_thread s) as [[| | |conn|]|] eqn:Hl.
  - rewrite bind_gets, Hc. unfold listener_idle. cbn. auto.
  - rewrite bind_gets. destruct (running s) eqn:Hr; cbn [negb].
    + cbv beta delta [bind logging emit ret gets leave_loop set_listener modify]. cbn.
      rewrite Hc. cbn. rewrite Hr. cbn. unfold listener_idle. cbn.
      split; [reflexivity|]. split; [auto|intros []].
    + cbv beta delta [bind logging emit ret gets leave_loop set_listener modify]. cbn.
      unfold listener_idle. cbn. split; [reflexivity|]. split; [auto|intros []].
  - destruct Hok as [_ Hok]. congruence.
  - pose proof (accepted_keeps_listen conn s) as Hk. unfold listen_part in Hk.
    injection Hk as Hk _. split; [|split; [|intros []]].
    + unfold bind. destruct (accepted conn s) as [[[[]|e] s1] t1]; cbn in *; exact Hk.
    + intros [[]|Hr]. rewrite (bind_OK _ _ _ _ _ _ (accepted_shutdown conn s Hr)).
      unfold listener_idle. reflexivity.
  - cbn. unfold listener_idle. rewrite Hl. auto.
  - cbn. unfold listener_idle. rewrite Hl. auto.
Qed.

Lemma shut_ok s : shut s -> listener_ok s.
Proof.
  intros [Hc Hi]. unfold listener_ok, listener_idle in *.
  destruct (_listen_thread s) as [[]|]; try contradiction; exact I.
Qed.

(** A step of the process leaves a shut server shut, and neither
    accepts a connection nor creates a handler thread. *)
Lemma step_shut e s :
  shut s -> shut (state_of (step e s)) /\ census (state_of (step e s)) = census s.
Proof.
  intros Hs. pose proof Hs as [Hc Hi].
  destruct e as [|dj|a link|conn| |tid r dj|e]; cbn [step].
  - unfold start. rewrite bind_gets. unfold shut, listener_idle.
    destruct (running s); cbn; auto.
  - destruct (running s) eqn:Hr.
    + destruct (stop_run dj s Hr) as (joins & _ & _ & E). rewrite E. cbn [state_of fst snd].
      rewrite issue_wake_up_closed by exact Hc.
      unfold shut, listener_idle, census in *. cbn. auto.
    + rewrite stop_idle by exact Hr. auto.
  - unfold peer_connect, bind, gets. cbn. rewrite Hc, andb_false_r. cbn. auto.
  - unfold hangup, modify. cbn. unfold shut, listener_idle, census.
    destruct (sockets s !! conn); cbn; [rewrite length_insert|]; auto.
  - destruct (_listen_worker_shut s Hc (shut_ok s Hs)) as (Ht & Hidle & Hcen).
    split; [|auto]. split; [rewrite Ht; exact Hc|auto].
  - pose proof (handler_step_keeps_listen tid r dj s) as Hk. unfold listen_part in Hk.
    injection Hk as Hk1 Hk2.
    unfold shut, listener_idle, census.
    rewrite Hk1, Hk2, (handler_step_keeps_count tid r dj s), handler_step_count. auto.
  - unfold zoom. destruct (VideoStreamer.run_event e (video_streamer s)) as [[r v] tr].
    cbn. auto.
Qed.

Lemma run_shut es s : shut s -> shut (run es s) /\ census (run es s) = census s.
Proof.
  revert s. induction es as [|e es IH]; intros s Hs; [auto|].
  cbn [run]. destruct (step_shut e s Hs) as [Hs1 Hc1].
  destruct (IH _ Hs1) as [Hs2 Hc2]. split; [exact Hs2|congruence].
Qed.

(** After [stop()] the listen thread's next step is its last. *)
Lemma stop_then_listen_shut dj s :
  running s = true -> listener_ok s -> shut (run [Call_stop dj; Listen] s).
Proof.
  intros Hr Hok. cbn [run step].
  pose proof (stop_closes dj s Hr) as Hc.
  pose proof (stop_ok dj s Hok) as Hok'.
  pose proof (stop_not_running dj s) as Hnr.
  destruct (_listen_worker_shut _ Hc Hok') as (Ht & Hidle & _).
  split; [rewrite Ht; exact Hc|auto].
Qed.

(** X11: a server that has been stopped cannot be started again: once
    [stop()] has run and the listen thread has taken its next step,
    the listening socket stays closed and no listen thread stays in
    the accept loop, whatever is called or attempted afterwards; no
    connection is accepted and no handler thread is created any
    more. *)
Theorem stopped_server_cannot_restart tb v host p1 p2 es dj es' :
  let s := run es (init tb v host p1 p2) in
  running s = true ->
  let s1 := run [Call_stop dj; Listen] s in
  shut s1 /\ shut (run es' s1) /\ census (run es' s1) = census s1.
Proof.
  cbv zeta. intros Hr.
  pose proof (run_ok es _ (init_ok tb v host p1 p2)) as Hok.
  pose proof (stop_then_listen_shut dj _ Hr Hok) as Hs.
  split; [exact Hs|]. apply run_shut, Hs.
Qed.

(** X12: [stop()] leaves the server not running, so a second
    [stop()], such as the one [__del__] makes, only logs a warning and
    changes nothing; and a second [start()] on a running server only
    logs a warning and creates no second listen thread. *)
Theorem stop_and_start_twice dj dj' s :
  stop dj' (state_of (stop dj s))
  = (OK tt, state_of (stop dj s), [Logged WARNING "Server is not running."])
  /\ start (state_of (start s))
     = (OK tt, state_of (start s), [Logged WARNING "Server is already running."]).
Proof.
  split.
  - apply stop_idle, stop_not_running.
  - assert (Hr : running (state_of (start s)) = true).
    { unfold start. rewrite bind_gets. destruct (running s) eqn:Hr; [exact Hr|reflexivity]. }
    unfold start at 1. rewrite bind_gets, Hr. reflexivity.
Qed.

End ListenerMore.

(** ** The sender loop and [VideoStreamer.stop()] *)

Section SenderMore.
Import VideoStreamer.

Ltac sender_run :=
  repeat (cbv beta delta [bind ret raise gets modify lift emit zoom logging goto
                          StreamingOutput.resume StreamingOutput.wait
                          StreamingOutput.notify_all];
          cbn).

(** X13: a frame the sender loop holds that is not empty and not
    longer than [MAX_UDP_PACKET_SIZE], on a relay whose target is set,
    is handed to the socket whole, as one datagram to the target
    address and port; the loop logs nothing and goes back to its
    head. *)
Theorem frame_within_limit_is_sent me f ip port v :
  threads v !! me = Some (W_frame (Some f)) ->
  f <> "" ->
  len f <= MAX_UDP_PACKET_SIZE ->
  target_ip v = Some ip -> ip <> "" ->
  target_port v = Some port -> port <> 0 ->
  _stream_worker me None v
  = (OK tt,
     set_threads (<[me := W_head]> (threads v))
       (set_udp_sent (udp_sent v ++ [(f, (ip, port))]) v),
     []).
Proof.
  intros Hth Hf Hlen Hip Hne Hport Hp0.
  unfold _stream_worker. rewrite bind_gets, Hth. rewrite !bind_gets, Hip, Hport.
  cbn [truthy_str truthy_int default].
  apply String.eqb_neq in Hf, Hne. apply Z.eqb_neq in Hp0. rewrite Hf, Hne, Hp0. cbn [negb andb].
  cbv zeta. unfold id.
  apply Z.ltb_ge in Hlen. rewrite Hlen. reflexivity.
Qed.

(** X14: when [sendto] raises, whatever the exception, the sender
    loop logs one error, records nothing as sent, and goes back to its
    head: the thread stays alive and the relay stays as it was. *)
Theorem send_error_keeps_loop_alive me f ip port e v :
  threads v !! me = Some (W_frame (Some f)) ->
  f <> "" ->
  len f <= MAX_UDP_PACKET_SIZE ->
  target_ip v = Some ip -> ip <> "" ->
  target_port v = Some port -> port <> 0 ->
  _stream_worker me (Some e) v
  = (OK tt, set_threads (<[me := W_head]> (threads v)) v,
     [Logged ERROR (if isinstance e OSError then "UDP send error: {e}"
                    else "Unexpected error sending UDP frame: {e}")])
  /\ is_alive me (state_of (_stream_worker me (Some e) v)) = true.
Proof.
  intros Hth Hf Hlen Hip Hne Hport Hp0.
  assert (E : _stream_worker me (Some e) v
              = (OK tt, set_threads (<[me := W_head]> (threads v)) v,
                 [Logged ERROR (if isinstance e OSError then "UDP send error: {e}"
                                else "Unexpected error sending UDP frame: {e}")])).
  { unfold _stream_worker. rewrite bind_gets, Hth. rewrite !bind_gets, Hip, Hport.
    cbn [truthy_str truthy_int default].
    apply String.eqb_neq in Hf, Hne. apply Z.eqb_neq in Hp0. rewrite Hf, Hne, Hp0.
    cbn [negb andb]. cbv zeta. unfold id.
    apply Z.ltb_ge in Hlen. rewrite Hlen.
    destruct (isinstance e OSError); reflexivity. }
  split; [exact E|]. rewrite E. unfold is_alive. cbn.
  rewrite list_lookup_insert_eq by (apply lookup_lt_is_Some; eauto). reflexivity.
Qed.

(** X15: [stop()] on a relay whose sender thread is blocked waiting
    for a frame wakes it; if the thread gets to run during the join,
    it leaves its loop without sending anything, stops the recording
    and ends, and [stop()] returns with the relay not running, its
    target cleared, and no warning. *)
Theorem stop_ends_waiting_sender tid s1 s2 v :
  running v = true ->
  _stream_thread v = Some tid ->
  threads v !! tid = Some W_waiting ->
  In tid (StreamingOutput.waiting (output v)) ->
  let r := stop [Step tid s1; Step tid s2] v in
  result_of r = OK tt
  /\ is_alive tid (state_of r) = false
  /\ recording (state_of r) = false
  /\ udp_sent (state_of r) = udp_sent v
  /\ running (state_of r) = false
  /\ target_ip (state_of r) = None /\ target_port (state_of r) = None
  /\ trace_of r
     = [ Logged INFO "Stopping video streamer...";
         Waited "self._stream_thread.join" 5000;
         Logged INFO "Stopping video recording...";
         Logged INFO "Streaming worker finished.";
         Logged INFO "Video streamer stopped." ].
Proof.
  intros Hr Hst Hth Hin. cbv zeta.
  assert (Hex : existsb (Nat.eqb tid)
                  (StreamingOutput.notified (output v) ++ StreamingOutput.waiting (output v))
                = true).
  { apply existsb_exists. exists tid. split; [apply in_app_iff; right; exact Hin|].
    apply Nat.eqb_refl. }
  assert (Hlt : (tid < length (threads v))%nat) by (apply lookup_lt_is_Some; eauto).
  unfold stop, run_events, run_event, _stream_worker. sender_run.
  rewrite Hr. sender_run. rewrite Hst. sender_run. rewrite Hth. sender_run.
  rewrite Hex. sender_run.
  rewrite list_lookup_insert_eq by exact Hlt. sender_run.
  unfold is_alive. sender_run.
  assert (Hd : <[tid:=W_dead]> (<[tid:=W_leaving]> (threads v)) !! tid = Some W_dead)
    by (apply list_lookup_insert_eq; rewrite length_insert; exact Hlt).
  rewrite !Hd. sender_run. rewrite Hd. repeat split.
Qed.

(** X16: [stop()] does not wait for the sender thread beyond its
    join: if the thread has not ended, [stop()] logs a warning, clears
    the target and returns with the thread still alive; a [start()]
    after that creates a second sender thread beside the first. *)
Theorem stop_does_not_wait_for_sender tid ip port v :
  running v = true ->
  _stream_thread v = Some tid ->
  is_alive tid v = true ->
  let r := stop [] v in
  result_of r = OK tt
  /\ is_alive tid (state_of r) = true
  /\ trace_of r
     = [ Logged INFO "Stopping video streamer...";
         Waited "self._stream_thread.join" 5000;
         Logged WARNING "Streaming thread did not stop gracefully.";
         Logged INFO "Video streamer stopped." ]
  /\ running (state_of r) = false
  /\ target_ip (state_of r) = None /\ target_port (state_of r) = None
  /\ (address_set ip -> port_set port ->
      let v' := state_of (start ip port (state_of r)) in
      running v' = true
      /\ is_alive tid v' = true
      /\ is_alive (length (threads v)) v' = true
      /\ tid <> length (threads v)).
Proof.
  intros Hr Hst Hal. cbv zeta.
  assert (E : stop [] v
              = (OK tt,
                 set_target_port None
                   (set_target_ip None
                      (set_output
                         (StreamingOutput.mk (StreamingOutput.frame (output v)) []
                            (StreamingOutput.notified (output v)
                             ++ StreamingOutput.waiting (output v)))
                         (set_running false v))),
                 [ Logged INFO "Stopping video streamer...";
                   Waited "self._stream_thread.join" 5000;
                   Logged WARNING "Streaming thread did not stop gracefully.";
                   Logged INFO "Video streamer stopped." ])).
  { unfold stop, run_events. sender_run. rewrite Hr. sender_run. rewrite Hst. sender_run.
    unfold is_alive in *. sender_run. rewrite Hal. reflexivity. }
  rewrite E. cbn [result_of state_of trace_of fst snd].
  split; [reflexivity|]. split; [exact Hal|]. do 4 (split; [reflexivity|]).
  intros Hi Hp. apply truthy_str_set in Hi. apply truthy_int_set in Hp.
  destruct port as [p|]; [|discriminate].
  assert (Hlt : (tid < length (threads v))%nat).
  { unfold is_alive in Hal. destruct (threads v !! tid) eqn:Hth; [|discriminate].
    apply lookup_lt_is_Some. eauto. }
  unfold start. sender_run. cbn in Hp. rewrite Hi, Hp. sender_run.
  unfold is_alive in *. cbn.
  rewrite lookup_app_l by exact Hlt. rewrite lookup_app_r by lia.
  rewrite Nat.sub_diag. cbn. repeat split; [exact Hal|lia].
Qed.

End SenderMore.

(** ** The controller's connection *)

Section ControllerMore.
Context `{PyRuntime}.
Import RobotClient.

Ltac client_run :=
  repeat (cbv beta delta [bind ret raise gets modify lift emit logging try_except
                          _cleanup_sockets];
          cbn).

(** X17: [connect()] never raises.  On a connected controller it only
    logs a warning.  Otherwise, if the TCP connection and the UDP bind
    both succeed, it returns [True] with both sockets open and the
    controller connected and running; if either fails, it returns
    [False] with both sockets released, the controller not connected,
    and [_running] as it was. *)
Theorem connect_outcomes tcp udp c :
  (is_connected c = true ->
     connect tcp udp c = (OK true, c, [Logged WARNING "Already connected."]))
  /\ (is_connected c = false -> tcp = None -> udp = None ->
      let c' := state_of (connect tcp udp c) in
      result_of (connect tcp udp c) = OK true
      /\ is_connected c' = true /\ _running c' = true
      /\ tcp_socket c' = Some "" /\ udp_socket c' = Some tt)
  /\ (is_connected c = false -> tcp <> None \/ udp <> None ->
      let c' := state_of (connect tcp udp c) in
      result_of (connect tcp udp c) = OK false
      /\ is_connected c' = false /\ _running c' = _running c
      /\ tcp_socket c' = None /\ udp_socket c' = None).
Proof.
  split; [|split].
  - intros Hc. unfold connect. rewrite bind_gets, Hc. reflexivity.
  - intros Hc -> ->. unfold connect. rewrite bind_gets, Hc. client_run. repeat split.
  - intros Hc Hfail. unfold connect. rewrite bind_gets, Hc.
    destruct tcp as [e|]; [|destruct udp as [e|]; [|destruct Hfail; contradiction]];
      client_run; destruct e; client_run; repeat split.
Qed.

Lemma disconnect_run send c :
  _running c = true ->
  exists tr,
    disconnect send c
    = (OK tt,
       set_is_connected false (set_udp_socket None (set_tcp_socket None (set__running false c))),
       tr).
Proof.
  intros Hr. unfold disconnect. rewrite bind_gets, Hr. cbn [negb].
  destruct (tcp_socket c) as [written|] eqn:Hs.
  - destruct (is_connected c) eqn:Hc.
    + destruct send as [e|].
      * destruct (json_dumps (JObj [("action", JStr "exit")])) as [text|e'];
          client_run; rewrite Hs; client_run; rewrite Hc; client_run;
          destruct e; client_run; eexists; reflexivity.
      * destruct (json_dumps (JObj [("action", JStr "exit")])) as [text|e'] eqn:Hd;
          client_run; rewrite Hs; client_run; rewrite Hc; client_run; rewrite ?Hd;
          client_run; eexists; reflexivity.
    + client_run. rewrite Hs. client_run. rewrite Hc. client_run. eexists. reflexivity.
  - destruct c as [ip p1 p2 ts us co ru vf]. cbn in Hs, Hr. subst ts ru.
    client_run. eexists. reflexivity.
Qed.

(** X18: [disconnect()] never raises, whatever happens to the
    farewell it sends.  On a controller that is not running it does
    nothing; on a running one it clears [_running] and [is_connected]
    and releases both sockets, and leaves the last video frame in
    place; a second [disconnect()] does nothing. *)
Theorem disconnect_releases send send' c :
  (_running c = false -> disconnect send c = (OK tt, c, []))
  /\ (_running c = true ->
      let c' := state_of (disconnect send c) in
      result_of (disconnect send c) = OK tt
      /\ is_connected c' = false /\ _running c' = false
      /\ tcp_socket c' = None /\ udp_socket c' = None
      /\ _video_frame c' = _video_frame c)
  /\ disconnect send' (state_of (disconnect send c))
     = (OK tt, state_of (disconnect send c), []).
Proof.
  assert (Hoff : forall s0 c0, _running c0 = false -> disconnect s0 c0 = (OK tt, c0, [])).
  { intros s0 c0 Hr. unfold disconnect. rewrite bind_gets, Hr. reflexivity. }
  split; [apply Hoff|]. split.
  - intros Hr. destruct (disconnect_run send c Hr) as [tr E]. rewrite E. repeat split.
  - apply Hoff. destruct (_running c) eqn:Hr.
    + destruct (disconnect_run send c Hr) as [tr E]. rewrite E. reflexivity.
    + rewrite (Hoff send c Hr). exact Hr.
Qed.

(** X19: the UDP listener stores a datagram only when it comes from
    the robot's address, whatever the port, and then it replaces the
    stored frame; a datagram from any other address changes nothing.
    A receive timeout changes nothing and the loop goes on; any other
    error ends the loop, with one record logged. *)
Theorem udp_listener_filters_by_address c :
  _running c = true ->
  (forall data ip port,
      _udp_listen_worker (OK (data, (ip, port))) c
      = (OK true, if ip == robot_ip c then set__video_frame (Some data) c else c, []))
  /\ _udp_listen_worker (Raise SocketTimeout) c = (OK true, c, [])
  /\ (forall e, e <> SocketTimeout ->
        _udp_listen_worker (Raise e) c
        = (OK false, c, [Logged ERROR "UDP receive error: {e}"])).
Proof.
  intros Hr. split; [|split].
  - intros data ip port. unfold _udp_listen_worker. rewrite bind_gets, Hr. client_run.
    destruct (ip == robot_ip c); reflexivity.
  - unfold _udp_listen_worker. rewrite bind_gets, Hr. reflexivity.
  - intros e He. unfold _udp_listen_worker. rewrite bind_gets, Hr.
    destruct e; try contradiction; client_run; rewrite Hr; reflexivity.
Qed.

(** *** Sending commands *)

Import Controller.

Lemma agree_disconnect fw c : agree c -> agree (state_of (disconnect fw c)).
Proof.
  intros Ha. destruct (_running c) eqn:Hr.
  - destruct (disconnect_run fw c Hr) as [tr E]. rewrite E. right. repeat split.
  - unfold disconnect. rewrite bind_gets, Hr. exact Ha.
Qed.

#[local] Arguments disconnect : simpl never.

(** What [send_command] does, case by case. *)
Lemma send_command_cases action kwargs send fw c :
  match is_connected c, tcp_socket c with
  | true, Some written =>
      match json_dumps (JObj (("action", JStr action) :: kwargs)), send with
      | OK text, None =>
          send_command action kwargs send fw c
          = (OK tt, set_tcp_socket (Some (written +:+ text +:+ nl)) c, [])
      | _, _ =>
          exists msg,
            send_command action kwargs send fw c
            = (result_of (disconnect fw c), state_of (disconnect fw c),
               Logged ERROR msg :: trace_of (disconnect fw c))
      end
  | _, _ =>
      send_command action kwargs send fw c
      = (OK tt, c, [Logged ERROR "Not connected. Cannot send command."])
  end.
Proof.
  unfold send_command. rewrite !bind_gets.
  destruct (is_connected c); [|reflexivity].
  destruct (tcp_socket c) as [written|]; [|reflexivity].
  destruct (json_dumps (JObj (("action", JStr action) :: kwargs))) as [text|e'].
  - destruct send as [e|]; [|reflexivity].
    unfold try_except, bind at 1. unfold lift. cbn.
    destruct e; cbn; cbv beta delta [bind logging emit]; cbn;
      destruct (disconnect fw c) as [[r c1] t1]; eexists; reflexivity.
  - unfold try_except, bind at 1. unfold lift. cbn.
    destruct e'; cbn; cbv beta delta [bind logging emit]; cbn;
      destruct (disconnect fw c) as [[r c1] t1]; eexists; reflexivity.
Qed.

(** X20: on a connected controller [send_command] writes exactly one
    line to the TCP socket, the JSON text of the object whose first
    key is [action] and whose other keys are the keyword arguments,
    followed by a line feed, and changes nothing else; on a controller
    that is not connected it writes nothing and logs an error. *)
Theorem send_command_writes_one_line action kwargs fw c written text :
  is_connected c = true ->
  tcp_socket c = Some written ->
  json_dumps (JObj (("action", JStr action) :: kwargs)) = OK text ->
  send_command action kwargs None fw c
  = (OK tt, set_tcp_socket (Some (written +:+ text +:+ nl)) c, [])
  /\ forall c0 send, is_connected c0 = false \/ tcp_socket c0 = None ->
       send_command action kwargs send fw c0
       = (OK tt, c0, [Logged ERROR "Not connected. Cannot send command."]).
Proof.
  intros Hc Hs Hd. split.
  - pose proof (send_command_cases action kwargs None fw c) as E.
    rewrite Hc, Hs, Hd in E. exact E.
  - intros c0 send Hno. pose proof (send_command_cases action kwargs send fw c0) as E.
    destruct Hno as [Hno|Hno]; rewrite Hno in E.
    + exact E.
    + destruct (is_connected c0); exact E.
Qed.

(** X21: [send_command] never raises: when the text cannot be
    produced or the socket refuses it, on a connected and running
    controller, the error is logged and the controller disconnects
    itself: it ends not connected, not running, with both sockets
    released, and nothing of the command written. *)
Theorem failed_send_disconnects action kwargs send fw c written :
  is_connected c = true ->
  tcp_socket c = Some written ->
  _running c = true ->
  send <> None \/ (exists e, json_dumps (JObj (("action", JStr action) :: kwargs)) = Raise e) ->
  let c' := state_of (send_command action kwargs send fw c) in
  result_of (send_command action kwargs send fw c) = OK tt
  /\ is_connected c' = false /\ _running c' = false
  /\ tcp_socket c' = None /\ udp_socket c' = None.
Proof.
  intros Hc Hs Hr Hfail. cbv zeta.
  pose proof (send_command_cases action kwargs send fw c) as E. rewrite Hc, Hs in E.
  destruct (disconnect_run fw c Hr) as [tr Hd].
  assert (E' : exists msg,
             send_command action kwargs send fw c
             = (result_of (disconnect fw c), state_of (disconnect fw c),
                Logged ERROR msg :: trace_of (disconnect fw c))).
  { destruct (json_dumps (JObj (("action", JStr action) :: kwargs))) as [text|e'].
    - destruct send as [e|]; [exact E|]. destruct Hfail as [Hf|[e Hf]]; congruence.
    - exact E. }
  destruct E' as [msg ->]. rewrite Hd. repeat split.
Qed.

(** The state [send_command] and the reply loop leave. *)
Lemma send_command_agree action kwargs send fw c :
  agree c -> agree (state_of (send_command action kwargs send fw c)).
Proof.
  intros Ha. pose proof (send_command_cases action kwargs send fw c) as E.
  destruct (is_connected c) eqn:Hc; [|rewrite E; exact Ha].
  destruct (tcp_socket c) as [written|] eqn:Hs; [|rewrite E; exact Ha].
  assert (Hd := agree_disconnect fw c Ha).
  destruct (json_dumps (JObj (("action", JStr action) :: kwargs))) as [text|e'].
  - destruct send as [e|].
    + destruct E as [msg ->]. exact Hd.
    + rewrite E. destruct Ha as [(A1 & A2 & A3 & A4)|(A1 & _)]; [|congruence].
      left. repeat split; try assumption. discriminate.
  - destruct E as [msg ->]. exact Hd.
Qed.

Lemma drain_state {S} fuel buffer (s : S) : state_of (drain fuel buffer s) = s.
Proof.
  revert buffer. induction fuel as [|fuel IH]; intros buffer; [reflexivity|].
  cbn [drain]. destruct (split_nl buffer) as [[line rest]|]; [|reflexivity].
  unfold bind. destruct (line == ""); cbn;
    specialize (IH rest); destruct (drain fuel rest s) as [[r s1] t1]; exact IH.
Qed.

Lemma drain_returns {S} fuel buffer (s : S) : exists rest, result_of (drain fuel buffer s) = OK rest.
Proof.
  revert buffer. induction fuel as [|fuel IH]; intros buffer; [eexists; reflexivity|].
  cbn [drain]. destruct (split_nl buffer) as [[line rest]|]; [|eexists; reflexivity].
  unfold bind. destruct (line == ""); cbn;
    destruct (IH rest) as [r Hr]; destruct (drain fuel rest s) as [[r0 s1] t1];
    cbn in *; eauto.
Qed.

#[local] Arguments drain : simpl never.

Section ReplyLoop.
Context (decode : bytes -> pystr).

Lemma _tcp_listen_worker_state r fw buffer c :
  state_of (_tcp_listen_worker decode r fw buffer c) = c
  \/ state_of (_tcp_listen_worker decode r fw buffer c) = state_of (disconnect fw c).
Proof.
  unfold _tcp_listen_worker. rewrite bind_gets.
  destruct (_running c) eqn:Hr; cbn [negb]; [|left; reflexivity].
  destruct r as [data|e].
  - unfold try_except, bind at 1. unfold lift. cbn.
    destruct (data == "").
    + right. cbv beta delta [bind logging emit ret]. cbn.
      destruct (disconnect_run fw c Hr) as [tr Hd]. rewrite Hd. reflexivity.
    + left. cbv zeta. unfold bind.
      pose proof (drain_state (Datatypes.S (String.length (buffer +:+ decode data)))
                    (buffer +:+ decode data) c) as Hs.
      destruct (drain_returns (Datatypes.S (String.length (buffer +:+ decode data)))
                  (buffer +:+ decode data) c) as [rest Hres].
      destruct (drain _ _ c) as [[r0 c1] t1]. cbn in *. subst r0. exact Hs.
  - left. unfold try_except, bind at 1. unfold lift. cbn.
    destruct e; cbn; cbv beta delta [bind logging emit ret gets]; cbn; rewrite ?Hr; reflexivity.
Qed.

End ReplyLoop.

(** X22: between any two calls the flags and the sockets of a
    controller agree: it is connected and running with both sockets
    open, or it is neither and holds no socket, whatever sequence of
    [connect], [disconnect], [send_command], datagrams and replies it
    has been through, with whatever failures. *)
Theorem flags_and_sockets_agree decode ip p1 p2 es :
  agree (Controller.run decode es (init ip p1 p2)).
Proof.
  assert (Hstep : forall e c, agree c -> agree (state_of (Controller.step decode e c))).
  { intros e c Ha. destruct e as [[tcp udp|send|r]|action kwargs send fw|r fw buffer|fw];
      cbn [Controller.step RobotClient.step].
    - assert (E : state_of ((connect tcp udp ;; ret tt) c) = state_of (connect tcp udp c)).
      { unfold bind. destruct (connect tcp udp c) as [[[b|x] c1] t1]; reflexivity. }
      rewrite E. unfold connect. rewrite bind_gets.
      destruct (is_connected c) eqn:Hc; [exact Ha|].
      destruct Ha as [(A1 & _)|(_ & A2 & A3 & A4)]; [congruence|].
      destruct tcp as [e|]; [|destruct udp as [e|]]; client_run;
        try (destruct e; client_run);
        first [right; repeat split; assumption|left; repeat split; discriminate].
    - apply agree_disconnect, Ha.
    - assert (E : state_of ((_udp_listen_worker r ;; ret tt) c)
                  = state_of (_udp_listen_worker r c)).
      { unfold bind. destruct (_udp_listen_worker r c) as [[[b|x] c1] t1]; reflexivity. }
      rewrite E. unfold _udp_listen_worker. rewrite bind_gets.
      destruct (_running c) eqn:Hr; cbn [negb]; [|exact Ha].
      destruct r as [[data [a p]]|e]; client_run.
      + destruct (a == robot_ip c); exact Ha.
      + destruct e; client_run; rewrite ?Hr; exact Ha.
    - apply send_command_agree, Ha.
    - assert (E : state_of ((_tcp_listen_worker decode r fw buffer ;; ret tt) c)
                  = state_of (_tcp_listen_worker decode r fw buffer c)).
      { unfold bind.
        destruct (_tcp_listen_worker decode r fw buffer c) as [[[b|x] c1] t1]; reflexivity. }
      rewrite E. destruct (_tcp_listen_worker_state decode r fw buffer c) as [-> | ->];
        [exact Ha|apply agree_disconnect, Ha].
    - unfold _tcp_listen_worker_exit. cbv beta delta [bind logging emit gets]. cbn.
      destruct (_running c) eqn:Hr.
      + destruct (disconnect_run fw c Hr) as [tr Hd]. rewrite Hd. right. repeat split.
      + exact Ha. }
  assert (Hrun : forall c, agree c -> agree (Controller.run decode es c)).
  { induction es as [|e es IH]; intros c Ha; [exact Ha|]. cbn. apply IH, Hstep, Ha. }
  apply Hrun. right. repeat split.
Qed.

End ControllerMore.

(** ** The controller's reply loop *)

Section Replies.
Import Controller.

Lemma split_nl_join l r : one_line l -> split_nl (l +:+ nl +:+ r) = Some (l, r).
Proof.
  unfold one_line. induction l as [|c l IH]; intros Hl; [reflexivity|].
  cbn in Hl. change (String c l +:+ nl +:+ r) with (String c (l +:+ nl +:+ r)).
  cbn [split_nl]. destruct (Ascii.eqb c "010"); [discriminate|].
  destruct (split_nl l) as [[]|]; [discriminate|]. rewrite IH by reflexivity. reflexivity.
Qed.

Lemma split_nl_some s l r :
  split_nl s = Some (l, r) ->
  s = l +:+ nl +:+ r /\ one_line l /\ (String.length r < String.length s)%nat.
Proof.
  unfold one_line. revert l r. induction s as [|c s IH]; intros l r Hs; [discriminate|].
  cbn [split_nl] in Hs. destruct (Ascii.eqb_spec c "010") as [->|Hc].
  - injection Hs as <- <-. repeat split. cbn. lia.
  - destruct (split_nl s) as [[l0 r0]|]; [|discriminate]. injection Hs as <- <-.
    destruct (IH l0 r0 eq_refl) as (E & Hl & Hlen).
    split; [|split].
    + change (String c l0 +:+ nl +:+ r0) with (String c (l0 +:+ nl +:+ r0)). rewrite <- E.
      reflexivity.
    + cbn [split_nl]. destruct (Ascii.eqb_spec c "010"); [contradiction|]. rewrite Hl.
      reflexivity.
    + cbn [String.length]. lia.
Qed.

(** A text has one reading as complete lines and a rest. *)
Lemma join_lines_unique l1 r1 l2 r2 :
  Forall one_line l1 -> one_line r1 -> Forall one_line l2 -> one_line r2 ->
  join_lines l1 +:+ r1 = join_lines l2 +:+ r2 -> l1 = l2 /\ r1 = r2.
Proof.
  intros H1. revert l2. induction H1 as [|x l1 Hx H1 IH]; intros l2 Hr1 H2 Hr2 E.
  - destruct H2 as [|y l2 Hy H2]; [auto|exfalso].
    change (r1 = (y +:+ nl +:+ join_lines l2) +:+ r2) in E.
    rewrite E in Hr1. unfold one_line in Hr1.
    rewrite !append_assoc in Hr1. rewrite (split_nl_join y _ Hy) in Hr1. discriminate.
  - destruct H2 as [|y l2 Hy H2].
    + exfalso. change ((x +:+ nl +:+ join_lines l1) +:+ r1 = r2) in E.
      rewrite <- E in Hr2. unfold one_line in Hr2.
      rewrite !append_assoc in Hr2. rewrite (split_nl_join x _ Hx) in Hr2. discriminate.
    + cbn [join_lines fold_right] in E. rewrite !append_assoc in E.
      assert (Es := f_equal split_nl E).
      rewrite (split_nl_join x _ Hx), (split_nl_join y _ Hy) in Es.
      injection Es as -> Et.
      destruct (IH l2 Hr1 H2 Hr2 Et) as [-> ->]. auto.
Qed.

(** What the inner loop does with a buffer, given fuel beyond its
    length. *)
Lemma drain_spec {S} fuel buffer (s : S) :
  (String.length buffer < fuel)%nat ->
  exists lines rest,
    drain fuel buffer s = (OK rest, s, says lines)
    /\ buffer = join_lines lines +:+ rest
    /\ Forall one_line lines /\ one_line rest.
Proof.
  revert buffer. induction fuel as [|fuel IH]; intros buffer Hf; [lia|].
  cbn [drain]. destruct (split_nl buffer) as [[line rest]|] eqn:Hs.
  - destruct (split_nl_some _ _ _ Hs) as (E & Hl & Hlen).
    destruct (IH rest ltac:(lia)) as (lines & rest' & Hd & Er & Hls & Hr).
    exists (line :: lines), rest'. split; [|split; [|split; [constructor; assumption|exact Hr]]].
    + unfold bind, says. cbn [List.filter].
      destruct (line == ""); cbn; rewrite Hd; reflexivity.
    + cbn [join_lines fold_right]. rewrite !append_assoc. rewrite E, Er. reflexivity.
  - exists [], buffer. repeat split; [constructor|exact Hs].
Qed.

Lemma says_app l1 l2 : says (l1 ++ l2) = says l1 ++ says l2.
Proof. unfold says. rewrite List.filter_app, List.map_app. reflexivity. Qed.

Lemma join_lines_app l1 l2 : join_lines (l1 ++ l2) = join_lines l1 +:+ join_lines l2.
Proof.
  induction l1 as [|x l1 IH]; [reflexivity|].
  cbn [app join_lines fold_right]. fold (join_lines (l1 ++ l2)). rewrite IH.
  fold (join_lines l1). rewrite !append_assoc. reflexivity.
Qed.

Section WithDecoder.
Context `{PyRuntime} (decode : bytes -> pystr).
#[local] Arguments drain : simpl never.

Lemma _tcp_listen_worker_data data fw buffer c :
  RobotClient._running c = true -> data <> "" ->
  exists lines rest,
    _tcp_listen_worker decode (OK data) fw buffer c = (OK (Some rest), c, says lines)
    /\ buffer +:+ decode data = join_lines lines +:+ rest
    /\ Forall one_line lines /\ one_line rest.
Proof.
  intros Hr Hd. unfold _tcp_listen_worker. rewrite bind_gets, Hr. cbn [negb].
  unfold try_except, bind at 1. unfold lift. cbn.
  apply String.eqb_neq in Hd. rewrite Hd. cbv zeta.
  destruct (drain_spec (Datatypes.S (String.length (buffer +:+ decode data)))
              (buffer +:+ decode data) c ltac:(lia)) as (lines & rest & E & Hb & Hl & Hrest).
  exists lines, rest. unfold bind. rewrite E. cbn. rewrite app_nil_r. auto.
Qed.

(** X23: a chunk of data from the robot is appended to the buffer;
    every complete line of the buffer, the text up to a line feed, is
    taken out in order, and logged if it is not empty; what follows
    the last line feed stays in the buffer for the next chunk.
    Nothing is lost and nothing else changes. *)
Theorem replies_are_split_into_lines data fw buffer c :
  RobotClient._running c = true ->
  data <> "" ->
  exists lines rest,
    _tcp_listen_worker decode (OK data) fw buffer c = (OK (Some rest), c, says lines)
    /\ buffer +:+ decode data = join_lines lines +:+ rest
    /\ Forall one_line lines /\ one_line rest.
Proof. apply _tcp_listen_worker_data. Qed.

(** X24: how the stream is cut into chunks does not matter: reading
    two chunks one after the other logs the same lines and leaves the
    same buffer as reading them as one chunk, provided the cut does
    not fall inside a character. *)
Theorem chunking_does_not_matter d1 d2 fw buffer c :
  RobotClient._running c = true ->
  d1 <> "" -> d2 <> "" ->
  decode (d1 +:+ d2) = decode d1 +:+ decode d2 ->
  exists b1 b2 t1 t2,
    _tcp_listen_worker decode (OK d1) fw buffer c = (OK (Some b1), c, t1)
    /\ _tcp_listen_worker decode (OK d2) fw b1 c = (OK (Some b2), c, t2)
    /\ _tcp_listen_worker decode (OK (d1 +:+ d2)) fw buffer c = (OK (Some b2), c, t1 ++ t2).
Proof.
  intros Hr H1 H2 Hdec.
  destruct (_tcp_listen_worker_data d1 fw buffer c Hr H1) as (l1 & b1 & E1 & J1 & L1 & R1).
  destruct (_tcp_listen_worker_data d2 fw b1 c Hr H2) as (l2 & b2 & E2 & J2 & L2 & R2).
  assert (H12 : d1 +:+ d2 <> "") by (destruct d1; [contradiction|discriminate]).
  destruct (_tcp_listen_worker_data (d1 +:+ d2) fw buffer c Hr H12)
    as (l & b & E & J & L & R).
  exists b1, b2, (says l1), (says l2). split; [exact E1|]. split; [exact E2|].
  rewrite Hdec, <- append_assoc, J1, append_assoc, J2, <- append_assoc,
    <- join_lines_app in J.
  destruct (join_lines_unique l b (l1 ++ l2) b2 L R) as [-> ->]; auto.
  - apply Forall_app. auto.
  - rewrite E, says_app. reflexivity.
Qed.

End WithDecoder.

End Replies.

(** * The further properties on concrete inputs *)

Section DispatcherExamples.
Import CommandServer.

(** X3 on the mock actuator, whose [read_distance] returns 99.9. *)
Lemma read_distance_replies_witness :
  result_of (_parse_command read_distance_line 0 in_session) = OK true
  /\ sent <$> sockets (state_of (_parse_command read_distance_line 0 in_session)) !! 0%nat
     = Some distance_reply
  /\ Trilobot.calls (tbot (state_of (_parse_command read_distance_line 0 in_session)))
     = [Trilobot.read_distance].
Proof.
  rewrite (read_distance_replies read_distance_line 0 in_session
             (JObj [("action", JStr "read_distance")]) (JFloat float_99_9)
             (quoted "{'status': 'distance', 'value': 99.9}")).
  - repeat split.
  - vm_compute. reflexivity.
  - exists [("action", JStr "read_distance")], "read_distance". repeat split.
  - reflexivity.
  - vm_compute. reflexivity.
  - exact in_session_writable.
Defined.

(** X5 on the connection of a session that has ended. *)
Lemma unanswerable_ping_ends_session_witness :
  result_of (_parse_command ping_line 0 session_over) = OK false
  /\ state_of (_parse_command ping_line 0 session_over) = session_over.
Proof.
  rewrite (unanswerable_ping_ends_session ping_line 0 session_over
             (JObj [("action", JStr "ping")])).
  - split; reflexivity.
  - vm_compute. reflexivity.
  - exists [("action", JStr "ping")], "ping". repeat split.
  - eexists. split; [vm_compute; reflexivity|reflexivity].
Defined.

(** X6 on the line the controller sends for the key [l], on [stop] and
    on [set_led]. *)
Lemma halt_and_light_values_witness :
  Trilobot.calls (tbot (state_of (_parse_command lights_line 0 in_session)))
  = [Trilobot.fill_underlighting 0 0 200]
  /\ Trilobot.calls (tbot (state_of (_parse_command stop_line 0 in_session)))
     = [Trilobot.stop]
  /\ Trilobot.calls (tbot (state_of (_parse_command led_line 0 in_session)))
     = [Trilobot.set_button_led 2 float_0_5].
Proof.
  split; [|split].
  - apply (halt_and_light_values lights_line 0 in_session
             [("action", JStr "fill_underlighting"); ("r", JInt 0); ("g", JInt 0);
              ("b", JInt 200)] "fill_underlighting");
      vm_compute; reflexivity.
  - apply (halt_and_light_values stop_line 0 in_session [("action", JStr "stop")] "stop");
      vm_compute; reflexivity.
  - apply (halt_and_light_values led_line 0 in_session
             [("action", JStr "set_led"); ("led", JInt 2); ("value", JFloat float_0_5)]
             "set_led");
      vm_compute; reflexivity.
Defined.

(** X4 on an actuator that rejects the speed with [ValueError], and on
    one whose bus fails with [OSError]. *)
Lemma actuator_error_decides_session_witness :
  result_of (_parse_command forward_half_line 0 (in_faulty_session ValueError)) = OK true
  /\ result_of (_parse_command forward_half_line 0 (in_faulty_session OSError)) = OK false.
Proof.
  split.
  - apply (actuator_error_decides_session forward_half_line 0 (in_faulty_session ValueError)
             [("action", JStr "forward"); ("speed", JFloat float_0_5)] "forward"
             (Trilobot.forward float_0_5) ValueError);
      vm_compute; reflexivity.
  - apply (actuator_error_decides_session forward_half_line 0 (in_faulty_session OSError)
             [("action", JStr "forward"); ("speed", JFloat float_0_5)] "forward"
             (Trilobot.forward float_0_5) OSError);
      vm_compute; reflexivity.
Defined.

(** X10 on the first controller to reach a listening server. *)
Lemma free_slot_promotes_witness :
  accepted 0 first_client_arrives
  = (OK Continue, promoted 0 client_a first_client_arrives, [])
  /\ handlers (promoted 0 client_a first_client_arrives) = [mkHandler 0 client_a H_entry]
  /\ slot_busy (promoted 0 client_a first_client_arrives).
Proof.
  destruct (free_slot_promotes 0 (mkConn client_a "" false true) first_client_arrives)
    as (Ha & Hb & _).
  - reflexivity.
  - intros (th & Hs & _). discriminate.
  - reflexivity.
  - split; [exact Ha|]. split; [reflexivity|exact Hb].
Defined.

(** X11 on a server stopped while it waited for a controller: the
    restart sets [running] again, and still nothing is accepted. *)
Lemma stopped_server_cannot_restart_witness :
  shut (run restart_attempt (run [Call_stop []; Listen] listening_server))
  /\ census (run restart_attempt (run [Call_stop []; Listen] listening_server))
     = census (run [Call_stop []; Listen] listening_server)
  /\ running (run restart_attempt (run [Call_stop []; Listen] listening_server)) = true.
Proof.
  destruct (stopped_server_cannot_restart MockTrilobot VideoStreamer.init "0.0.0.0" 9000 9001
              server_listens [] restart_attempt) as (_ & Hs & Hc).
  - vm_compute. reflexivity.
  - split; [exact Hs|]. split; [exact Hc|]. vm_compute. reflexivity.
Defined.

(** X7 on a connection that carries [ping], [exit] and then
    [forward]: the motors are never asked to move. *)
Lemma nothing_after_exit_witness :
  _handle_client 0 client_a [Line ping_line; Line exit_line; Line forward_line] []
    client_accepted
  = _handle_client 0 client_a [Line ping_line; Line exit_line] [] client_accepted
  /\ Trilobot.calls
       (tbot (state_of (_handle_client 0 client_a
                          [Line ping_line; Line exit_line; Line forward_line] []
                          client_accepted)))
     = [].
Proof.
  assert (E := nothing_after_exit 0 client_a [Line ping_line] exit_line [Line forward_line] []
                 client_accepted (JObj [("action", JStr "exit")])).
  cbn [app] in E. rewrite E.
  - split; [reflexivity|]. vm_compute. reflexivity.
  - vm_compute. discriminate.
  - vm_compute. reflexivity.
  - exists [("action", JStr "exit")], "exit". repeat split.
Defined.

(** X8 on a line of white space between two commands. *)
Lemma blank_line_is_skipped_witness :
  _handle_client 0 client_a [Line ping_line; Line blank_line; Line exit_line] []
    client_accepted
  = _handle_client 0 client_a [Line ping_line; Line exit_line] [] client_accepted.
Proof.
  apply (blank_line_is_skipped 0 client_a [Line ping_line] blank_line [Line exit_line] []
           client_accepted).
  vm_compute. reflexivity.
Defined.

(** X9 on the handler thread of the first controller. *)
Lemma session_start_streams_to_client_witness :
  VideoStreamer.running
    (video_streamer (state_of (handler_step 0 EOF [] client_accepted))) = true
  /\ VideoStreamer.target_ip
       (video_streamer (state_of (handler_step 0 EOF [] client_accepted)))
     = Some "192.168.1.50"
  /\ VideoStreamer.target_port
       (video_streamer (state_of (handler_step 0 EOF [] client_accepted)))
     = Some 9001.
Proof.
  destruct (session_start_streams_to_client 0 0%nat client_a EOF [] client_accepted)
    as (_ & _ & Hon & _).
  - reflexivity.
  - destruct Hon as (Hr & Hi & Hp & _).
    + reflexivity.
    + discriminate.
    + discriminate.
    + split; [exact Hr|]. split; [exact Hi|exact Hp].
Defined.

End DispatcherExamples.

Section SenderExamples.
Import VideoStreamer.

Lemma full_frame_len : len full_frame = MAX_UDP_PACKET_SIZE.
Proof.
  unfold len, full_frame. rewrite length_filler.
  apply Z2Nat.id. unfold MAX_UDP_PACKET_SIZE. lia.
Qed.

Lemma full_frame_not_empty : full_frame <> "".
Proof.
  intros E. pose proof full_frame_len as Hl. rewrite E in Hl. discriminate.
Qed.

(** X13 at the bound: a frame of exactly 65507 bytes is sent. *)
Lemma frame_within_limit_is_sent_witness :
  udp_sent (state_of (_stream_worker 0 None (run_video (relay_reads full_frame) init)))
  = [(full_frame, ("192.168.1.50", 9001))].
Proof.
  destruct (relay_reads_holds full_frame) as (Hth & Hsent & Hip & Hport).
  rewrite (frame_within_limit_is_sent 0 full_frame "192.168.1.50" 9001
             (run_video (relay_reads full_frame) init)).
  - cbn [state_of fst snd]. unfold set_threads, set_udp_sent. cbn [udp_sent].
    rewrite Hsent. reflexivity.
  - exact Hth.
  - exact full_frame_not_empty.
  - rewrite full_frame_len. lia.
  - exact Hip.
  - discriminate.
  - exact Hport.
  - discriminate.
Defined.

(** X14 on a network that is unreachable. *)
Lemma send_error_keeps_loop_alive_witness :
  trace_of (_stream_worker 0 (Some OSError) (run_video (relay_reads "F") init))
  = [Logged ERROR "UDP send error: {e}"]
  /\ udp_sent (state_of (_stream_worker 0 (Some OSError) (run_video (relay_reads "F") init)))
     = []
  /\ is_alive 0 (state_of (_stream_worker 0 (Some OSError)
                             (run_video (relay_reads "F") init))) = true.
Proof.
  destruct (send_error_keeps_loop_alive 0 "F" "192.168.1.50" 9001 OSError
              (run_video (relay_reads "F") init)) as [E Ha];
    try reflexivity; try discriminate.
  rewrite E. repeat split.
Defined.

(** X15 on a relay whose sender loop waits for the camera. *)
Lemma stop_ends_waiting_sender_witness :
  is_alive 0 (state_of (stop [Step 0 None; Step 0 None] (run_video relay_waits init)))
  = false
  /\ recording (state_of (stop [Step 0 None; Step 0 None] (run_video relay_waits init)))
     = false
  /\ logged_at WARNING
       (trace_of (stop [Step 0 None; Step 0 None] (run_video relay_waits init))) = [].
Proof.
  destruct (stop_ends_waiting_sender 0 None None (run_video relay_waits init))
    as (_ & Ha & Hrec & _ & _ & _ & _ & Ht).
  - reflexivity.
  - reflexivity.
  - reflexivity.
  - left. reflexivity.
  - split; [exact Ha|]. split; [exact Hrec|]. rewrite Ht. reflexivity.
Defined.

(** X16 on a sender thread that holds a frame and does not run during
    the join: after [stop()] and [start()] two sender threads are
    alive. *)
Lemma stop_does_not_wait_for_sender_witness :
  is_alive 0 (state_of (start (Some "192.168.1.51") (Some 9001)
                          (state_of (stop [] (run_video (relay_reads "F") init))))) = true
  /\ is_alive 1 (state_of (start (Some "192.168.1.51") (Some 9001)
                             (state_of (stop [] (run_video (relay_reads "F") init))))) = true.
Proof.
  destruct (stop_does_not_wait_for_sender 0 (Some "192.168.1.51") (Some 9001)
              (run_video (relay_reads "F") init))
    as (_ & _ & _ & _ & _ & _ & Hre).
  - reflexivity.
  - reflexivity.
  - reflexivity.
  - destruct Hre as (_ & H0 & H1 & _).
    + exists "192.168.1.51". split; [reflexivity|discriminate].
    + exists 9001. split; [reflexivity|discriminate].
    + split; [exact H0|exact H1].
Defined.

End SenderExamples.

Section ControllerMoreExamples.
Import RobotClient.

(** X19 on a connected controller: a datagram from another address
    is not stored. *)
Lemma udp_listener_filters_by_address_witness :
  _udp_listen_worker (OK ("JPEG", ("192.168.1.50", 40000))) connected_controller
  = (OK true, set__video_frame (Some "JPEG") connected_controller, [])
  /\ _udp_listen_worker (OK ("JPEG", ("192.168.1.77", 9001))) connected_controller
     = (OK true, connected_controller, []).
Proof.
  destruct (udp_listener_filters_by_address connected_controller) as (Hd & _ & _).
  - reflexivity.
  - split; [exact (Hd "JPEG" "192.168.1.50" 40000)|exact (Hd "JPEG" "192.168.1.77" 9001)].
Defined.

(** X20 on the command the controller sends for the key [w]. *)
Lemma send_command_writes_one_line_witness :
  Controller.send_command "forward" [("speed", JFloat float_0_5)] None None
    connected_controller
  = (OK tt, set_tcp_socket (Some (forward_half_line +:+ nl)) connected_controller, []).
Proof.
  destruct (send_command_writes_one_line "forward" [("speed", JFloat float_0_5)] None
              connected_controller "" forward_half_line) as [Hs _].
  - reflexivity.
  - reflexivity.
  - vm_compute. reflexivity.
  - exact Hs.
Defined.

(** X21 on a connection the robot has closed. *)
Lemma failed_send_disconnects_witness :
  state_of (Controller.send_command "stop" [] (Some BrokenPipeError) (Some BrokenPipeError)
              connected_controller)
  = init "192.168.1.50" 9000 9001.
Proof.
  destruct (failed_send_disconnects "stop" [] (Some BrokenPipeError) (Some BrokenPipeError)
              connected_controller "")
    as (_ & H1 & H2 & H3 & H4).
  - reflexivity.
  - reflexivity.
  - reflexivity.
  - left. discriminate.
  - reflexivity.
Defined.

(** X23 on two replies that arrive in chunks cut inside the second
    one. *)
Lemma replies_are_split_into_lines_witness :
  exists lines rest,
    Controller._tcp_listen_worker ascii_text (OK reply_chunk_1) None "" connected_controller
    = (OK (Some rest), connected_controller, Controller.says lines)
    /\ "" +:+ ascii_text reply_chunk_1 = Controller.join_lines lines +:+ rest
    /\ Forall Controller.one_line lines /\ Controller.one_line rest.
Proof.
  apply (replies_are_split_into_lines ascii_text reply_chunk_1 None "" connected_controller).
  - reflexivity.
  - discriminate.
Defined.

(** X24 on the same chunks. *)
Lemma chunking_does_not_matter_witness :
  exists b1 b2 t1 t2,
    Controller._tcp_listen_worker ascii_text (OK reply_chunk_1) None "" connected_controller
    = (OK (Some b1), connected_controller, t1)
    /\ Controller._tcp_listen_worker ascii_text (OK reply_chunk_2) None b1 connected_controller
       = (OK (Some b2), connected_controller, t2)
    /\ Controller._tcp_listen_worker ascii_text (OK (reply_chunk_1 +:+ reply_chunk_2)) None ""
         connected_controller
       = (OK (Some b2), connected_controller, t1 ++ t2).
Proof.
  apply (chunking_does_not_matter ascii_text reply_chunk_1 reply_chunk_2 None ""
           connected_controller).
  - reflexivity.
  - discriminate.
  - discriminate.
  - reflexivity.
Defined.

End ControllerMoreExamples.

